(** * The gRPC text-generation service of vllm/entrypoints/grpc/grpc_server.py

    A shallow embedding of [TextGenerationService]: parameter validation,
    prompt preparation, stop-reason classification, token-detail conversion
    and the two orchestrators ([Generate], [GenerateStream]), followed by
    the properties the specification states about them.

    Conventions.
    - A Python [str] is a list of Unicode code points ([len] counts code
      points, slicing drops code points); its UTF-8 size is [utf8_len].
    - Python floats that are only compared and added (log-probabilities,
      clock readings, sampling knobs) are rationals.
    - A call that can raise returns a [raises] value; [context.abort] raises
      [AbortError] with the status code it was given.
    - What a handler does to the engine and to the client is recorded as a
      list of [effect]s, in the order the source performs them. *)

From Stdlib Require Import ZArith NArith QArith Lia String Ascii Sorted.
From stdpp Require Import base option list.

Local Open Scope Z_scope.

(** ** Python values *)

Definition str := list N.

Definition str_of_string (s : string) : str :=
  map N_of_ascii (list_ascii_of_string s).

(** Number of bytes of one code point in UTF-8. *)
Definition utf8_width (c : N) : nat :=
  if (c <? 128)%N then 1%nat
  else if (c <? 2048)%N then 2%nat
  else if (c <? 65536)%N then 3%nat
  else 4%nat.

Definition utf8_len (s : str) : nat := sum_list (map utf8_width s).

(** Python truthiness, as used by [with_default]. *)
Class Truthy (A : Type) := truthy : A -> bool.
#[export] Instance nat_truthy : Truthy nat := fun n => negb (n =? 0)%nat.
#[export] Instance N_truthy : Truthy N := fun n => negb (n =? 0)%N.
#[export] Instance Z_truthy : Truthy Z := fun n => negb (n =? 0).
#[export] Instance Q_truthy : Truthy Q := fun q => negb (Qeq_bool q 0).
#[export] Instance list_truthy {A} : Truthy (list A) :=
  fun l => match l with [] => false | _ => true end.

(** [with_default(value, default)]: [value if value else default]. *)
Definition with_default {A} `{Truthy A} (value default : A) : A :=
  if truthy value then value else default.

(** [with_default(value, None)]. *)
Definition with_default_None {A} `{Truthy A} (value : A) : option A :=
  if truthy value then Some value else None.

(** ** Exceptions *)

Inductive StatusCode := INVALID_ARGUMENT | RESOURCE_EXHAUSTED.

Inductive exn :=
| AbortError (code : StatusCode)
| ValueError
| KeyError
| IndexError
| AttributeError
| TypeError.

Inductive raises (A : Type) :=
| Ok (a : A)
| Raise (e : exn).
Arguments Ok {A} a.
Arguments Raise {A} e.

#[export] Instance result_ret : MRet raises := fun A a => Ok a.
#[export] Instance result_bind : MBind raises := fun A B k m =>
  match m with
  | Ok a => k a
  | Raise e => Raise e
  end.

(** [l[i]] on a Python list. *)
Definition getitem {A} (l : list A) (i : nat) : raises A :=
  match l !! i with
  | Some a => Ok a
  | None => Raise IndexError
  end.

(** [l[i] = x] on a Python list. *)
Definition setitem {A} (l : list A) (i : nat) (x : A) : raises (list A) :=
  if decide (i < length l)%nat then Ok (<[i:=x]> l) else Raise IndexError.

(** ** Wire messages (generation_pb2) *)

Inductive DecodingMethod := GREEDY | SAMPLE.

Inductive StopReason :=
| NOT_FINISHED
| MAX_TOKENS
| EOS_TOKEN
| CANCELLED
| TIME_LIMIT
| STOP_SEQUENCE
| TOKEN_LIMIT.

Module ResponseOptions.
Record t := mk {
  input_text : bool;
  generated_tokens : bool;
  input_tokens : bool;
  token_logprobs : bool;
  token_ranks : bool;
  top_n_tokens : N
}.
End ResponseOptions.

Module SamplingParameters.
Record t := mk {
  temperature : Q;
  top_k : N;
  top_p : Q;
  typical_p : Q;
  seed : option N
}.
End SamplingParameters.

Module StoppingCriteria.
Record t := mk {
  max_new_tokens : N;
  min_new_tokens : N;
  time_limit_millis : N;
  stop_sequences : list str;
  include_stop_sequence : option bool
}.
End StoppingCriteria.

Module DecodingParameters.
Record t := mk {
  repetition_penalty : Q;
  length_penalty : option (N * Q)
}.
End DecodingParameters.

Module Parameters.
Record t := mk {
  method : DecodingMethod;
  sampling : SamplingParameters.t;
  stopping : StoppingCriteria.t;
  response : ResponseOptions.t;
  decoding : DecodingParameters.t;
  truncate_input_tokens : N
}.
End Parameters.

Module TopToken.
Record t := mk {
  text : str;
  logprob : option Q
}.
End TopToken.

Module TokenInfo.
Record t := mk {
  text : str;
  logprob : option Q;
  rank : option Z;
  top_tokens : list TopToken.t
}.
End TokenInfo.

Module GenerationResponse.
Record t := mk {
  text : str;
  generated_token_count : nat;
  stop_reason : StopReason;
  stop_sequence : option str;
  input_token_count : nat;
  tokens : list TokenInfo.t;
  input_tokens : list TokenInfo.t;
  seed : option N
}.
(** [GenerationResponse()] *)
Definition empty : t := mk [] 0 NOT_FINISHED None 0 [] [] None.
End GenerationResponse.

(** ** Engine types (vllm) *)

Module Logprob.
Record t := mk {
  logprob : Q;
  rank : option Z
}.
End Logprob.

(** [Dict[int, Logprob]]: keys in insertion order. *)
Definition LogprobDict := list (Z * Logprob.t).

(** [CompletionOutput.stop_reason]: the attribute may be missing (older
    engine), [None] (end-of-sequence token), a matched stop string, or a
    stop token id. *)
Inductive stop_attr :=
| NoAttr
| AttrNone
| AttrStr (s : str)
| AttrInt (t : Z).

Module CompletionOutput.
Record t := mk {
  text : str;
  token_ids : list Z;
  logprobs : option (list (option LogprobDict));
  finish_reason : option str;
  stop_reason : stop_attr
}.
End CompletionOutput.

Module RequestOutput.
Record t := mk {
  prompt : option str;
  prompt_token_ids : list Z;
  prompt_logprobs : option (list (option LogprobDict));
  outputs : list CompletionOutput.t
}.
(** [res.prompt = text] *)
Definition set_prompt (res : t) (text : str) : t :=
  mk (Some text) (prompt_token_ids res) (prompt_logprobs res) (outputs res).
End RequestOutput.

Inductive LogitsProcessor := TypicalLogitsWarperWrapper (mass : Q).

(** The sampling parameters, by the keywords the handler builds them
    with.  The handlers read and update [max_tokens] and read
    [min_tokens], which the object holds as given; the other fields
    stand for the values passed: an absent [stop] means no stop
    sequences, and what the class makes of [top_k] and [top_p] under
    greedy decoding is not followed here.  The checks the constructor
    runs are the [SamplingParams_verify] of the validator. *)
Module SamplingParams.
Record t := mk {
  logprobs : option Z;
  prompt_logprobs : option Z;
  max_tokens : option Z;
  min_tokens : Z;
  temperature : Q;
  top_k : Z;
  top_p : Q;
  seed : option N;
  repetition_penalty : Q;
  logits_processors : option (list LogitsProcessor);
  stop : option (list str);
  include_stop_str_in_output : bool;
  skip_special_tokens : bool
}.
(** [sampling_params.max_tokens = v], an update in place. *)
Definition set_max_tokens (sp : t) (v : Z) : t :=
  mk (logprobs sp) (prompt_logprobs sp) (Some v) (min_tokens sp)
     (temperature sp) (top_k sp) (top_p sp) (seed sp) (repetition_penalty sp)
     (logits_processors sp) (stop sp) (include_stop_str_in_output sp)
     (skip_special_tokens sp).
End SamplingParams.

(** ** Module constants *)

Definition MAX_TOP_N_TOKENS : N := 10.
Definition MAX_STOP_SEQS : nat := 6.
Definition MAX_STOP_SEQ_LENGTH : nat := 240.

(** ** The stop-reason classifier *)

Definition _convert_reason (output : CompletionOutput.t)
    (max_is_token_limit time_limit_reached : bool)
  : StopReason * option str :=
  match CompletionOutput.finish_reason output with
  | None =>
      (if time_limit_reached then TIME_LIMIT else NOT_FINISHED, None)
  | Some finish_reason =>
      if decide (finish_reason = str_of_string "length") then
        (if max_is_token_limit then TOKEN_LIMIT else MAX_TOKENS, None)
      else if decide (finish_reason = str_of_string "stop") then
        match CompletionOutput.stop_reason output with
        | NoAttr => (STOP_SEQUENCE, None)
        | AttrNone => (EOS_TOKEN, None)
        | AttrStr s => (STOP_SEQUENCE, Some s)
        | AttrInt _ => (STOP_SEQUENCE, None)
        end
      else if decide (finish_reason = str_of_string "abort") then
        (CANCELLED, None)
      else
        (CANCELLED, None)
  end.

(** ** The service object *)

Module TextGenerationService.
(** [self]: the configured ceiling [args.max_new_tokens], the two output
    switches, the context window [self.config.max_model_len], and the
    tokenizer collaborators.  [encode_async prompt max_length] is
    [self.tokenizer_group.encode_async] with the truncation keywords when
    [max_length] is given; [id_to_token] is what
    [self.tokenizer.convert_ids_to_tokens] does to one id. *)
Record t := mk {
  max_max_new_tokens : Z;
  skip_special_tokens : bool;
  default_include_stop_seqs : bool;
  max_model_len : Z;
  encode_async : str -> option N -> list Z;
  id_to_token : Z -> str
}.
Definition convert_ids_to_tokens (self : t) (ids : list Z) : list str :=
  map (id_to_token self) ids.
End TextGenerationService.

(** ** The token detail converter *)

(** [d[k]] on a dict. *)
Definition dict_getitem (d : LogprobDict) (k : Z) : raises Logprob.t :=
  match find (fun item => (item.1 =? k)) d with
  | Some item => Ok item.2
  | None => Raise KeyError
  end.

Definition Qlt_bool (x y : Q) : bool := negb (Qle_bool y x).

(** [sorted(items, key=lambda item: item[1].logprob, reverse=True)]: the
    stable arrangement by descending key.  An item is placed after the
    items of a strictly larger key and before all others, so that items of
    equal key keep the order they had in the dict. *)
Fixpoint insert_desc (x : Z * Logprob.t) (l : list (Z * Logprob.t))
  : list (Z * Logprob.t) :=
  match l with
  | [] => [x]
  | y :: ys =>
      if Qlt_bool (Logprob.logprob x.2) (Logprob.logprob y.2)
      then y :: insert_desc x ys
      else x :: y :: ys
  end.

Definition sorted_reverse (items : list (Z * Logprob.t))
  : list (Z * Logprob.t) :=
  foldr insert_desc [] items.

(** Assignment to a uint32 field of a message: [None] is refused with
    [TypeError], an integer outside the range with [ValueError]. *)
Definition set_uint32 (value : option Z) : raises Z :=
  match value with
  | None => Raise TypeError
  | Some v =>
      if (0 <=? v) && (v <? 2 ^ 32) then Ok v else Raise ValueError
  end.

Section convert_tokens.
Variable self : TextGenerationService.t.
Variable token_ids : list Z.
Variable logprobs_list : option (list (option LogprobDict)).
Variables include_logprobs include_ranks : bool.
Variable top_n_tokens : N.

(** The alternatives attached at one position (lines 442-454). *)
Definition top_tokens_of (logprobs : LogprobDict) : list TopToken.t :=
  let items := take (N.to_nat top_n_tokens) (sorted_reverse logprobs) in
  let tt_texts :=
    TextGenerationService.convert_ids_to_tokens self (map fst items) in
  zip_with
    (fun tt_text item =>
       TopToken.mk tt_text
         (if include_logprobs then Some (Logprob.logprob item.2) else None))
    tt_texts items.

(** The body of the loop at lines 430-455, for position [i]. *)
Definition token_info_at (i : nat) (text : str) : raises TokenInfo.t :=
  let token_info := TokenInfo.mk text None None [] in
  match logprobs_list with
  | None => Ok token_info
  | Some logprobs_list =>
      logprobs ← getitem logprobs_list i;
      match logprobs with
      | None => Ok token_info
      | Some logprobs =>
          token_info ←
            (if include_logprobs || include_ranks then
               tid ← getitem token_ids i;
               logprob ← dict_getitem logprobs tid;
               rank ←
                 (if include_ranks
                  then rank ← set_uint32 (Logprob.rank logprob); Ok (Some rank)
                  else Ok None);
               Ok (TokenInfo.mk text
                     (if include_logprobs
                      then Some (Logprob.logprob logprob) else None)
                     rank [])
             else Ok token_info);
          if truthy top_n_tokens then
            Ok (TokenInfo.mk (TokenInfo.text token_info)
                  (TokenInfo.logprob token_info)
                  (TokenInfo.rank token_info)
                  (top_tokens_of logprobs))
          else Ok token_info
      end
  end.

(** [for i, text in enumerate(token_texts)], from index [i]. *)
Fixpoint tokens_loop (i : nat) (token_texts : list str)
  : raises (list TokenInfo.t) :=
  match token_texts with
  | [] => Ok []
  | text :: rest =>
      token_info ← token_info_at i text;
      token_infos ← tokens_loop (S i) rest;
      Ok (token_info :: token_infos)
  end.

End convert_tokens.

(** [_convert_tokens]: the new details are appended to [token_infos]. *)
Definition _convert_tokens (self : TextGenerationService.t)
    (token_ids : list Z)
    (logprobs_list : option (list (option LogprobDict)))
    (include_logprobs include_ranks : bool) (top_n_tokens : N)
    (token_infos : list TokenInfo.t) (token_start_offset : nat)
  : raises (list TokenInfo.t) :=
  let '(token_ids, logprobs_list) :=
    if truthy token_start_offset
    then (drop token_start_offset token_ids,
          drop token_start_offset <$> logprobs_list)
    else (token_ids, logprobs_list) in
  let token_texts :=
    TextGenerationService.convert_ids_to_tokens self token_ids in
  new ← tokens_loop self token_ids logprobs_list include_logprobs
        include_ranks top_n_tokens 0 token_texts;
  Ok (token_infos ++ new).

(** ** Requests *)

Module BatchedGenerationRequest.
(** Each entry of [requests] is a message whose only field is [text]. *)
Record t := mk {
  requests : list str;
  params : Parameters.t
}.
End BatchedGenerationRequest.

Module SingleGenerationRequest.
Record t := mk {
  request : str;
  params : Parameters.t
}.
End SingleGenerationRequest.

(** ** Effects of a handler *)

(** The id a handler gives the engine: [request_id] in [GenerateStream],
    [f"{request_id}-{i}"] for member [i] of a batch. *)
Inductive engine_request :=
| Single (request_id : str)
| Member (request_id : str) (i : nat).

(** [EngineGenerate]: a call of [engine.generate], recorded where the
    handler makes it.  The sampling parameters are passed as an object the
    handler may still update afterwards; a trace shows that object in the
    state it has when the handler ends.  [EngineNext]: the handler takes
    one snapshot from the engine's stream.  [EngineAbort]:
    [engine.abort].  [Yield]: a streamed response handed to the client. *)
Inductive effect :=
| EngineGenerate (id : engine_request) (sampling_params : SamplingParams.t)
    (prompt_token_ids : list Z)
| EngineNext (id : engine_request) (snapshot : RequestOutput.t)
| EngineAbort (id : engine_request)
| Yield (response : GenerationResponse.t).

Record traced (A : Type) := Traced {
  effects : list effect;
  outcome : raises A
}.
Arguments Traced {A} effects outcome.
Arguments effects {A} t.
Arguments outcome {A} t.

#[export] Instance traced_ret : MRet traced := fun A a => Traced [] (Ok a).
#[export] Instance traced_bind : MBind traced := fun A B k m =>
  match outcome m with
  | Ok a => Traced (effects m ++ effects (k a)) (outcome (k a))
  | Raise e => Traced (effects m) (Raise e)
  end.

Definition tell (e : effect) : traced unit := Traced [e] (Ok ()).
Definition lift {A} (r : raises A) : traced A := Traced [] r.

(** [deadline is not None and time.time() >= deadline], [now] being the
    clock reading. *)
Definition deadline_hit (deadline : option Q) (now : Q) : bool :=
  match deadline with
  | Some deadline => Qle_bool deadline now
  | None => false
  end.

(** ** Parameter validation and conversion *)

(** The condition of the [if] at lines 301-304:
    [stop_sequences and len(stop_sequences) > MAX_STOP_SEQS
     or not all(0 < len(ss) <= MAX_STOP_SEQ_LENGTH for ss in ...)]. *)
Definition stop_sequences_invalid (stop_sequences : list str) : bool :=
  (truthy stop_sequences && (MAX_STOP_SEQS <? length stop_sequences)%nat)
  || negb (forallb
             (fun ss => (0 <? length ss)%nat
                        && (length ss <=? MAX_STOP_SEQ_LENGTH)%nat)
             stop_sequences).

Definition check (ok : bool) : raises unit :=
  if ok then Ok () else Raise ValueError.

Section handlers.
Variable self : TextGenerationService.t.

(** The checks [SamplingParams.__init__] makes on its own: it raises
    [ValueError] on the configurations it refuses and otherwise stores the
    fields it was given. *)
Variable SamplingParams_verify : SamplingParams.t -> bool.

(** The body of the [try] at lines 277-374; [now] is [time.time()]. *)
Definition convert_params (params : Parameters.t) (now : Q)
  : raises (SamplingParams.t * option Q) :=
  let resp_options := Parameters.response params in
  let sampling := Parameters.sampling params in
  let stopping := Parameters.stopping params in
  let greedy :=
    match Parameters.method params with GREEDY => true | SAMPLE => false end in
  _ ← check (negb (bool_decide (is_Some
         (DecodingParameters.length_penalty (Parameters.decoding params)))));
  max_new_tokens ←
    (if (0 <? StoppingCriteria.max_new_tokens stopping)%N then
       let max_new_tokens :=
         Z.of_N (StoppingCriteria.max_new_tokens stopping) in
       _ ← check (negb (TextGenerationService.max_max_new_tokens self
                        <? max_new_tokens));
       Ok (Some max_new_tokens)
     else Ok None);
  let min_new_tokens :=
    Z.max 0 (Z.of_N (StoppingCriteria.min_new_tokens stopping)) in
  _ ← (if 0 <? min_new_tokens then
         match max_new_tokens with
         | Some max_new_tokens =>
             check (negb (max_new_tokens <? min_new_tokens))
         | None =>
             check (negb (TextGenerationService.max_max_new_tokens self
                          <? min_new_tokens))
         end
       else Ok ());
  _ ← check (negb (stop_sequences_invalid
                     (StoppingCriteria.stop_sequences stopping)));
  let logprobs :=
    if ResponseOptions.token_logprobs resp_options
       || ResponseOptions.token_ranks resp_options then 1 else 0 in
  let top_n_tokens := ResponseOptions.top_n_tokens resp_options in
  logprobs ←
    (if truthy top_n_tokens then
       _ ← check (negb (MAX_TOP_N_TOKENS <? top_n_tokens)%N);
       let logprobs := logprobs + Z.of_N top_n_tokens in
       Ok (if greedy && ResponseOptions.token_logprobs resp_options
           then logprobs - 1 else logprobs)
     else Ok logprobs);
  let logprobs := with_default_None logprobs in
  let logits_processors :=
    if negb greedy
       && Qlt_bool 0 (SamplingParameters.typical_p sampling)
       && Qlt_bool (SamplingParameters.typical_p sampling) 1
    then Some [TypicalLogitsWarperWrapper
                 (SamplingParameters.typical_p sampling)]
    else None in
  let time_limit_millis := StoppingCriteria.time_limit_millis stopping in
  let deadline :=
    if (0 <? time_limit_millis)%N
    then Some (now + inject_Z (Z.of_N time_limit_millis) / 1000)%Q
    else None in
  let sampling_params :=
    SamplingParams.mk
      logprobs
      (if ResponseOptions.input_tokens resp_options then logprobs else None)
      max_new_tokens
      min_new_tokens
      (if negb greedy
       then with_default (SamplingParameters.temperature sampling) 1%Q
       else 0%Q)
      (with_default (Z.of_N (SamplingParameters.top_k sampling)) (-1))
      (with_default (SamplingParameters.top_p sampling) 1%Q)
      (SamplingParameters.seed sampling)
      (with_default
         (DecodingParameters.repetition_penalty (Parameters.decoding params))
         1%Q)
      logits_processors
      (with_default_None (StoppingCriteria.stop_sequences stopping))
      (match StoppingCriteria.include_stop_sequence stopping with
       | Some b => b
       | None => TextGenerationService.default_include_stop_seqs self
       end)
      (TextGenerationService.skip_special_tokens self) in
  _ ← check (SamplingParams_verify sampling_params);
  Ok (sampling_params, deadline).

(** [_validate_and_convert_params]: a [ValueError] of the body becomes
    [context.abort(StatusCode.INVALID_ARGUMENT, ...)], which raises. *)
Definition _validate_and_convert_params (params : Parameters.t) (now : Q)
  : raises (SamplingParams.t * option Q) :=
  match convert_params params now with
  | Raise ValueError => Raise (AbortError INVALID_ARGUMENT)
  | r => r
  end.

(** ** Prompt preparation *)

(** [_validate_prompt_and_tokenize].  The function updates
    [sampling_params.max_tokens] in place; the updated object is returned
    next to the function's own result [(input_ids, max_is_token_limit)]. *)
Definition _validate_prompt_and_tokenize
    (sampling_params : SamplingParams.t)
    (truncate_input_tokens : option N) (prompt : str)
  : raises (SamplingParams.t * (list Z * bool)) :=
  let max_model_len := TextGenerationService.max_model_len self in
  let input_ids :=
    TextGenerationService.encode_async self prompt truncate_input_tokens in
  let token_num := Z.of_nat (length input_ids) in
  _ ← (if max_model_len <=? token_num
       then Raise (AbortError INVALID_ARGUMENT) else Ok ());
  let min_new_tokens := SamplingParams.min_tokens sampling_params in
  _ ← (if max_model_len <? token_num + min_new_tokens
       then Raise (AbortError INVALID_ARGUMENT) else Ok ());
  match SamplingParams.max_tokens sampling_params with
  | None =>
      Ok (SamplingParams.set_max_tokens sampling_params
            (Z.min (TextGenerationService.max_max_new_tokens self)
                   (max_model_len - token_num)),
          (input_ids, true))
  | Some max_new_tokens =>
      if max_model_len <? token_num + max_new_tokens then
        Ok (SamplingParams.set_max_tokens sampling_params
              (max_model_len - token_num),
            (input_ids, true))
      else Ok (sampling_params, (input_ids, false))
  end.

(** ** Response assembly *)

(** [_convert_input_details]; [result.prompt] is the request's text, set by
    the caller just before. *)
Definition _convert_input_details (result : RequestOutput.t)
    (resp_options : ResponseOptions.t) (sampling_params : SamplingParams.t)
    (response : GenerationResponse.t) : raises GenerationResponse.t :=
  let input_token_count := length (RequestOutput.prompt_token_ids result) in
  input_tokens ←
    (if ResponseOptions.input_tokens resp_options then
       _convert_tokens self
         (RequestOutput.prompt_token_ids result)
         (RequestOutput.prompt_logprobs result)
         (ResponseOptions.token_logprobs resp_options)
         (ResponseOptions.token_ranks resp_options)
         (ResponseOptions.top_n_tokens resp_options)
         (GenerationResponse.input_tokens response) 0
     else Ok (GenerationResponse.input_tokens response));
  text ←
    (if ResponseOptions.input_text resp_options then
       match RequestOutput.prompt result with
       | Some prompt =>
           Ok (if negb (truthy (GenerationResponse.text response))
               then prompt
               else prompt ++ GenerationResponse.text response)
       | None => Raise TypeError
       end
     else Ok (GenerationResponse.text response));
  let seed :=
    match SamplingParams.seed sampling_params with
    | Some seed => Some seed
    | None => GenerationResponse.seed response
    end in
  Ok (GenerationResponse.mk text
        (GenerationResponse.generated_token_count response)
        (GenerationResponse.stop_reason response)
        (GenerationResponse.stop_sequence response)
        input_token_count
        (GenerationResponse.tokens response)
        input_tokens
        seed).

Definition _convert_output (output : CompletionOutput.t)
    (resp_options : ResponseOptions.t)
    (max_is_token_limit time_limit_reached : bool)
    (text_start_offset token_start_offset : nat)
  : raises GenerationResponse.t :=
  let '(stop_reason, stop_sequence) :=
    _convert_reason output max_is_token_limit time_limit_reached in
  tokens ←
    (if ResponseOptions.generated_tokens resp_options then
       _convert_tokens self
         (CompletionOutput.token_ids output)
         (CompletionOutput.logprobs output)
         (ResponseOptions.token_logprobs resp_options)
         (ResponseOptions.token_ranks resp_options)
         (ResponseOptions.top_n_tokens resp_options)
         [] token_start_offset
     else Ok []);
  Ok (GenerationResponse.mk
        (drop text_start_offset (CompletionOutput.text output))
        (length (CompletionOutput.token_ids output))
        stop_reason stop_sequence 0 tokens [] None).

(** ** The stream orchestrator *)

(** The loop of [GenerateStream] (lines 184-208) over the snapshots the
    engine produces; each snapshot comes with the clock reading of its
    deadline test. *)
Fixpoint stream_loop (request_id : str) (text : str)
    (resp_options : ResponseOptions.t) (sampling_params : SamplingParams.t)
    (deadline : option Q) (max_is_tok_limit : bool)
    (first : bool) (last_output_length last_token_count : nat)
    (snapshots : list (RequestOutput.t * Q)) : traced unit :=
  match snapshots with
  | [] => mret ()
  | (result, now) :: rest =>
      _ ← tell (EngineNext (Single request_id) result);
      _ ← (if first then
             let result := RequestOutput.set_prompt result text in
             first_response ←
               lift (_convert_input_details result resp_options
                       sampling_params GenerationResponse.empty);
             tell (Yield first_response)
           else mret ());
      output ← lift (getitem (RequestOutput.outputs result) 0);
      time_limit_reached ←
        (if deadline_hit deadline now then
           _ ← tell (EngineAbort (Single request_id));
           mret true
         else mret false);
      response ←
        lift (_convert_output output resp_options max_is_tok_limit
                time_limit_reached last_output_length last_token_count);
      _ ← tell (Yield response);
      if time_limit_reached : bool then mret ()
      else
        stream_loop request_id text resp_options sampling_params deadline
          max_is_tok_limit false
          (length (CompletionOutput.text output))
          (length (CompletionOutput.token_ids output))
          rest
  end.

Definition GenerateStream (request_id : str)
    (request : SingleGenerationRequest.t) (now : Q)
    (snapshots : list (RequestOutput.t * Q)) : traced unit :=
  let params := SingleGenerationRequest.params request in
  '(sampling_params, deadline) ←
    lift (_validate_and_convert_params params now);
  let truncate_input_tokens :=
    with_default_None (Parameters.truncate_input_tokens params) in
  '(sampling_params, (input_ids, max_is_tok_limit)) ←
    lift (_validate_prompt_and_tokenize sampling_params truncate_input_tokens
            (SingleGenerationRequest.request request));
  _ ← tell (EngineGenerate (Single request_id) sampling_params input_ids);
  stream_loop request_id (SingleGenerationRequest.request request)
    (Parameters.response params) sampling_params deadline max_is_tok_limit
    true 0 0 snapshots.

(** ** The batch orchestrator *)

(** The loop at lines 113-121.  One [sampling_params] object goes through
    every preparation and into every generator; a generator is recorded as
    its request id and prompt tokens. *)
Fixpoint prepare_loop (request_id : str)
    (truncate_input_tokens : option N) (i : nat) (requests : list str)
    (sampling_params : SamplingParams.t)
    (generators : list (engine_request * list Z))
    (max_is_token_limit : list bool)
  : raises (SamplingParams.t * list (engine_request * list Z) * list bool) :=
  match requests with
  | [] => Ok (sampling_params, generators, max_is_token_limit)
  | text :: rest =>
      '(sampling_params, (input_ids, flag)) ←
        _validate_prompt_and_tokenize sampling_params truncate_input_tokens
          text;
      prepare_loop request_id truncate_input_tokens (S i) rest
        sampling_params
        (generators ++ [(Member request_id i, input_ids)])
        (<[i:=flag]> max_is_token_limit)
  end.

(** The calls of [engine.generate] the same loop has made by the time it
    ends, normally or with the abort of a preparation: the generators
    appended so far, next to the state the shared [sampling_params] object
    is in by then. *)
Fixpoint engine_calls (request_id : str)
    (truncate_input_tokens : option N) (i : nat) (requests : list str)
    (sampling_params : SamplingParams.t)
    (generators : list (engine_request * list Z))
  : SamplingParams.t * list (engine_request * list Z) :=
  match requests with
  | [] => (sampling_params, generators)
  | text :: rest =>
      match _validate_prompt_and_tokenize sampling_params
              truncate_input_tokens text with
      | Ok (sampling_params, (input_ids, _)) =>
          engine_calls request_id truncate_input_tokens (S i) rest
            sampling_params
            (generators ++ [(Member request_id i, input_ids)])
      | Raise _ => (sampling_params, generators)
      end
  end.

(** [for j in range(request_count): await self.engine.abort(...)] *)
Definition abort_all (request_id : str) (request_count : nat)
  : list effect :=
  map (fun j => EngineAbort (Member request_id j)) (seq 0 request_count).

(** [None not in responses] *)
Definition all_set {A} (responses : list (option A)) : bool :=
  forallb (fun r => bool_decide (is_Some r)) responses.

(** The loop at lines 130-142 over the merged stream: each item is the
    index of the generator it comes from, the snapshot, and the clock
    reading of the deadline test. *)
Fixpoint batch_loop (request_id : str) (deadline : option Q)
    (request_count : nat) (responses : list (option RequestOutput.t))
    (merged : list (nat * RequestOutput.t * Q))
  : traced (list (option RequestOutput.t) * bool) :=
  match merged with
  | [] => mret (responses, false)
  | (i, res, now) :: rest =>
      _ ← tell (EngineNext (Member request_id i) res);
      responses ← lift (setitem responses i (Some res));
      if deadline_hit deadline now && all_set responses then
        Traced (abort_all request_id request_count) (Ok (responses, true))
      else batch_loop request_id deadline request_count responses rest
  end.

(** The loop at lines 144-152, from index [i]. *)
Fixpoint assemble_loop (request : BatchedGenerationRequest.t)
    (resp_options : ResponseOptions.t) (sampling_params : SamplingParams.t)
    (max_is_token_limit : list bool) (time_limit_reached : bool)
    (i : nat) (responses : list (option RequestOutput.t))
  : raises (list GenerationResponse.t) :=
  match responses with
  | [] => Ok []
  | res :: rest =>
      res ← (match res with
             | Some res => Ok res
             | None => Raise AttributeError
             end);
      text ← getitem (BatchedGenerationRequest.requests request) i;
      let res := RequestOutput.set_prompt res text in
      output ← getitem (RequestOutput.outputs res) 0;
      flag ← getitem max_is_token_limit i;
      response ←
        _convert_output output resp_options flag time_limit_reached 0 0;
      response ←
        _convert_input_details res resp_options sampling_params response;
      responses ←
        assemble_loop request resp_options sampling_params
          max_is_token_limit time_limit_reached (S i) rest;
      Ok (response :: responses)
  end.

Definition Generate (request_id : str) (request : BatchedGenerationRequest.t)
    (now : Q) (merged : list (nat * RequestOutput.t * Q))
  : traced (list GenerationResponse.t) :=
  let params := BatchedGenerationRequest.params request in
  '(sampling_params, deadline) ←
    lift (_validate_and_convert_params params now);
  let truncate_input_tokens :=
    with_default_None (Parameters.truncate_input_tokens params) in
  let request_count := length (BatchedGenerationRequest.requests request) in
  let '(shared, calls) :=
    engine_calls request_id truncate_input_tokens 0
      (BatchedGenerationRequest.requests request) sampling_params [] in
  '(sampling_params, generators, max_is_token_limit) ←
    Traced (map (fun g => EngineGenerate g.1 shared g.2) calls)
      (prepare_loop request_id truncate_input_tokens 0
         (BatchedGenerationRequest.requests request) sampling_params
         [] (replicate request_count false));
  '(responses, time_limit_reached) ←
    batch_loop request_id deadline request_count
      (replicate request_count None) merged;
  lift (assemble_loop request (Parameters.response params) sampling_params
          max_is_token_limit time_limit_reached 0 responses).

End handlers.

(** ** Tokenize and ModelInfo *)

Module BatchedTokenizeRequest.
(** Each entry of [requests] is a message of which only [text] is read. *)
Record t := mk {
  requests : list str;
  return_tokens : bool
}.
End BatchedTokenizeRequest.

Module TokenizeResponse.
(** [tokens] is a repeated field: built with [tokens=None] it is empty. *)
Record t := mk {
  token_count : nat;
  tokens : list str
}.
End TokenizeResponse.

Inductive ModelKind := DECODER_ONLY | ENCODER_DECODER.

Module ModelInfoResponse.
Record t := mk {
  model_kind : ModelKind;
  max_sequence_length : Z;
  max_new_tokens : Z
}.
End ModelInfoResponse.

Section info_handlers.
Variable self : TextGenerationService.t.

(** The loop of [Tokenize] (lines 505-511): [responses] grows by one
    entry per request. *)
Fixpoint tokenize_loop (return_tokens : bool) (requests : list str)
    (responses : list TokenizeResponse.t) : list TokenizeResponse.t :=
  match requests with
  | [] => responses
  | text :: rest =>
      let token_ids := TextGenerationService.encode_async self text None in
      tokenize_loop return_tokens rest
        (responses
         ++ [TokenizeResponse.mk (length token_ids)
               (if negb return_tokens then []
                else TextGenerationService.convert_ids_to_tokens self
                       token_ids)])
  end.

Definition Tokenize (request : BatchedTokenizeRequest.t)
  : list TokenizeResponse.t :=
  tokenize_loop (BatchedTokenizeRequest.return_tokens request)
    (BatchedTokenizeRequest.requests request) [].

Definition ModelInfo : ModelInfoResponse.t :=
  ModelInfoResponse.mk DECODER_ONLY
    (TextGenerationService.max_model_len self)
    (TextGenerationService.max_max_new_tokens self).

End info_handlers.

(** ** Error reporting of the handlers *)

(** What can reach the wrapper of a handler: an exception of the handler
    itself, or one of another class, known by its class name, that is not
    an [AbortError]. *)
Inductive exception :=
| Handler (e : exn)
| Foreign (type_name : str).

(** [type(e).__name__] *)
Definition type_name (e : exception) : str :=
  match e with
  | Handler (AbortError _) => str_of_string "AbortError"
  | Handler ValueError => str_of_string "ValueError"
  | Handler KeyError => str_of_string "KeyError"
  | Handler IndexError => str_of_string "IndexError"
  | Handler AttributeError => str_of_string "AttributeError"
  | Handler TypeError => str_of_string "TypeError"
  | Foreign type_name => type_name
  end.

(** [isinstance(e, AbortError)] *)
Definition is_AbortError (e : exception) : bool :=
  match e with
  | Handler (AbortError _) => true
  | _ => false
  end.

(** The calls of [logger.exception], by their message. *)
Inductive log_record :=
| LogOOM (func_name : str)
| LogFailed (func_name : str).

(** [_handle_exception]: the records it logs and the exception it ends
    with (it always raises).  The abort for an out-of-memory error raises
    before the second record is written. *)
Definition _handle_exception (e : exception) (func_name : str)
  : list log_record * exception :=
  if negb (is_AbortError e) then
    if decide (type_name e = str_of_string "torch.cuda.OutOfMemoryError")
    then ([LogOOM func_name], Handler (AbortError RESOURCE_EXHAUSTED))
    else ([LogFailed func_name], e)
  else ([], e).

(** A handler under [log_rpc_handler_errors]: what it did, what was
    logged, and how it ended. *)
Record logged (A : Type) := Logged {
  trace : list effect;
  records : list log_record;
  ending : A + exception
}.
Arguments Logged {A} trace records ending.
Arguments trace {A} l.
Arguments records {A} l.
Arguments ending {A} l.

(** [func_with_log], for both kinds of handler: what the handler did
    passes through, a value it returns is returned, and whatever
    exception it ends with, one of its own or a foreign one, goes to
    [_handle_exception]. *)
Definition func_with_log {A} (func_name : str) (es : list effect)
    (handler_ending : A + exception) : logged A :=
  match handler_ending with
  | inl a => Logged es [] (inl a)
  | inr e =>
      let '(records, e) := _handle_exception e func_name in
      Logged es records (inr e)
  end.

(** One of the handlers above under [log_rpc_handler_errors]; by
    themselves they end with exceptions of their own only. *)
Definition log_rpc_handler_errors {A} (func_name : str) (run : traced A)
  : logged A :=
  func_with_log func_name (effects run)
    (match outcome run with
     | Ok a => inl a
     | Raise e => inr (Handler e)
     end).

(** ** Observations on a trace *)

(** The responses handed to the client, in order. *)
Definition yielded (es : list effect) : list GenerationResponse.t :=
  omap (fun e => match e with Yield r => Some r | _ => None end) es.

(** The snapshots taken from the engine, in order. *)
Definition consumed (es : list effect) : list RequestOutput.t :=
  omap (fun e => match e with EngineNext _ s => Some s | _ => None end) es.

(** The request ids [engine.abort] was called with, in order. *)
Definition aborted (es : list effect) : list engine_request :=
  omap (fun e => match e with EngineAbort id => Some id | _ => None end) es.

(** ** What the engine's stream is assumed to look like *)

(** [o2] continues [o1]: text, token ids and per-token logprobs of [o1]
    are an initial part of those of [o2]. *)
Definition extends (o1 o2 : CompletionOutput.t) : Prop :=
  take (length (CompletionOutput.text o1)) (CompletionOutput.text o2)
  = CompletionOutput.text o1
  /\ take (length (CompletionOutput.token_ids o1))
       (CompletionOutput.token_ids o2)
     = CompletionOutput.token_ids o1
  /\ match CompletionOutput.logprobs o1, CompletionOutput.logprobs o2 with
     | None, None => True
     | Some l1, Some l2 => take (length l1) l2 = l1
     | _, _ => False
     end.

(** The snapshots of one stream are cumulative: the first output of each
    continues the first output of the one before ([prev], when there is
    one). *)
Fixpoint cumulative (prev : option CompletionOutput.t)
    (snapshots : list (RequestOutput.t * Q)) : Prop :=
  match snapshots with
  | [] => True
  | (res, _) :: rest =>
      match RequestOutput.outputs res !! 0%nat with
      | Some output =>
          match prev with
          | Some prev => extends prev output
          | None => True
          end
          /\ cumulative (Some output) rest
      | None => True
      end
  end.

(** The latest snapshot of member [j] among the items of a merged
    stream. *)
Definition latest (j : nat) (events : list (nat * RequestOutput.t * Q))
  : option RequestOutput.t :=
  last (omap (fun ev => if decide (ev.1.1 = j) then Some ev.1.2 else None)
          events).

(** ** Concrete inputs for the examples *)

(** A service with a ceiling of 8 new tokens and a context window of 10
    tokens, whose tokenizer makes one token of each code point. *)
Definition ex_service : TextGenerationService.t :=
  TextGenerationService.mk 8 true false 10
    (fun prompt max_length =>
       let ids := map Z.of_N prompt in
       match max_length with
       | Some n => take (N.to_nat n) ids
       | None => ids
       end)
    (fun id => [Z.to_N id]).

Definition ex_verify : SamplingParams.t -> bool := fun _ => true.

Definition ex_options (generated_tokens token_logprobs : bool)
    (top_n_tokens : N) : ResponseOptions.t :=
  ResponseOptions.mk false generated_tokens false token_logprobs false
    top_n_tokens.

(** Greedy decoding with the given stopping criteria and response
    options, every other field unset. *)
Definition ex_params (stopping : StoppingCriteria.t)
    (resp_options : ResponseOptions.t) : Parameters.t :=
  Parameters.mk GREEDY (SamplingParameters.mk 0 0 0 0 None) stopping
    resp_options (DecodingParameters.mk 0 None) 0.

Definition ex_stopping (max_new_tokens min_new_tokens time_limit_millis : N)
    (stop_sequences : list str) : StoppingCriteria.t :=
  StoppingCriteria.mk max_new_tokens min_new_tokens time_limit_millis
    stop_sequences None.

Definition ex_output (text : str) (token_ids : list Z)
    (finish_reason : option str) : CompletionOutput.t :=
  CompletionOutput.mk text token_ids None finish_reason AttrNone.

Definition ex_snapshot (prompt_token_ids : list Z) (text : str)
    (token_ids : list Z) (finish_reason : option str) : RequestOutput.t :=
  RequestOutput.mk None prompt_token_ids None
    [ex_output text token_ids finish_reason].

Definition ex_request_id : str := str_of_string "r".

(** A batch of two prompts, of seven tokens and of one token, with no
    user-given maximum and nothing else requested. *)
Definition ex_batch_7_1 : BatchedGenerationRequest.t :=
  BatchedGenerationRequest.mk [str_of_string "abcdefg"; str_of_string "h"]
    (ex_params (ex_stopping 0 0 0 []) (ex_options false false 0)).

(** The engine's answer to [ex_batch_7_1] once it runs with a maximum of
    three new tokens: each member stops at its third token with finish
    reason "length". *)
Definition ex_merged_7_1 : list (nat * RequestOutput.t * Q) :=
  [(0%nat,
    ex_snapshot [97; 98; 99; 100; 101; 102; 103] (str_of_string "xyz")
      [120; 121; 122] (Some (str_of_string "length")),
    1%Q);
   (1%nat,
    ex_snapshot [104] (str_of_string "xyz") [120; 121; 122]
      (Some (str_of_string "length")),
    1%Q)].

(** A stop sequence of 240 code points and 241 UTF-8 bytes: 239 times
    "a" followed by e-acute (U+00E9, two bytes). *)
Definition ex_stop_241 : str := replicate 239 97%N ++ [233%N].

Definition ex_logprob (logprob : Q) (rank : Z) : Logprob.t :=
  Logprob.mk logprob (Some rank).

(** A logprob dict in which the tokens 7 and 9 tie. *)
Definition ex_dict : LogprobDict :=
  [(7, ex_logprob (-2) 2); (5, ex_logprob (-1) 1); (9, ex_logprob (-2) 3);
   (4, ex_logprob (-3) 4)].

(** A stream for the prompt "hi": three snapshots, each one token longer
    than the one before, taken at the clock readings 1, 2 and 3. *)
Definition ex_stream : list (RequestOutput.t * Q) :=
  [(ex_snapshot [104; 105] (str_of_string "x") [120] None, 1%Q);
   (ex_snapshot [104; 105] (str_of_string "xy") [120; 121] None, 2%Q);
   (ex_snapshot [104; 105] (str_of_string "xyz") [120; 121; 122]
      (Some (str_of_string "length")), 3%Q)].

Definition ex_single (stopping : StoppingCriteria.t)
    (resp_options : ResponseOptions.t) : SingleGenerationRequest.t :=
  SingleGenerationRequest.mk (str_of_string "hi")
    (ex_params stopping resp_options).

(** A stream for the prompt "hi" whose second snapshot is shorter than
    the first: "Hi!" of three tokens, then "Hi" of two. *)
Definition ex_stream_shrinking : list (RequestOutput.t * Q) :=
  [(ex_snapshot [104; 105] (str_of_string "Hi!") [72; 105; 33] None, 1%Q);
   (ex_snapshot [104; 105] (str_of_string "Hi") [72; 105]
      (Some (str_of_string "stop")), 2%Q)].

(** A batch of two prompts with a time limit of 1500 ms and no user-given
    maximum. *)
Definition ex_batch_timed : BatchedGenerationRequest.t :=
  BatchedGenerationRequest.mk [str_of_string "ab"; str_of_string "h"]
    (ex_params (ex_stopping 0 0 1500 []) (ex_options false false 0)).

(** Member 0 finishes by length at clock reading 1; member 1 is still
    running when its first snapshot is tested at clock reading 2. *)
Definition ex_merged_timed : list (nat * RequestOutput.t * Q) :=
  [(0%nat,
    ex_snapshot [97; 98] (str_of_string "xyz") [120; 121; 122]
      (Some (str_of_string "length")),
    1%Q);
   (1%nat, ex_snapshot [104] (str_of_string "x") [120] None, 2%Q)].

(** * Properties *)

(** ** Basic facts about the monads *)

Lemma bind_Ok {A B} (m : raises A) (k : A -> raises B) (b : B) :
  m ≫= k = Ok b -> exists a, m = Ok a /\ k a = Ok b.
Proof. destruct m as [a|e]; simpl; [eauto | discriminate]. Qed.

Lemma check_Ok (b : bool) : check b = Ok () <-> b = true.
Proof. destruct b; simpl; split; congruence. Qed.

Lemma check_raises (b : bool) (e : exn) : check b = Raise e -> e = ValueError.
Proof. destruct b; simpl; congruence. Qed.

(** ** Observations on a trace *)

Lemma consumed_app (es1 es2 : list effect) :
  consumed (es1 ++ es2) = consumed es1 ++ consumed es2.
Proof. apply omap_app. Qed.

Lemma aborted_app (es1 es2 : list effect) :
  aborted (es1 ++ es2) = aborted es1 ++ aborted es2.
Proof. apply omap_app. Qed.

Lemma yielded_app (es1 es2 : list effect) :
  yielded (es1 ++ es2) = yielded es1 ++ yielded es2.
Proof. apply omap_app. Qed.

Lemma consumed_cons (e : effect) (es : list effect) :
  consumed (e :: es)
  = match e with
    | EngineNext _ s => s :: consumed es
    | _ => consumed es
    end.
Proof. destruct e; reflexivity. Qed.

Lemma yielded_cons (e : effect) (es : list effect) :
  yielded (e :: es)
  = match e with
    | Yield r => r :: yielded es
    | _ => yielded es
    end.
Proof. destruct e; reflexivity. Qed.

Lemma aborted_cons (e : effect) (es : list effect) :
  aborted (e :: es)
  = match e with
    | EngineAbort id => id :: aborted es
    | _ => aborted es
    end.
Proof. destruct e; reflexivity. Qed.

Lemma observe_Yield (rs : list GenerationResponse.t) :
  yielded (map Yield rs) = rs
  /\ consumed (map Yield rs) = []
  /\ aborted (map Yield rs) = [].
Proof.
  induction rs as [|r rs (IH1 & IH2 & IH3)]; [auto|].
  cbn. fold (yielded (map Yield rs)). rewrite IH1. auto.
Qed.

Lemma observe_EngineGenerate (sp : SamplingParams.t)
    (gens : list (engine_request * list Z)) :
  aborted (map (fun g => EngineGenerate g.1 sp g.2) gens) = []
  /\ consumed (map (fun g => EngineGenerate g.1 sp g.2) gens) = []
  /\ yielded (map (fun g => EngineGenerate g.1 sp g.2) gens) = [].
Proof.
  induction gens as [|g gens (IH1 & IH2 & IH3)]; [auto|].
  cbn [map]. rewrite aborted_cons, consumed_cons, yielded_cons. auto.
Qed.

Lemma observe_EngineNext (request_id : str)
    (events : list (nat * RequestOutput.t * Q)) :
  aborted
    (map (fun ev => EngineNext (Member request_id ev.1.1) ev.1.2) events)
  = []
  /\ consumed
       (map (fun ev => EngineNext (Member request_id ev.1.1) ev.1.2) events)
     = map (fun ev => ev.1.2) events.
Proof.
  induction events as [|ev events (IH1 & IH2)]; [auto|].
  cbn [map]. rewrite aborted_cons, consumed_cons, IH2. auto.
Qed.

Lemma observe_abort_all (request_id : str) (request_count : nat) :
  aborted (abort_all request_id request_count)
  = map (Member request_id) (seq 0 request_count)
  /\ consumed (abort_all request_id request_count) = [].
Proof.
  unfold abort_all. generalize (seq 0 request_count) as js.
  induction js as [|j js (IH1 & IH2)]; [auto|].
  cbn [map]. rewrite aborted_cons, consumed_cons, IH1. auto.
Qed.

(** ** Validation *)

Section validation_facts.
Variable self : TextGenerationService.t.
Variable SamplingParams_verify : SamplingParams.t -> bool.

Lemma convert_params_raises params now e :
  convert_params self SamplingParams_verify params now = Raise e ->
  e = ValueError.
Proof.
  unfold convert_params.
  repeat match goal with
  | |- context [check ?b] => destruct b; simpl
  | |- context [if ?b then _ else _] => destruct b; simpl
  | |- context [match ?o with Some _ => _ | None => _ end] =>
      destruct o; simpl
  end; congruence.
Qed.

(** Every rejection of the validator is an invalid-argument abort. *)
Lemma validate_raises params now e :
  _validate_and_convert_params self SamplingParams_verify params now
    = Raise e ->
  e = AbortError INVALID_ARGUMENT.
Proof.
  unfold _validate_and_convert_params.
  destruct (convert_params _ _ params now) as [a|e'] eqn:E; [discriminate|].
  apply convert_params_raises in E. subst e'. congruence.
Qed.

Lemma validate_Ok params now r :
  _validate_and_convert_params self SamplingParams_verify params now = Ok r
  <-> convert_params self SamplingParams_verify params now = Ok r.
Proof.
  unfold _validate_and_convert_params.
  destruct (convert_params _ _ params now) as [a|e'] eqn:E; [tauto|].
  apply convert_params_raises in E. subst e'. split; discriminate.
Qed.

(** What an accepted parameter set looks like after conversion. *)
Lemma convert_params_Ok params now sp deadline :
  convert_params self SamplingParams_verify params now = Ok (sp, deadline) ->
  let stopping := Parameters.stopping params in
  let resp_options := Parameters.response params in
  let ceiling := TextGenerationService.max_max_new_tokens self in
  SamplingParams.max_tokens sp
    = (if (0 <? StoppingCriteria.max_new_tokens stopping)%N
       then Some (Z.of_N (StoppingCriteria.max_new_tokens stopping))
       else None)
  /\ ((0 < StoppingCriteria.max_new_tokens stopping)%N ->
      Z.of_N (StoppingCriteria.max_new_tokens stopping) <= ceiling)
  /\ SamplingParams.min_tokens sp
      = Z.max 0 (Z.of_N (StoppingCriteria.min_new_tokens stopping))
  /\ (0 < SamplingParams.min_tokens sp ->
      match SamplingParams.max_tokens sp with
      | Some m => SamplingParams.min_tokens sp <= m
      | None => SamplingParams.min_tokens sp <= ceiling
      end)
  /\ stop_sequences_invalid (StoppingCriteria.stop_sequences stopping) = false
  /\ (ResponseOptions.top_n_tokens resp_options <= MAX_TOP_N_TOKENS)%N
  /\ SamplingParams.logprobs sp
      = with_default_None
          (let base :=
             if ResponseOptions.token_logprobs resp_options
                || ResponseOptions.token_ranks resp_options then 1 else 0 in
           if (ResponseOptions.top_n_tokens resp_options =? 0)%N then base
           else base + Z.of_N (ResponseOptions.top_n_tokens resp_options)
                - (if match Parameters.method params with
                         | GREEDY => true | SAMPLE => false end
                      && ResponseOptions.token_logprobs resp_options
                   then 1 else 0))
  /\ SamplingParams_verify sp = true.
Proof.
  unfold convert_params. intros H.
  apply bind_Ok in H as ([] & _ & H).
  apply bind_Ok in H as (max_new_tokens & Hmax & H).
  apply bind_Ok in H as ([] & Hmin & H).
  apply bind_Ok in H as ([] & Hstop & H).
  apply bind_Ok in H as (logprobs & Hlp & H).
  apply bind_Ok in H as ([] & Hver & H).
  apply check_Ok in Hstop, Hver.
  apply negb_true_iff in Hstop.
  injection H as <- <-. cbn [SamplingParams.max_tokens SamplingParams.min_tokens
    SamplingParams.logprobs].
  assert (Hm : max_new_tokens
    = (if (0 <? StoppingCriteria.max_new_tokens (Parameters.stopping params))%N
       then Some (Z.of_N (StoppingCriteria.max_new_tokens
                            (Parameters.stopping params)))
       else None)
    /\ ((0 < StoppingCriteria.max_new_tokens (Parameters.stopping params))%N ->
        Z.of_N (StoppingCriteria.max_new_tokens (Parameters.stopping params))
        <= TextGenerationService.max_max_new_tokens self)).
  { destruct (0 <? _)%N eqn:E.
    - apply bind_Ok in Hmax as ([] & Hc & Hmax).
      apply check_Ok, negb_true_iff, Z.ltb_ge in Hc.
      split; [congruence | auto].
    - apply N.ltb_ge in E. split; [congruence | lia]. }
  destruct Hm as [Hm Hceil].
  split; [exact Hm|]. split; [exact Hceil|]. split; [reflexivity|].
  split.
  { intros Hpos. apply Z.ltb_lt in Hpos. rewrite Hpos in Hmin.
    destruct max_new_tokens;
      apply check_Ok, negb_true_iff, Z.ltb_ge in Hmin; lia. }
  split; [exact Hstop|].
  assert (Ht : (ResponseOptions.top_n_tokens (Parameters.response params)
                <= MAX_TOP_N_TOKENS)%N
    /\ logprobs
      = (let base :=
           if ResponseOptions.token_logprobs (Parameters.response params)
              || ResponseOptions.token_ranks (Parameters.response params)
           then 1 else 0 in
         if (ResponseOptions.top_n_tokens (Parameters.response params) =? 0)%N
         then base
         else base + Z.of_N (ResponseOptions.top_n_tokens
                               (Parameters.response params))
              - (if match Parameters.method params with
                       | GREEDY => true | SAMPLE => false end
                    && ResponseOptions.token_logprobs
                         (Parameters.response params)
                 then 1 else 0))).
  { unfold truthy, N_truthy in Hlp. cbv zeta.
    destruct (_ =? 0)%N eqn:E; simpl in Hlp.
    - apply N.eqb_eq in E. rewrite E. split; [unfold MAX_TOP_N_TOKENS; lia|].
      congruence.
    - apply bind_Ok in Hlp as ([] & Hc & Hlp).
      apply check_Ok, negb_true_iff, N.ltb_ge in Hc. split; [exact Hc|].
      injection Hlp as <-.
      destruct (_ && _); lia. }
  destruct Ht as [Ht ->]. split; [exact Ht|]. split; [reflexivity|exact Hver].
Qed.

End validation_facts.

(** ** The stop-reason classifier *)

(** C3. The classifier maps: no finish condition to TIME_LIMIT when the
    deadline was just hit and to NOT_FINISHED otherwise; "length" to
    TOKEN_LIMIT when the max-token bound was implicit and to MAX_TOKENS
    otherwise; "stop" to EOS_TOKEN without a matched string when the stop
    indicator is the end-of-sequence sentinel ([None]), to STOP_SEQUENCE
    with the matched string when the indicator is a string, and to
    STOP_SEQUENCE otherwise; "abort" to CANCELLED; any other condition to
    CANCELLED. *)
Theorem convert_reason_table (output : CompletionOutput.t)
    (max_is_token_limit time_limit_reached : bool) :
  let r := _convert_reason output max_is_token_limit time_limit_reached in
  (CompletionOutput.finish_reason output = None ->
   r = (if time_limit_reached then TIME_LIMIT else NOT_FINISHED, None))
  /\ (CompletionOutput.finish_reason output = Some (str_of_string "length") ->
      r = (if max_is_token_limit then TOKEN_LIMIT else MAX_TOKENS, None))
  /\ (CompletionOutput.finish_reason output = Some (str_of_string "stop") ->
      (CompletionOutput.stop_reason output = AttrNone ->
       r = (EOS_TOKEN, None))
      /\ (forall s, CompletionOutput.stop_reason output = AttrStr s ->
          r = (STOP_SEQUENCE, Some s))
      /\ (CompletionOutput.stop_reason output <> AttrNone ->
          r.1 = STOP_SEQUENCE)
      /\ ((forall s, CompletionOutput.stop_reason output <> AttrStr s) ->
          r.2 = None))
  /\ (CompletionOutput.finish_reason output = Some (str_of_string "abort") ->
      r = (CANCELLED, None))
  /\ (forall other,
        CompletionOutput.finish_reason output = Some other ->
        other <> str_of_string "length" ->
        other <> str_of_string "stop" ->
        other <> str_of_string "abort" ->
        r = (CANCELLED, None)).
Proof.
  assert (Hsl : str_of_string "stop" <> str_of_string "length")
    by (vm_compute; congruence).
  assert (Hal : str_of_string "abort" <> str_of_string "length")
    by (vm_compute; congruence).
  assert (Has : str_of_string "abort" <> str_of_string "stop")
    by (vm_compute; congruence).
  unfold _convert_reason. cbv zeta.
  split; [|split; [|split; [|split]]].
  - intros ->. reflexivity.
  - intros ->. case_decide; [reflexivity | congruence].
  - intros ->. repeat (case_decide; try congruence).
    destruct (CompletionOutput.stop_reason output) as [| |s|t];
      (split; [|split; [|split]]); intros; try congruence.
    all: try reflexivity.
    match goal with H : forall _, _ <> _ |- _ => destruct (H _ eq_refl) end.
  - intros ->. repeat (case_decide; try congruence).
  - intros other -> H1 H2 H3.
    repeat (case_decide; [congruence|]). reflexivity.
Qed.

Lemma convert_reason_table_witness :
  _convert_reason (ex_output [] [] None) false true = (TIME_LIMIT, None)
  /\ _convert_reason (ex_output [] [] (Some (str_of_string "length")))
       true false = (TOKEN_LIMIT, None)
  /\ _convert_reason (ex_output [] [] (Some (str_of_string "stop")))
       false false = (EOS_TOKEN, None)
  /\ _convert_reason (ex_output [] [] (Some (str_of_string "abort")))
       false false = (CANCELLED, None)
  /\ _convert_reason (ex_output [] [] (Some (str_of_string "error")))
       false false = (CANCELLED, None).
Proof.
  split; [|split; [|split; [|split]]].
  - apply (convert_reason_table (ex_output [] [] None) false true).
    reflexivity.
  - apply (convert_reason_table
             (ex_output [] [] (Some (str_of_string "length"))) true false).
    reflexivity.
  - apply (convert_reason_table
             (ex_output [] [] (Some (str_of_string "stop"))) false false);
      reflexivity.
  - apply (convert_reason_table
             (ex_output [] [] (Some (str_of_string "abort"))) false false).
    reflexivity.
  - apply (convert_reason_table
             (ex_output [] [] (Some (str_of_string "error"))) false false
             ) with (other := str_of_string "error");
      [reflexivity | vm_compute; congruence ..].
Defined.

(** ** Logprob count and top-N cap *)

(** The checks that let a request through: nothing but these makes the
    body of the validator raise. *)
Lemma convert_params_accepts (self : TextGenerationService.t)
    (SamplingParams_verify : SamplingParams.t -> bool)
    (params : Parameters.t) (now : Q) :
  let stopping := Parameters.stopping params in
  let ceiling := TextGenerationService.max_max_new_tokens self in
  let max_new_tokens := Z.of_N (StoppingCriteria.max_new_tokens stopping) in
  let min_new_tokens := Z.of_N (StoppingCriteria.min_new_tokens stopping) in
  DecodingParameters.length_penalty (Parameters.decoding params) = None ->
  (0 < max_new_tokens -> max_new_tokens <= ceiling) ->
  (0 < min_new_tokens ->
   if 0 <? max_new_tokens then min_new_tokens <= max_new_tokens
   else min_new_tokens <= ceiling) ->
  stop_sequences_invalid (StoppingCriteria.stop_sequences stopping) = false ->
  (ResponseOptions.top_n_tokens (Parameters.response params)
   <= MAX_TOP_N_TOKENS)%N ->
  (forall sp, SamplingParams_verify sp = true) ->
  exists sp deadline,
    convert_params self SamplingParams_verify params now = Ok (sp, deadline).
Proof.
  intros stopping ceiling max_new_tokens min_new_tokens Hlp Hmax Hmin Hstop
    Htop Hver.
  unfold convert_params. fold stopping. rewrite Hlp, Hstop.
  rewrite bool_decide_eq_false_2 by (intros [? ?]; discriminate).
  rewrite (Z.max_r 0 (Z.of_N _)) by lia. fold min_new_tokens ceiling.
  assert ((MAX_TOP_N_TOKENS
           <? ResponseOptions.top_n_tokens (Parameters.response params))%N
          = false) as Etop by (apply N.ltb_ge; lia).
  rewrite Etop.
  cbn [mbind result_bind check negb].
  destruct (0 <? StoppingCriteria.max_new_tokens stopping)%N eqn:E0.
  - fold max_new_tokens.
    assert ((ceiling <? max_new_tokens) = false) as ->.
    { apply Z.ltb_ge, Hmax. apply N.ltb_lt in E0.
      unfold max_new_tokens. lia. }
    cbn [mbind result_bind check negb].
    destruct (0 <? min_new_tokens) eqn:E1.
    + apply Z.ltb_lt in E1. specialize (Hmin E1).
      apply N.ltb_lt in E0.
      assert ((0 <? max_new_tokens) = true) as E2
        by (apply Z.ltb_lt; unfold max_new_tokens; lia).
      rewrite E2 in Hmin.
      assert ((max_new_tokens <? min_new_tokens) = false) as ->
        by (apply Z.ltb_ge; lia).
      cbn [mbind result_bind check negb].
      destruct (truthy _); cbn [mbind result_bind check negb];
        rewrite Hver; cbn [mbind result_bind check]; eauto.
    + cbn [mbind result_bind check negb].
      destruct (truthy _); cbn [mbind result_bind check negb];
        rewrite Hver; cbn [mbind result_bind check]; eauto.
  - cbn [mbind result_bind check negb].
    destruct (0 <? min_new_tokens) eqn:E1.
    + apply Z.ltb_lt in E1. specialize (Hmin E1).
      apply N.ltb_ge in E0.
      assert ((0 <? max_new_tokens) = false) as E2
        by (apply Z.ltb_ge; unfold max_new_tokens; lia).
      rewrite E2 in Hmin.
      assert ((ceiling <? min_new_tokens) = false) as ->
        by (apply Z.ltb_ge; lia).
      cbn [mbind result_bind check negb].
      destruct (truthy _); cbn [mbind result_bind check negb];
        rewrite Hver; cbn [mbind result_bind check]; eauto.
    + cbn [mbind result_bind check negb].
      destruct (truthy _); cbn [mbind result_bind check negb];
        rewrite Hver; cbn [mbind result_bind check]; eauto.
Qed.

(** C7. The converted logprob count is 1 if per-token logprobs or ranks
    are requested and 0 otherwise, plus the top-N count when top-N
    alternatives are requested, minus 1 when decoding is greedy and
    per-token logprobs were requested; a count of 0 is handed to the
    engine as [None].  A top-N count above 10 rejects the request with
    invalid-argument; a request that passes the other checks of the
    validator and asks for at most 10 alternatives is accepted, with that
    count. *)
Theorem logprobs_count (self : TextGenerationService.t)
    (SamplingParams_verify : SamplingParams.t -> bool)
    (params : Parameters.t) (now : Q) :
  let resp_options := Parameters.response params in
  let stopping := Parameters.stopping params in
  let ceiling := TextGenerationService.max_max_new_tokens self in
  let max_new_tokens := Z.of_N (StoppingCriteria.max_new_tokens stopping) in
  let min_new_tokens := Z.of_N (StoppingCriteria.min_new_tokens stopping) in
  let greedy :=
    match Parameters.method params with GREEDY => true | SAMPLE => false end in
  let top_n := ResponseOptions.top_n_tokens resp_options in
  let base :=
    if ResponseOptions.token_logprobs resp_options
       || ResponseOptions.token_ranks resp_options then 1 else 0 in
  let count :=
    if (top_n =? 0)%N then base
    else base + Z.of_N top_n
         - (if greedy && ResponseOptions.token_logprobs resp_options
            then 1 else 0) in
  ((MAX_TOP_N_TOKENS < top_n)%N ->
   _validate_and_convert_params self SamplingParams_verify params now
   = Raise (AbortError INVALID_ARGUMENT))
  /\ (forall sp deadline,
        _validate_and_convert_params self SamplingParams_verify params now
        = Ok (sp, deadline) ->
        SamplingParams.logprobs sp
        = (if count =? 0 then None else Some count))
  /\ ((top_n <= MAX_TOP_N_TOKENS)%N ->
      DecodingParameters.length_penalty (Parameters.decoding params) = None ->
      (0 < max_new_tokens -> max_new_tokens <= ceiling) ->
      (0 < min_new_tokens ->
       if 0 <? max_new_tokens then min_new_tokens <= max_new_tokens
       else min_new_tokens <= ceiling) ->
      stop_sequences_invalid (StoppingCriteria.stop_sequences stopping)
      = false ->
      (forall sp, SamplingParams_verify sp = true) ->
      exists sp deadline,
        _validate_and_convert_params self SamplingParams_verify params now
        = Ok (sp, deadline)
        /\ SamplingParams.logprobs sp
           = (if count =? 0 then None else Some count)).
Proof.
  intros resp_options stopping ceiling max_new_tokens min_new_tokens greedy
    top_n base count.
  assert (forall sp deadline,
            _validate_and_convert_params self SamplingParams_verify params
              now = Ok (sp, deadline) ->
            SamplingParams.logprobs sp
            = (if count =? 0 then None else Some count)) as Hcount.
  { intros sp deadline E.
    apply validate_Ok, convert_params_Ok in E.
    destruct E as (_ & _ & _ & _ & _ & _ & Hlp & _).
    rewrite Hlp. unfold with_default_None, truthy, Z_truthy.
    subst count base top_n greedy resp_options.
    destruct (_ =? 0); reflexivity. }
  split; [|split].
  - intros Hn.
    destruct (_validate_and_convert_params _ _ params now) as [[sp dl]|e]
      eqn:E.
    + apply validate_Ok, convert_params_Ok in E.
      destruct E as (_ & _ & _ & _ & _ & Hle & _).
      unfold top_n, resp_options in Hn. lia.
    + apply validate_raises in E. congruence.
  - exact Hcount.
  - intros Htop Hlp Hmax Hmin Hstop Hver.
    destruct (convert_params_accepts self SamplingParams_verify params now
                Hlp Hmax Hmin Hstop Htop Hver) as (sp & dl & E).
    apply validate_Ok in E. exists sp, dl. split; [exact E|].
    by apply (Hcount sp dl).
Qed.

Lemma logprobs_count_witness :
  _validate_and_convert_params ex_service ex_verify
    (ex_params (ex_stopping 0 0 0 []) (ex_options true true 11)) 0
  = Raise (AbortError INVALID_ARGUMENT)
  /\ exists sp deadline,
       _validate_and_convert_params ex_service ex_verify
         (ex_params (ex_stopping 5 2 0 [str_of_string "stop"])
            (ex_options true true 3)) 0
       = Ok (sp, deadline)
       /\ SamplingParams.logprobs sp = Some 3.
Proof.
  split.
  - apply (logprobs_count ex_service ex_verify
             (ex_params (ex_stopping 0 0 0 []) (ex_options true true 11)) 0).
    vm_compute. reflexivity.
  - apply (logprobs_count ex_service ex_verify
             (ex_params (ex_stopping 5 2 0 [str_of_string "stop"])
                (ex_options true true 3)) 0).
    + vm_compute. discriminate.
    + reflexivity.
    + intros _. vm_compute. discriminate.
    + intros _. vm_compute. discriminate.
    + reflexivity.
    + reflexivity.
Defined.

(** ** Stop sequences *)

(** The stop-sequence test rejects exactly the lists with more than 6
    entries or with an entry whose number of code points is 0 or above
    240. *)
Lemma stop_sequences_invalid_false (l : list str) :
  stop_sequences_invalid l = false
  <-> (length l <= MAX_STOP_SEQS)%nat
      /\ Forall (fun ss => (1 <= length ss <= MAX_STOP_SEQ_LENGTH)%nat) l.
Proof.
  unfold stop_sequences_invalid.
  rewrite orb_false_iff, negb_false_iff, forallb_forall, Forall_forall.
  split.
  - intros [H1 H2]. split.
    + destruct l; [simpl; unfold MAX_STOP_SEQS; lia|].
      simpl in H1. apply Nat.ltb_ge in H1. exact H1.
    + intros ss Hin. apply list_elem_of_In, H2 in Hin.
      apply andb_true_iff in Hin as [Ha Hb].
      apply Nat.ltb_lt in Ha. apply Nat.leb_le in Hb. lia.
  - intros [H1 H2]. split.
    + destruct l; [reflexivity|]. simpl. apply Nat.ltb_ge. exact H1.
    + intros ss Hin. apply list_elem_of_In, H2 in Hin.
      apply andb_true_iff. split; [apply Nat.ltb_lt | apply Nat.leb_le]; lia.
Qed.

(** C6, at the input where the code departs from it.  The stop sequence
    [ex_stop_241] is 241 bytes long in UTF-8, yet the validator accepts
    the list that holds it and passes it on to the engine: the test at
    line 303 measures [len(ss)], the number of code points (240 here),
    where the message it raises speaks of UTF8 bytes. *)
Theorem stop_sequence_241_bytes_accepted :
  utf8_len ex_stop_241 = 241%nat
  /\ length ex_stop_241 = 240%nat
  /\ stop_sequences_invalid [ex_stop_241] = false
  /\ match _validate_and_convert_params ex_service ex_verify
             (ex_params (ex_stopping 0 0 0 [ex_stop_241])
                (ex_options false false 0)) 0 with
     | Ok (sp, _) => SamplingParams.stop sp = Some [ex_stop_241]
     | Raise _ => False
     end.
Proof. vm_compute. repeat split; reflexivity. Qed.

(** ** The token detail converter *)

Lemma insert_desc_filter (q : Q) (x : Z * Logprob.t) (l : LogprobDict) :
  List.filter (fun y => Qeq_bool (Logprob.logprob y.2) q) (insert_desc x l)
  = List.filter (fun y => Qeq_bool (Logprob.logprob y.2) q) (x :: l).
Proof.
  induction l as [|y ys IH]; [reflexivity|].
  cbn [insert_desc]. destruct (Qlt_bool _ _) eqn:E; [|reflexivity].
  cbn [List.filter] in *. rewrite IH.
  destruct (Qeq_bool (Logprob.logprob x.2) q) eqn:Ex;
    destruct (Qeq_bool (Logprob.logprob y.2) q) eqn:Ey; try reflexivity.
  exfalso. apply Qeq_bool_iff in Ex, Ey.
  unfold Qlt_bool in E. apply negb_true_iff in E.
  assert (Hle : (Logprob.logprob y.2 <= Logprob.logprob x.2)%Q)
    by (rewrite Ex, Ey; apply Qle_refl).
  apply Qle_bool_iff in Hle. congruence.
Qed.

(** Items of equal logprob keep the order they have in the dict. *)
Lemma sorted_reverse_stable (q : Q) (d : LogprobDict) :
  List.filter (fun y => Qeq_bool (Logprob.logprob y.2) q) (sorted_reverse d)
  = List.filter (fun y => Qeq_bool (Logprob.logprob y.2) q) d.
Proof.
  induction d as [|x d IH]; [reflexivity|].
  change (sorted_reverse (x :: d)) with (insert_desc x (sorted_reverse d)).
  rewrite insert_desc_filter. cbn [List.filter]. rewrite IH. reflexivity.
Qed.

Lemma insert_desc_Permutation (x : Z * Logprob.t) (l : LogprobDict) :
  insert_desc x l ≡ₚ x :: l.
Proof.
  induction l as [|y ys IH]; [reflexivity|].
  cbn [insert_desc]. destruct (Qlt_bool _ _); [|reflexivity].
  rewrite IH. apply Permutation_swap.
Qed.

Lemma sorted_reverse_Permutation (d : LogprobDict) : sorted_reverse d ≡ₚ d.
Proof.
  induction d as [|x d IH]; [reflexivity|].
  change (sorted_reverse (x :: d)) with (insert_desc x (sorted_reverse d)).
  rewrite insert_desc_Permutation, IH. reflexivity.
Qed.

Lemma insert_desc_sorted (x : Z * Logprob.t) (l : LogprobDict) :
  StronglySorted
    (fun a b => (Logprob.logprob b.2 <= Logprob.logprob a.2)%Q) l ->
  StronglySorted
    (fun a b => (Logprob.logprob b.2 <= Logprob.logprob a.2)%Q)
    (insert_desc x l).
Proof.
  induction 1 as [|y ys Hs IH Hy]; cbn [insert_desc].
  - repeat constructor.
  - destruct (Qlt_bool _ _) eqn:E.
    + constructor; [exact IH|].
      rewrite insert_desc_Permutation. constructor; [|exact Hy].
      unfold Qlt_bool in E. apply negb_true_iff in E.
      destruct (Qlt_le_dec (Logprob.logprob x.2) (Logprob.logprob y.2))
        as [Hlt|Hle]; [apply Qlt_le_weak, Hlt|].
      apply Qle_bool_iff in Hle. congruence.
    + assert (Hle : (Logprob.logprob y.2 <= Logprob.logprob x.2)%Q).
      { unfold Qlt_bool in E. apply negb_false_iff in E.
        apply Qle_bool_iff, E. }
      constructor; [constructor; assumption|].
      constructor; [exact Hle|].
      eapply Forall_impl; [exact Hy|].
      intros z Hz. cbn beta in *. eapply Qle_trans; eassumption.
Qed.

Lemma sorted_reverse_sorted (d : LogprobDict) :
  StronglySorted
    (fun a b => (Logprob.logprob b.2 <= Logprob.logprob a.2)%Q)
    (sorted_reverse d).
Proof.
  induction d as [|x d IH]; [constructor|].
  change (sorted_reverse (x :: d)) with (insert_desc x (sorted_reverse d)).
  apply insert_desc_sorted, IH.
Qed.

Lemma StronglySorted_take {A} (R : A -> A -> Prop) (n : nat) (l : list A) :
  StronglySorted R l -> StronglySorted R (take n l).
Proof.
  intros H. revert n.
  induction H as [|x l Hs IH Hx]; intros [|n]; cbn; try constructor.
  - apply IH.
  - apply Forall_take, Hx.
Qed.

Section convert_tokens_facts.
Variable self : TextGenerationService.t.

Lemma top_tokens_of_map (incl : bool) (n : N) (d : LogprobDict) :
  top_tokens_of self incl n d
  = map (fun item =>
           TopToken.mk (TextGenerationService.id_to_token self item.1)
             (if incl then Some (Logprob.logprob item.2) else None))
        (take (N.to_nat n) (sorted_reverse d)).
Proof.
  unfold top_tokens_of, TextGenerationService.convert_ids_to_tokens.
  generalize (take (N.to_nat n) (sorted_reverse d)) as items.
  induction items as [|item items IH]; [reflexivity|].
  cbn. f_equal. exact IH.
Qed.

(** What one pass of the loop body leaves in the detail it builds. *)
Lemma token_info_at_Ok (token_ids : list Z)
    (ll : option (list (option LogprobDict))) (incl ranks : bool) (n : N)
    (i : nat) (text : str) (ti : TokenInfo.t) :
  token_info_at self token_ids ll incl ranks n i text = Ok ti ->
  TokenInfo.text ti = text
  /\ TokenInfo.top_tokens ti
     = match ll ≫= (fun l => l !! i) with
       | Some (Some d) => if truthy n then top_tokens_of self incl n d else []
       | _ => []
       end.
Proof.
  unfold token_info_at. destruct ll as [l|]; cbn.
  2: { intros [= <-]. split; reflexivity. }
  unfold getitem. destruct (l !! i) as [[d|]|]; cbn.
  3: discriminate.
  2: { intros [= <-]. split; reflexivity. }
  intros H. apply bind_Ok in H as (ti0 & H0 & H).
  assert (TokenInfo.text ti0 = text /\ TokenInfo.top_tokens ti0 = [])
    as [Ht Htop].
  { destruct (incl || ranks).
    - apply bind_Ok in H0 as (tid & _ & H0).
      apply bind_Ok in H0 as (lp & _ & H0).
      apply bind_Ok in H0 as (rk & _ & H0).
      injection H0 as <-. split; reflexivity.
    - injection H0 as <-. split; reflexivity. }
  destruct (truthy n); injection H as <-; cbn; auto.
Qed.

Lemma tokens_loop_Ok (token_ids : list Z)
    (ll : option (list (option LogprobDict))) (incl ranks : bool) (n : N)
    (token_texts : list str) :
  forall (i : nat) (out : list TokenInfo.t),
  tokens_loop self token_ids ll incl ranks n i token_texts = Ok out ->
  length out = length token_texts
  /\ forall k ti, out !! k = Some ti ->
       exists text, token_texts !! k = Some text
         /\ token_info_at self token_ids ll incl ranks n (i + k) text = Ok ti.
Proof.
  induction token_texts as [|text rest IH]; intros i out H; cbn in H.
  - injection H as <-. split; [reflexivity|]. intros k ti Hk.
    rewrite lookup_nil in Hk. discriminate.
  - apply bind_Ok in H as (ti0 & H0 & H).
    apply bind_Ok in H as (tis & Hrest & H). injection H as <-.
    apply IH in Hrest as [Hlen Hat]. split; [cbn; congruence|].
    intros [|k] ti Hk; cbn in Hk.
    + injection Hk as <-. exists text. rewrite Nat.add_0_r. auto.
    + apply Hat in Hk as (text' & Hk & Hti). exists text'.
      replace (i + S k)%nat with (S i + k)%nat by lia. auto.
Qed.

(** The details [_convert_tokens] appends: one per token from the offset
    on, each built by the loop body at its position in the sliced lists. *)
Lemma convert_tokens_Ok (token_ids : list Z)
    (ll : option (list (option LogprobDict))) (incl ranks : bool) (n : N)
    (infos : list TokenInfo.t) (off : nat) (out : list TokenInfo.t) :
  _convert_tokens self token_ids ll incl ranks n infos off = Ok out ->
  exists new,
    out = infos ++ new
    /\ tokens_loop self (drop off token_ids) (drop off <$> ll) incl ranks n 0
         (TextGenerationService.convert_ids_to_tokens self
            (drop off token_ids)) = Ok new.
Proof.
  unfold _convert_tokens.
  assert ((if truthy off
           then (drop off token_ids, drop off <$> ll)
           else (token_ids, ll))
          = (drop off token_ids, drop off <$> ll)) as ->.
  { destruct off; [|reflexivity]. cbn. destruct ll; reflexivity. }
  intros H. apply bind_Ok in H as (new & Hnew & H). injection H as <-.
  eauto.
Qed.

Lemma convert_tokens_top_tokens (token_ids : list Z)
    (ll : option (list (option LogprobDict))) (incl ranks : bool) (n : N)
    (infos : list TokenInfo.t) (off : nat) (out : list TokenInfo.t)
    (k : nat) (ti : TokenInfo.t) :
  _convert_tokens self token_ids ll incl ranks n infos off = Ok out ->
  out !! (length infos + k)%nat = Some ti ->
  TokenInfo.top_tokens ti
  = match ll ≫= (fun l => l !! (off + k)%nat) with
    | Some (Some d) => if truthy n then top_tokens_of self incl n d else []
    | _ => []
    end.
Proof.
  intros H Hk. apply convert_tokens_Ok in H as (new & -> & H).
  rewrite lookup_app_r, Nat.add_comm, Nat.add_sub in Hk by lia.
  apply tokens_loop_Ok in H as [_ H].
  apply H in Hk as (text & _ & Hti).
  apply token_info_at_Ok in Hti as [_ ->].
  destruct ll as [l|]; cbn; [|reflexivity].
  rewrite lookup_drop. reflexivity.
Qed.

End convert_tokens_facts.

(** C10. The alternatives of a converted position carry a logprob
    exactly when per-token logprobs were requested: with the flag off each
    alternative's logprob is absent, with the flag on each has one.  The
    alternatives themselves do not depend on the flag.  At a position
    that has a logprob dict, with top-N alternatives requested, they are
    produced either way: their texts are the texts of the first N tokens
    of the dict arranged by descending logprob, as many as there are (N
    at most), and converting with the flag flipped gives, position by
    position, the same texts in the same order. *)
Theorem top_token_logprob_only_when_requested
    (self : TextGenerationService.t) (token_ids : list Z)
    (ll : option (list (option LogprobDict))) (incl ranks : bool) (n : N)
    (infos : list TokenInfo.t) (off : nat) (out : list TokenInfo.t) :
  _convert_tokens self token_ids ll incl ranks n infos off = Ok out ->
  (forall k ti tt,
     out !! (length infos + k)%nat = Some ti ->
     tt ∈ TokenInfo.top_tokens ti ->
     (TopToken.logprob tt = None <-> incl = false))
  /\ (forall out',
        _convert_tokens self token_ids ll (negb incl) ranks n infos off
        = Ok out' ->
        map (fun ti => map TopToken.text (TokenInfo.top_tokens ti)) out'
        = map (fun ti => map TopToken.text (TokenInfo.top_tokens ti)) out)
  /\ (forall k ti l (d : LogprobDict),
        ll = Some l ->
        (0 < n)%N ->
        out !! (length infos + k)%nat = Some ti ->
        l !! (off + k)%nat = Some (Some d) ->
        let items := take (N.to_nat n) (sorted_reverse d) in
        map TopToken.text (TokenInfo.top_tokens ti)
        = map (fun item => TextGenerationService.id_to_token self item.1)
            items
        /\ map TopToken.logprob (TokenInfo.top_tokens ti)
           = map (fun item =>
                    if incl then Some (Logprob.logprob item.2) else None)
               items
        /\ length (TokenInfo.top_tokens ti)
           = (N.to_nat n `min` length d)%nat).
Proof.
  intros H. split; [|split].
  - intros k ti tt Hk Hin.
    rewrite (convert_tokens_top_tokens _ _ _ _ _ _ _ _ _ _ _ H Hk) in Hin.
    destruct (ll ≫= _) as [[d|]|]; try (apply elem_of_nil in Hin; tauto).
    destruct (truthy n); [|apply elem_of_nil in Hin; tauto].
    rewrite top_tokens_of_map in Hin.
    apply list_elem_of_fmap in Hin as (item & -> & _).
    destruct incl; cbn; split; congruence.
  - intros out' H'.
    pose proof (convert_tokens_Ok _ _ _ _ _ _ _ _ _ H) as (new & E & L).
    pose proof (convert_tokens_Ok _ _ _ _ _ _ _ _ _ H') as (new' & E' & L').
    apply tokens_loop_Ok in L as [Hlen _], L' as [Hlen' _].
    apply list_eq. intros j. rewrite !list_lookup_fmap.
    destruct (decide (j < length infos)%nat) as [Hj|Hj].
    { subst out out'. rewrite !lookup_app_l by lia. reflexivity. }
    replace j with (length infos + (j - length infos))%nat by lia.
    destruct (out !! _) as [ti|] eqn:Hk; destruct (out' !! _) as [ti'|] eqn:Hk';
      cbn.
    + rewrite (convert_tokens_top_tokens _ _ _ _ _ _ _ _ _ _ _ H Hk).
      rewrite (convert_tokens_top_tokens _ _ _ _ _ _ _ _ _ _ _ H' Hk').
      destruct (ll ≫= _) as [[d|]|]; try reflexivity.
      destruct (truthy n); [|reflexivity].
      rewrite !top_tokens_of_map, <- !list_fmap_compose. reflexivity.
    + apply lookup_lt_Some in Hk. apply lookup_ge_None in Hk'.
      subst out out'. rewrite !length_app in *. lia.
    + apply lookup_lt_Some in Hk'. apply lookup_ge_None in Hk.
      subst out out'. rewrite !length_app in *. lia.
    + reflexivity.
  - intros k ti l d -> Hn Hk Hd. cbv zeta.
    rewrite (convert_tokens_top_tokens _ _ _ _ _ _ _ _ _ _ _ H Hk).
    cbn [mbind option_bind]. rewrite Hd.
    assert (truthy n = true) as ->.
    { unfold truthy, N_truthy. apply negb_true_iff, N.eqb_neq. lia. }
    rewrite top_tokens_of_map, <- !list_fmap_compose, length_map,
      length_take.
    rewrite (Permutation_length (sorted_reverse_Permutation d)).
    auto.
Qed.

Lemma top_token_logprob_only_when_requested_witness :
  exists out ti,
    _convert_tokens ex_service [5] (Some [Some ex_dict]) false false 2 [] 0
    = Ok out
    /\ out !! 0%nat = Some ti
    /\ map TopToken.text (TokenInfo.top_tokens ti) = [[5%N]; [7%N]]
    /\ map TopToken.logprob (TokenInfo.top_tokens ti) = [None; None]
    /\ length (TokenInfo.top_tokens ti) = 2%nat.
Proof.
  eexists _, _. split; [vm_compute; reflexivity|].
  split; [reflexivity|].
  destruct (top_token_logprob_only_when_requested ex_service [5]
              (Some [Some ex_dict]) false false 2 [] 0 _
              ltac:(vm_compute; reflexivity)) as (_ & _ & H).
  apply (H 0%nat _ [Some ex_dict] ex_dict eq_refl);
    [reflexivity | reflexivity | reflexivity].
Defined.

(** C8. At a position converted with top-N alternatives requested, under
    validated parameters, the alternatives are the first N entries of the
    position's logprob dict arranged by descending logprob: the
    arrangement is descending, it permutes the dict, entries of equal
    logprob keep the dict's insertion order, and the number of
    alternatives exceeds neither N nor 10. *)
Theorem top_tokens_sorted_and_capped
    (self : TextGenerationService.t)
    (SamplingParams_verify : SamplingParams.t -> bool)
    (params : Parameters.t) (now : Q)
    (sp : SamplingParams.t) (deadline : option Q)
    (token_ids : list Z) (l : list (option LogprobDict))
    (infos : list TokenInfo.t) (off : nat) (out : list TokenInfo.t)
    (k : nat) (ti : TokenInfo.t) (d : LogprobDict) :
  let resp_options := Parameters.response params in
  let top_n := ResponseOptions.top_n_tokens resp_options in
  _validate_and_convert_params self SamplingParams_verify params now
  = Ok (sp, deadline) ->
  (0 < top_n)%N ->
  _convert_tokens self token_ids (Some l)
    (ResponseOptions.token_logprobs resp_options)
    (ResponseOptions.token_ranks resp_options) top_n infos off = Ok out ->
  out !! (length infos + k)%nat = Some ti ->
  l !! (off + k)%nat = Some (Some d) ->
  TokenInfo.top_tokens ti
  = map (fun item =>
           TopToken.mk (TextGenerationService.id_to_token self item.1)
             (if ResponseOptions.token_logprobs resp_options
              then Some (Logprob.logprob item.2) else None))
        (take (N.to_nat top_n) (sorted_reverse d))
  /\ StronglySorted
       (fun a b => (Logprob.logprob b.2 <= Logprob.logprob a.2)%Q)
       (take (N.to_nat top_n) (sorted_reverse d))
  /\ sorted_reverse d ≡ₚ d
  /\ (forall q,
        List.filter (fun y => Qeq_bool (Logprob.logprob y.2) q)
          (sorted_reverse d)
        = List.filter (fun y => Qeq_bool (Logprob.logprob y.2) q) d)
  /\ (length (TokenInfo.top_tokens ti) <= N.to_nat top_n)%nat
  /\ (length (TokenInfo.top_tokens ti) <= 10)%nat.
Proof.
  intros resp_options top_n Hv Hn H Hk Hd.
  apply validate_Ok, convert_params_Ok in Hv.
  destruct Hv as (_ & _ & _ & _ & _ & Hcap & _).
  fold resp_options top_n in Hcap. unfold MAX_TOP_N_TOKENS in Hcap.
  pose proof (convert_tokens_top_tokens _ _ _ _ _ _ _ _ _ _ _ H Hk) as Htop.
  cbn in Htop. rewrite Hd in Htop.
  assert (truthy top_n = true) as Ht.
  { unfold truthy, N_truthy. apply negb_true_iff, N.eqb_neq. lia. }
  rewrite Ht, top_tokens_of_map in Htop.
  assert (length (TokenInfo.top_tokens ti) <= N.to_nat top_n)%nat as Hlen.
  { rewrite Htop, length_map, length_take. lia. }
  split; [exact Htop|].
  split; [apply StronglySorted_take, sorted_reverse_sorted|].
  split; [apply sorted_reverse_Permutation|].
  split; [intros q; apply sorted_reverse_stable|].
  split; [exact Hlen | lia].
Qed.

Lemma top_tokens_sorted_and_capped_witness :
  exists ti,
    TokenInfo.top_tokens ti
    = [TopToken.mk [5%N] (Some (-1)%Q); TopToken.mk [7%N] (Some (-2)%Q);
       TopToken.mk [9%N] (Some (-2)%Q)]
    /\ (length (TokenInfo.top_tokens ti) <= 3)%nat.
Proof.
  eexists.
  pose proof (top_tokens_sorted_and_capped ex_service ex_verify
    (ex_params (ex_stopping 0 0 0 []) (ex_options true true 3)) 0
    _ _ [5] [Some ex_dict] [] 0 _ 0 _ ex_dict
    ltac:(vm_compute; reflexivity) ltac:(vm_compute; reflexivity)
    ltac:(vm_compute; reflexivity) ltac:(vm_compute; reflexivity)
    ltac:(vm_compute; reflexivity)) as (Htop & _ & _ & _ & Hlen & _).
  split; [exact Htop | exact Hlen].
Defined.

(** ** Prompt preparation *)

Section preparation_facts.
Variable self : TextGenerationService.t.
Variable SamplingParams_verify : SamplingParams.t -> bool.

(** Preparation rejects with invalid-argument only. *)
Lemma prepare_raises sp truncate prompt e :
  _validate_prompt_and_tokenize self sp truncate prompt = Raise e ->
  e = AbortError INVALID_ARGUMENT.
Proof.
  unfold _validate_prompt_and_tokenize.
  repeat match goal with
  | |- context [if ?b then _ else _] => destruct b; cbn
  | |- context [match ?o with Some _ => _ | None => _ end] => destruct o; cbn
  end; congruence.
Qed.

(** What an accepted prompt leaves behind: the tokens, the window tests,
    and the maximum and flag of lines 484-494. *)
Lemma prepare_Ok sp truncate prompt sp' input_ids flag :
  _validate_prompt_and_tokenize self sp truncate prompt
  = Ok (sp', (input_ids, flag)) ->
  let window := TextGenerationService.max_model_len self in
  let token_num := Z.of_nat (length input_ids) in
  input_ids = TextGenerationService.encode_async self prompt truncate
  /\ token_num < window
  /\ token_num + SamplingParams.min_tokens sp <= window
  /\ SamplingParams.min_tokens sp' = SamplingParams.min_tokens sp
  /\ match SamplingParams.max_tokens sp with
     | None =>
         sp' = SamplingParams.set_max_tokens sp
                 (Z.min (TextGenerationService.max_max_new_tokens self)
                        (window - token_num))
         /\ flag = true
     | Some m =>
         if window <? token_num + m
         then sp' = SamplingParams.set_max_tokens sp (window - token_num)
              /\ flag = true
         else sp' = sp /\ flag = false
     end.
Proof.
  unfold _validate_prompt_and_tokenize. intros H.
  apply bind_Ok in H as ([] & H1 & H).
  apply bind_Ok in H as ([] & H2 & H).
  destruct (_ <=? _) eqn:E1; [discriminate|]. apply Z.leb_gt in E1.
  destruct (_ <? _) eqn:E2; [discriminate|]. apply Z.ltb_ge in E2.
  destruct (SamplingParams.max_tokens sp) as [m|] eqn:Em.
  - destruct (_ <? _) eqn:E3; injection H as <- <- <-; cbn;
      rewrite ?E3; auto 10.
  - injection H as <- <- <-. cbn. auto 10.
Qed.

Lemma prepare_over_window sp truncate prompt :
  let window := TextGenerationService.max_model_len self in
  let token_num :=
    Z.of_nat (length (TextGenerationService.encode_async self prompt
                        truncate)) in
  window <= token_num \/ window < token_num + SamplingParams.min_tokens sp ->
  _validate_prompt_and_tokenize self sp truncate prompt
  = Raise (AbortError INVALID_ARGUMENT).
Proof.
  intros window token_num H.
  destruct (_validate_prompt_and_tokenize self sp truncate prompt)
    as [[sp' [ids flag]]|e] eqn:E.
  - apply prepare_Ok in E as (-> & H1 & H2 & _).
    fold window token_num in H1, H2. lia.
  - apply prepare_raises in E. congruence.
Qed.

Lemma prepare_loop_raises request_id truncate requests :
  forall i sp generators flags e,
  prepare_loop self request_id truncate i requests sp generators flags
  = Raise e ->
  e = AbortError INVALID_ARGUMENT.
Proof.
  induction requests as [|text rest IH]; intros i sp gens flags e; cbn.
  - discriminate.
  - destruct (_validate_prompt_and_tokenize self sp truncate text)
      as [[sp' [ids flag]]|e'] eqn:E; cbn.
    + apply IH.
    + apply prepare_raises in E. congruence.
Qed.

(** One prompt beyond the window fails the preparation of the batch. *)
Lemma prepare_loop_over_window request_id truncate requests :
  forall i sp generators flags,
  Exists
    (fun prompt =>
       let window := TextGenerationService.max_model_len self in
       let token_num :=
         Z.of_nat (length (TextGenerationService.encode_async self prompt
                             truncate)) in
       window <= token_num
       \/ window < token_num + SamplingParams.min_tokens sp)
    requests ->
  prepare_loop self request_id truncate i requests sp generators flags
  = Raise (AbortError INVALID_ARGUMENT).
Proof.
  induction requests as [|text rest IH]; intros i sp gens flags H.
  - inversion H.
  - cbn [prepare_loop].
    destruct (_validate_prompt_and_tokenize self sp truncate text)
      as [[sp' [ids flag]]|e'] eqn:E; cbn.
    + apply prepare_Ok in E as (-> & H1 & H2 & Hmin & _).
      apply Exists_cons in H as [H|H]; [cbn in H; lia|].
      apply IH. rewrite Hmin. exact H.
    + apply prepare_raises in E. congruence.
Qed.

End preparation_facts.

Lemma prepare_within_window (self : TextGenerationService.t)
    (sp : SamplingParams.t) (truncate : option N) (prompt : str) :
  let window := TextGenerationService.max_model_len self in
  let token_num :=
    Z.of_nat (length (TextGenerationService.encode_async self prompt
                        truncate)) in
  token_num < window ->
  token_num + SamplingParams.min_tokens sp <= window ->
  exists r, _validate_prompt_and_tokenize self sp truncate prompt = Ok r.
Proof.
  intros window token_num H1 H2. unfold _validate_prompt_and_tokenize.
  fold window token_num.
  assert ((window <=? token_num) = false) as -> by (apply Z.leb_gt; lia).
  assert ((window <? token_num + SamplingParams.min_tokens sp) = false)
    as -> by (apply Z.ltb_ge; lia).
  cbn. destruct (SamplingParams.max_tokens sp); [destruct (_ <? _)|]; eauto.
Qed.

Section engine_calls_facts.
Variable self : TextGenerationService.t.
Variable request_id : str.
Variable truncate : option N.

(** When every prompt is accepted, the calls made are the generators the
    loop returns, and the shared object is the one it returns. *)
Lemma engine_calls_Ok (requests : list str) :
  forall i sp gens flags sp' gens' flags',
  prepare_loop self request_id truncate i requests sp gens flags
  = Ok (sp', gens', flags') ->
  engine_calls self request_id truncate i requests sp gens = (sp', gens').
Proof.
  induction requests as [|text rest IH]; intros i sp gens flags sp' gens'
    flags' H; cbn in *.
  - by injection H as <- <- <-.
  - destruct (_validate_prompt_and_tokenize self sp truncate text)
      as [[sp1 [ids flag]]|e]; [|discriminate].
    cbn in H. eapply IH, H.
Qed.

(** When a prompt is turned away, the calls made are those for the
    prompts before it. *)
Lemma engine_calls_rejected (before : list str) (text : str)
    (after : list str) :
  forall i sp gens,
  Forall
    (fun prompt =>
       let window := TextGenerationService.max_model_len self in
       let token_num :=
         Z.of_nat (length (TextGenerationService.encode_async self prompt
                             truncate)) in
       token_num < window
       /\ token_num + SamplingParams.min_tokens sp <= window)
    before ->
  (let window := TextGenerationService.max_model_len self in
   let token_num :=
     Z.of_nat (length (TextGenerationService.encode_async self text
                         truncate)) in
   window <= token_num
   \/ window < token_num + SamplingParams.min_tokens sp) ->
  exists sp',
    engine_calls self request_id truncate i (before ++ text :: after) sp
      gens
    = (sp',
       gens
       ++ zip (map (Member request_id) (seq i (length before)))
            (map (fun prompt =>
                    TextGenerationService.encode_async self prompt truncate)
               before)).
Proof.
  induction before as [|prompt before IH]; intros i sp gens Hfit Hover;
    cbn [app engine_calls].
  - rewrite (prepare_over_window self sp truncate text Hover).
    exists sp. by rewrite app_nil_r.
  - apply Forall_cons in Hfit as [[H1 H2] Hfit].
    destruct (prepare_within_window self sp truncate prompt H1 H2)
      as [[sp1 [ids flag]] Hp].
    rewrite Hp.
    apply prepare_Ok in Hp as (-> & _ & _ & Hmin & _).
    rewrite <- Hmin in Hfit, Hover.
    destruct (IH (S i) sp1
                (gens ++ [(Member request_id i,
                           TextGenerationService.encode_async self prompt
                             truncate)]) Hfit Hover) as [sp' ->].
    exists sp'. cbn. by rewrite <- app_assoc.
Qed.

End engine_calls_facts.

(** C5 as stated does not hold of a batch: in a batch of the prompts
    "ab" and "abcdefghij" the second prompt fills the context window of
    10 tokens and the call is rejected with invalid-argument, but by then
    [engine.generate] has been called for the first member. *)
Lemma batch_rejected_after_engine_call :
  exists sp,
    Generate ex_service ex_verify ex_request_id
      (BatchedGenerationRequest.mk
         [str_of_string "ab"; str_of_string "abcdefghij"]
         (ex_params (ex_stopping 0 0 0 []) (ex_options false false 0)))
      0 []
    = Traced [EngineGenerate (Member ex_request_id 0) sp [97; 98]]
        (Raise (AbortError INVALID_ARGUMENT)).
Proof. eexists. vm_compute. reflexivity. Qed.

(** C5, amended.  A request whose tokenized prompt fills the context
    window, or whose prompt tokens plus [min_new_tokens] exceed it, is
    rejected with invalid-argument.  A stream call is rejected with an
    empty trace: the engine has not been called.  A batch call that holds
    such a prompt is rejected before any snapshot is taken and without any
    abort; when the parameters are valid, [engine.generate] has by then
    been called for exactly the members that come before the first such
    prompt, in request order, and when they are not, for none. *)
Theorem over_window_rejected
    (self : TextGenerationService.t)
    (SamplingParams_verify : SamplingParams.t -> bool)
    (request_id : str) (now : Q) :
  let over (params : Parameters.t) (prompt : str) : Prop :=
    let window := TextGenerationService.max_model_len self in
    let token_num :=
      Z.of_nat
        (length
           (TextGenerationService.encode_async self prompt
              (with_default_None (Parameters.truncate_input_tokens params))))
    in
    window <= token_num
    \/ window
       < token_num
         + Z.of_N (StoppingCriteria.min_new_tokens
                     (Parameters.stopping params)) in
  (forall request snapshots,
     over (SingleGenerationRequest.params request)
       (SingleGenerationRequest.request request) ->
     GenerateStream self SamplingParams_verify request_id request now
       snapshots
     = Traced [] (Raise (AbortError INVALID_ARGUMENT)))
  /\ (forall request merged,
        Exists (over (BatchedGenerationRequest.params request))
          (BatchedGenerationRequest.requests request) ->
        let run :=
          Generate self SamplingParams_verify request_id request now
            merged in
        outcome run = Raise (AbortError INVALID_ARGUMENT)
        /\ consumed (effects run) = []
        /\ aborted (effects run) = [])
  /\ (forall request merged before text after,
        let params := BatchedGenerationRequest.params request in
        BatchedGenerationRequest.requests request = before ++ text :: after ->
        Forall (fun prompt => ~ over params prompt) before ->
        over params text ->
        match _validate_and_convert_params self SamplingParams_verify
                params now with
        | Ok _ =>
            exists sp,
              effects (Generate self SamplingParams_verify request_id
                         request now merged)
              = map (fun g => EngineGenerate g.1 sp g.2)
                  (zip (map (Member request_id) (seq 0 (length before)))
                     (map (fun prompt =>
                             TextGenerationService.encode_async self prompt
                               (with_default_None
                                  (Parameters.truncate_input_tokens params)))
                        before))
        | Raise _ =>
            effects (Generate self SamplingParams_verify request_id request
                       now merged) = []
        end).
Proof.
  cbv zeta. split; [|split].
  - intros request snapshots H. unfold GenerateStream.
    destruct (_validate_and_convert_params _ _ _ now) as [[sp dl]|e] eqn:E.
    + apply validate_Ok, convert_params_Ok in E.
      destruct E as (_ & _ & Hmin & _).
      rewrite <- (Z.max_r 0 (Z.of_N _)), <- Hmin in H by lia.
      cbn. rewrite (prepare_over_window _ _ _ _ H). reflexivity.
    + apply validate_raises in E. subst e. repeat split.
  - intros request merged H. unfold Generate.
    destruct (_validate_and_convert_params _ _ _ now) as [[sp dl]|e] eqn:E.
    + apply validate_Ok, convert_params_Ok in E.
      destruct E as (_ & _ & Hmin & _).
      cbn. destruct (engine_calls _ _ _ _ _ _ _) as [shared calls].
      rewrite prepare_loop_over_window.
      * cbn. destruct (observe_EngineGenerate shared calls) as (Ha & Hc & _).
        auto.
      * eapply Exists_impl; [exact H|]. cbn. intros prompt.
        rewrite Hmin. lia.
    + apply validate_raises in E. subst e. repeat split.
  - intros request merged before text after Hreq Hfit Hover.
    unfold Generate.
    destruct (_validate_and_convert_params _ _ _ now) as [[sp dl]|e] eqn:E;
      [|reflexivity].
    apply validate_Ok, convert_params_Ok in E.
    destruct E as (_ & _ & Hmin & _).
    cbn. rewrite Hreq.
    destruct (engine_calls_rejected self request_id
                (with_default_None
                   (Parameters.truncate_input_tokens
                      (BatchedGenerationRequest.params request)))
                before text after 0%nat sp []) as [sp' ->].
    + eapply Forall_impl; [exact Hfit|]. cbn. intros prompt.
      rewrite Hmin. lia.
    + cbn. rewrite Hmin. lia.
    + rewrite prepare_loop_over_window.
      * cbn. by exists sp'.
      * apply Exists_app. right. apply Exists_cons_hd. cbn.
        rewrite Hmin. lia.
Qed.

Lemma over_window_rejected_witness :
  GenerateStream ex_service ex_verify ex_request_id
    (SingleGenerationRequest.mk (str_of_string "abcdefgh")
       (ex_params (ex_stopping 0 3 0 []) (ex_options false false 0)))
    0 []
  = Traced [] (Raise (AbortError INVALID_ARGUMENT))
  /\ outcome
       (Generate ex_service ex_verify ex_request_id
          (BatchedGenerationRequest.mk
             [str_of_string "ab"; str_of_string "abcdefghij"]
             (ex_params (ex_stopping 0 0 0 []) (ex_options false false 0)))
          0 [])
     = Raise (AbortError INVALID_ARGUMENT).
Proof.
  split.
  - apply (over_window_rejected ex_service ex_verify ex_request_id 0).
    right. vm_compute. reflexivity.
  - apply (over_window_rejected ex_service ex_verify ex_request_id 0).
    apply Exists_cons_tl, Exists_cons_hd. left. vm_compute. discriminate.
Defined.

(** ** Resolution of the maximum *)

(** One preparation that starts from the validator's own result, as in
    [GenerateStream] and for the first member of a batch: the maximum is
    resolved as lines 484-494 say, it is flagged accordingly, and the
    minimum does not exceed it. *)
Lemma prepare_after_validate (self : TextGenerationService.t)
    (SamplingParams_verify : SamplingParams.t -> bool)
    (params : Parameters.t) (now : Q) (sp : SamplingParams.t)
    (deadline : option Q) (truncate : option N) (prompt : str)
    (sp' : SamplingParams.t) (input_ids : list Z) (flag : bool) :
  let ceiling := TextGenerationService.max_max_new_tokens self in
  let window := TextGenerationService.max_model_len self in
  let token_num := Z.of_nat (length input_ids) in
  let user_max :=
    Z.of_N (StoppingCriteria.max_new_tokens (Parameters.stopping params)) in
  0 <= ceiling ->
  _validate_and_convert_params self SamplingParams_verify params now
  = Ok (sp, deadline) ->
  _validate_prompt_and_tokenize self sp truncate prompt
  = Ok (sp', (input_ids, flag)) ->
  exists m,
    SamplingParams.max_tokens sp' = Some m
    /\ SamplingParams.min_tokens sp' <= m
    /\ (if user_max =? 0
        then m = Z.min ceiling (window - token_num) /\ flag = true
        else if window <? token_num + user_max
             then m = window - token_num /\ flag = true
             else m = user_max /\ flag = false).
Proof.
  intros ceiling window token_num user_max Hc Hv Hp.
  apply validate_Ok, convert_params_Ok in Hv.
  destruct Hv as (Hmax & Hceil & Hmin & Hle & _).
  apply prepare_Ok in Hp as (_ & H1 & H2 & Hmin' & Hp).
  fold ceiling window token_num user_max in Hmax, Hceil, Hle, H1, H2, Hp.
  rewrite Hmin'. rewrite Hmax in Hp, Hle.
  destruct (0 <? _)%N eqn:E.
  - apply N.ltb_lt in E.
    assert ((user_max =? 0) = false) as -> by (apply Z.eqb_neq; lia).
    assert (SamplingParams.min_tokens sp <= user_max).
    { destruct (Z.lt_ge_cases 0 (SamplingParams.min_tokens sp)); [auto|].
      lia. }
    destruct (window <? _) eqn:Ew; destruct Hp as [-> ->]; cbn.
    + eexists; split; [reflexivity|]. split; [lia | auto].
    + rewrite Hmax. eexists; split; [reflexivity|]. auto.
  - apply N.ltb_ge in E.
    assert ((user_max =? 0) = true) as -> by (apply Z.eqb_eq; lia).
    destruct Hp as [-> ->]. cbn.
    eexists; split; [reflexivity|]. split; [|auto].
    destruct (Z.lt_ge_cases 0 (SamplingParams.min_tokens sp)); [|lia].
    specialize (Hle ltac:(assumption)). lia.
Qed.

(** C4, at the input where the code departs from it.  In the batch
    [ex_batch_7_1] no maximum is given by the user.  Prepared on its own
    the one-token prompt gets the maximum min(8, 10 - 1) = 8, flagged
    implicit.  In the batch the preparation of the seven-token prompt has
    already written 3 into the sampling parameters both members share, so
    the one-token prompt finds a maximum set, keeps it and is flagged
    explicit: the engine runs both members with a maximum of 3 and the
    second response reports MAX_TOKENS where the first reports
    TOKEN_LIMIT. *)
Theorem batch_members_share_max_tokens :
  let params := BatchedGenerationRequest.params ex_batch_7_1 in
  let run :=
    Generate ex_service ex_verify ex_request_id ex_batch_7_1 0
      ex_merged_7_1 in
  match _validate_and_convert_params ex_service ex_verify params 0 with
  | Ok (sp, _) =>
      SamplingParams.max_tokens sp = None
      /\ match _validate_prompt_and_tokenize ex_service sp None
                 (str_of_string "h") with
         | Ok (sp', (_, flag)) =>
             SamplingParams.max_tokens sp' = Some 8 /\ flag = true
         | Raise _ => False
         end
      /\ match prepare_loop ex_service ex_request_id None 0
                 (BatchedGenerationRequest.requests ex_batch_7_1) sp []
                 [false; false] with
         | Ok (sp', _, flags) =>
             SamplingParams.max_tokens sp' = Some 3
             /\ flags = [true; false]
         | Raise _ => False
         end
  | Raise _ => False
  end
  /\ Forall
       (fun e =>
          match e with
          | EngineGenerate _ sp _ => SamplingParams.max_tokens sp = Some 3
          | _ => True
          end)
       (effects run)
  /\ match outcome run with
     | Ok responses =>
         map GenerationResponse.stop_reason responses
         = [TOKEN_LIMIT; MAX_TOKENS]
     | Raise _ => False
     end.
Proof.
  vm_compute. repeat split; try reflexivity.
  repeat constructor.
Qed.

(** ** Deltas of the token details *)

Section delta_facts.
Variable self : TextGenerationService.t.
Variables incl ranks : bool.
Variable n : N.

Lemma convert_tokens_eq (token_ids : list Z)
    (ll : option (list (option LogprobDict)))
    (infos : list TokenInfo.t) (off : nat) :
  _convert_tokens self token_ids ll incl ranks n infos off
  = new ← tokens_loop self (drop off token_ids) (drop off <$> ll) incl
            ranks n 0
            (TextGenerationService.convert_ids_to_tokens self
               (drop off token_ids));
    Ok (infos ++ new).
Proof.
  unfold _convert_tokens.
  destruct off; [|reflexivity]. cbn. destruct ll; reflexivity.
Qed.

(** A position of the sliced lists is the position [off] further on in
    the whole lists. *)
Lemma token_info_at_drop (token_ids : list Z)
    (ll : option (list (option LogprobDict))) (off i : nat) (text : str) :
  token_info_at self (drop off token_ids) (drop off <$> ll) incl ranks n i
    text
  = token_info_at self token_ids ll incl ranks n (off + i) text.
Proof.
  unfold token_info_at, getitem. destruct ll as [l|]; cbn; [|reflexivity].
  rewrite !lookup_drop. reflexivity.
Qed.

Lemma tokens_loop_drop (token_ids : list Z)
    (ll : option (list (option LogprobDict))) (off : nat)
    (texts : list str) :
  forall i,
  tokens_loop self (drop off token_ids) (drop off <$> ll) incl ranks n i
    texts
  = tokens_loop self token_ids ll incl ranks n (off + i) texts.
Proof.
  induction texts as [|text rest IH]; intros i; cbn; [reflexivity|].
  rewrite token_info_at_drop, IH, Nat.add_succ_r. reflexivity.
Qed.

Lemma tokens_loop_app (token_ids : list Z)
    (ll : option (list (option LogprobDict))) (texts1 texts2 : list str) :
  forall i out1 out2,
  tokens_loop self token_ids ll incl ranks n i texts1 = Ok out1 ->
  tokens_loop self token_ids ll incl ranks n (i + length texts1) texts2
  = Ok out2 ->
  tokens_loop self token_ids ll incl ranks n i (texts1 ++ texts2)
  = Ok (out1 ++ out2).
Proof.
  induction texts1 as [|text rest IH]; intros i out1 out2 H1 H2; cbn in *.
  - injection H1 as <-. rewrite Nat.add_0_r in H2. exact H2.
  - apply bind_Ok in H1 as (ti & Hti & H1).
    apply bind_Ok in H1 as (tis & Hrest & H1). injection H1 as <-.
    rewrite Hti. cbn.
    rewrite (IH (S i) tis out2 Hrest); [reflexivity|].
    rewrite <- H2. f_equal. lia.
Qed.

(** A detail built from shorter lists is built alike from longer ones. *)
Lemma token_info_at_mono (ids ids' : list Z)
    (ll ll' : option (list (option LogprobDict))) (i : nat) (text : str)
    (ti : TokenInfo.t) :
  take (length ids) ids' = ids ->
  match ll, ll' with
  | None, None => True
  | Some l, Some l' => take (length l) l' = l
  | _, _ => False
  end ->
  token_info_at self ids ll incl ranks n i text = Ok ti ->
  token_info_at self ids' ll' incl ranks n i text = Ok ti.
Proof.
  intros Hids Hll. unfold token_info_at, getitem.
  destruct ll as [l|], ll' as [l'|]; try contradiction; [|auto].
  cbn. destruct (l !! i) as [x|] eqn:El; [|discriminate].
  assert (l' !! i = Some x) as ->.
  { rewrite <- (take_drop (length l) l'), Hll.
    apply lookup_app_l_Some, El. }
  cbn. destruct x as [d|]; [|auto].
  destruct (incl || ranks); [|auto].
  destruct (ids !! i) as [tid|] eqn:Ei; [|discriminate].
  assert (ids' !! i = Some tid) as ->; [|auto].
  rewrite <- (take_drop (length ids) ids'), Hids.
  apply lookup_app_l_Some, Ei.
Qed.

Lemma tokens_loop_mono (ids ids' : list Z)
    (ll ll' : option (list (option LogprobDict))) (texts : list str) :
  take (length ids) ids' = ids ->
  match ll, ll' with
  | None, None => True
  | Some l, Some l' => take (length l) l' = l
  | _, _ => False
  end ->
  forall i out,
  tokens_loop self ids ll incl ranks n i texts = Ok out ->
  tokens_loop self ids' ll' incl ranks n i texts = Ok out.
Proof.
  intros Hids Hll.
  induction texts as [|text rest IH]; intros i out H; cbn in *; [exact H|].
  apply bind_Ok in H as (ti & Hti & H).
  apply bind_Ok in H as (tis & Hrest & H). injection H as <-.
  rewrite (token_info_at_mono _ _ _ _ _ _ _ Hids Hll Hti). cbn.
  rewrite (IH _ _ Hrest). reflexivity.
Qed.

(** The details of an output are those of the output it continues,
    followed by the delta taken from where that one ended. *)
Lemma convert_tokens_delta (prev output : CompletionOutput.t)
    (acc delta : list TokenInfo.t) :
  extends prev output ->
  _convert_tokens self (CompletionOutput.token_ids prev)
    (CompletionOutput.logprobs prev) incl ranks n [] 0 = Ok acc ->
  _convert_tokens self (CompletionOutput.token_ids output)
    (CompletionOutput.logprobs output) incl ranks n []
    (length (CompletionOutput.token_ids prev)) = Ok delta ->
  _convert_tokens self (CompletionOutput.token_ids output)
    (CompletionOutput.logprobs output) incl ranks n [] 0
  = Ok (acc ++ delta).
Proof.
  intros (_ & Hids & Hll). rewrite !convert_tokens_eq.
  intros Hacc Hdelta.
  apply bind_Ok in Hacc as (acc' & Hacc & [= <-]).
  apply bind_Ok in Hdelta as (delta' & Hdelta & [= <-]).
  rewrite drop_0 in *.
  assert (drop 0 <$> CompletionOutput.logprobs prev
          = CompletionOutput.logprobs prev) as E
    by (destruct (CompletionOutput.logprobs prev); reflexivity).
  assert (drop 0 <$> CompletionOutput.logprobs output
          = CompletionOutput.logprobs output) as E'
    by (destruct (CompletionOutput.logprobs output); reflexivity).
  rewrite E in Hacc. rewrite E'. clear E E'.
  rewrite tokens_loop_drop, Nat.add_0_r in Hdelta.
  apply (tokens_loop_mono _ _ _ _ _ Hids Hll) in Hacc.
  assert (TextGenerationService.convert_ids_to_tokens self
            (CompletionOutput.token_ids output)
          = TextGenerationService.convert_ids_to_tokens self
              (CompletionOutput.token_ids prev)
            ++ TextGenerationService.convert_ids_to_tokens self
                 (drop (length (CompletionOutput.token_ids prev))
                    (CompletionOutput.token_ids output))) as ->.
  { unfold TextGenerationService.convert_ids_to_tokens.
    rewrite <- map_app, <- Hids at 1. rewrite take_drop. reflexivity. }
  rewrite (tokens_loop_app _ _ _ _ _ _ delta' Hacc); [reflexivity|].
  unfold TextGenerationService.convert_ids_to_tokens at 1.
  rewrite length_map. exact Hdelta.
Qed.

(** The details carry the texts of the tokens, one per token. *)
Lemma convert_tokens_texts (token_ids : list Z)
    (ll : option (list (option LogprobDict))) (out : list TokenInfo.t) :
  _convert_tokens self token_ids ll incl ranks n [] 0 = Ok out ->
  map TokenInfo.text out
  = TextGenerationService.convert_ids_to_tokens self token_ids.
Proof.
  rewrite convert_tokens_eq, drop_0. intros H.
  apply bind_Ok in H as (new & H & [= <-]).
  apply tokens_loop_Ok in H as [Hlen H].
  apply list_eq. intros k. rewrite list_lookup_fmap.
  destruct (new !! k) as [ti|] eqn:Ek; cbn.
  - apply H in Ek as (text & -> & Hti).
    apply token_info_at_Ok in Hti as [-> _]. reflexivity.
  - symmetry. apply lookup_ge_None. apply lookup_ge_None in Ek. lia.
Qed.

End delta_facts.

(** ** The stream orchestrator *)

Section stream_facts.
Variable self : TextGenerationService.t.
Variable request_id : str.
Variable text : str.
Variable resp_options : ResponseOptions.t.
Variable sampling_params : SamplingParams.t.
Variable deadline : option Q.
Variable max_is_tok_limit : bool.

(** One turn of the loop, spelled out by cases. *)
Lemma stream_loop_cons (first : bool) (lo lt : nat) (res : RequestOutput.t)
    (now : Q) (rest : list (RequestOutput.t * Q)) :
  stream_loop self request_id text resp_options sampling_params deadline
    max_is_tok_limit first lo lt ((res, now) :: rest)
  = let next := EngineNext (Single request_id) res in
    let hit := deadline_hit deadline now in
    match (if first
           then first_response ←
                  _convert_input_details self
                    (RequestOutput.set_prompt res text) resp_options
                    sampling_params GenerationResponse.empty;
                Ok [Yield first_response]
           else Ok []) with
    | Raise e => Traced [next] (Raise e)
    | Ok ys =>
        match RequestOutput.outputs res !! 0%nat with
        | None => Traced (next :: ys) (Raise IndexError)
        | Some output =>
            match _convert_output self output resp_options max_is_tok_limit
                    hit lo lt with
            | Raise e =>
                Traced
                  (next :: ys
                   ++ (if hit then [EngineAbort (Single request_id)] else []))
                  (Raise e)
            | Ok response =>
                if hit then
                  Traced
                    (next :: ys
                     ++ [EngineAbort (Single request_id); Yield response])
                    (Ok ())
                else
                  let r :=
                    stream_loop self request_id text resp_options
                      sampling_params deadline max_is_tok_limit false
                      (length (CompletionOutput.text output))
                      (length (CompletionOutput.token_ids output)) rest in
                  Traced (next :: ys ++ Yield response :: effects r)
                    (outcome r)
            end
        end
    end.
Proof.
  cbn [stream_loop]. cbv zeta.
  unfold mbind, traced_bind, result_bind, mret, traced_ret, tell, lift,
    getitem.
  destruct first; cbn.
  - destruct (_convert_input_details _ _ _ _ _) as [fr|e]; cbn;
      [|reflexivity].
    destruct (RequestOutput.outputs res !! 0%nat) as [output|]; cbn;
      [|reflexivity].
    destruct (deadline_hit deadline now); cbn;
      destruct (_convert_output _ _ _ _ _ _ _) as [response|e]; cbn;
      reflexivity.
  - destruct (RequestOutput.outputs res !! 0%nat) as [output|]; cbn;
      [|reflexivity].
    destruct (deadline_hit deadline now); cbn;
      destruct (_convert_output _ _ _ _ _ _ _) as [response|e]; cbn;
      reflexivity.
Qed.

(** The responses sent ahead of a snapshot's delta: the input details on
    the first turn, nothing afterwards. *)
Lemma first_response_Ok (first : bool) (res : RequestOutput.t)
    (ys : list effect) :
  (if first
   then first_response ←
          _convert_input_details self (RequestOutput.set_prompt res text)
            resp_options sampling_params GenerationResponse.empty;
        Ok [Yield first_response]
   else Ok []) = Ok ys ->
  exists rs, ys = map Yield rs /\ length rs = if first then 1%nat else 0%nat.
Proof.
  destruct first.
  - intros H. apply bind_Ok in H as (fr & _ & [= <-]). by exists [fr].
  - intros [= <-]. by exists [].
Qed.

(** The turn at which the deadline is found exceeded ends the stream: the
    trace closes with the abort and the response of that turn. *)
Lemma stream_loop_deadline (pre : list (RequestOutput.t * Q))
    (res : RequestOutput.t) (now : Q) (post : list (RequestOutput.t * Q)) :
  forall first lo lt,
  Forall (fun s => deadline_hit deadline s.2 = false) pre ->
  deadline_hit deadline now = true ->
  outcome (stream_loop self request_id text resp_options sampling_params
             deadline max_is_tok_limit first lo lt
             (pre ++ (res, now) :: post)) = Ok () ->
  exists es0 output response lo' lt',
    effects (stream_loop self request_id text resp_options sampling_params
               deadline max_is_tok_limit first lo lt
               (pre ++ (res, now) :: post))
    = es0 ++ [EngineAbort (Single request_id); Yield response]
    /\ aborted es0 = []
    /\ consumed es0 = pre.*1 ++ [res]
    /\ RequestOutput.outputs res !! 0%nat = Some output
    /\ _convert_output self output resp_options max_is_tok_limit true
         lo' lt' = Ok response.
Proof.
  induction pre as [|[r1 t1] pre IH]; intros first lo lt Hpre Hnow;
    cbn [app]; rewrite stream_loop_cons; cbv zeta.
  - rewrite Hnow.
    destruct (if first then _ else _) as [ys|e] eqn:Eys; [|discriminate].
    apply first_response_Ok in Eys as (rs & -> & _).
    destruct (RequestOutput.outputs res !! 0%nat) as [output|] eqn:Eo;
      [|discriminate].
    destruct (_convert_output _ _ _ _ _ _ _) as [response|e] eqn:Er;
      [|discriminate].
    intros _. cbn [effects].
    exists (EngineNext (Single request_id) res :: map Yield rs), output,
      response, lo, lt.
    destruct (observe_Yield rs) as (_ & Hc & Ha).
    split; [reflexivity|].
    split; [exact Ha|].
    split; [|auto].
    change (res :: consumed (map Yield rs) = [res]). by rewrite Hc.
  - apply Forall_cons in Hpre as [Ht1 Hpre]. cbn in Ht1. rewrite Ht1.
    destruct (if first then _ else _) as [ys|e] eqn:Eys; [|discriminate].
    apply first_response_Ok in Eys as (rs & -> & _).
    destruct (RequestOutput.outputs r1 !! 0%nat) as [output1|] eqn:Eo;
      [|discriminate].
    destruct (_convert_output _ _ _ _ _ _ _) as [response1|e] eqn:Er;
      [|discriminate].
    cbn [effects outcome]. intros Hout.
    destruct (IH _ _ _ Hpre Hnow Hout)
      as (es0 & output & response & lo' & lt' & -> & Ha & Hc & Ho & Hr).
    exists (EngineNext (Single request_id) r1
            :: map Yield rs ++ Yield response1 :: es0),
      output, response, lo', lt'.
    destruct (observe_Yield rs) as (_ & Hc' & Ha').
    split; [cbn [app]; by rewrite <- app_assoc|].
    split.
    { change (aborted (map Yield rs ++ Yield response1 :: es0) = []).
      rewrite aborted_app, Ha'. exact Ha. }
    split; [|auto].
    change (r1 :: consumed (map Yield rs ++ Yield response1 :: es0)
            = r1 :: pre.*1 ++ [res]).
    rewrite consumed_app, Hc'. cbn. fold (consumed es0). by rewrite Hc.
Qed.

End stream_facts.

(** The fields of a delta response. *)
Lemma convert_output_Ok (self : TextGenerationService.t)
    (output : CompletionOutput.t) (resp_options : ResponseOptions.t)
    (flag hit : bool) (lo lt : nat) (response : GenerationResponse.t) :
  _convert_output self output resp_options flag hit lo lt = Ok response ->
  GenerationResponse.text response = drop lo (CompletionOutput.text output)
  /\ GenerationResponse.generated_token_count response
     = length (CompletionOutput.token_ids output)
  /\ (GenerationResponse.stop_reason response,
      GenerationResponse.stop_sequence response)
     = _convert_reason output flag hit
  /\ (if ResponseOptions.generated_tokens resp_options
      then _convert_tokens self (CompletionOutput.token_ids output)
             (CompletionOutput.logprobs output)
             (ResponseOptions.token_logprobs resp_options)
             (ResponseOptions.token_ranks resp_options)
             (ResponseOptions.top_n_tokens resp_options) [] lt
      else Ok [])
     = Ok (GenerationResponse.tokens response).
Proof.
  unfold _convert_output.
  destruct (_convert_reason output flag hit) as [stop_reason stop_sequence].
  intros H. apply bind_Ok in H as (tokens & Ht & [= <-]). cbn. auto.
Qed.

Lemma convert_params_deadline (self : TextGenerationService.t)
    (SamplingParams_verify : SamplingParams.t -> bool)
    (params : Parameters.t) (now : Q) (sp : SamplingParams.t)
    (deadline : option Q) :
  convert_params self SamplingParams_verify params now = Ok (sp, deadline) ->
  let time_limit_millis :=
    StoppingCriteria.time_limit_millis (Parameters.stopping params) in
  deadline
  = if (0 <? time_limit_millis)%N
    then Some (now + inject_Z (Z.of_N time_limit_millis) / 1000)%Q
    else None.
Proof.
  unfold convert_params. intros H.
  apply bind_Ok in H as ([] & _ & H).
  apply bind_Ok in H as (max_new_tokens & _ & H).
  apply bind_Ok in H as ([] & _ & H).
  apply bind_Ok in H as ([] & _ & H).
  apply bind_Ok in H as (logprobs & _ & H).
  apply bind_Ok in H as ([] & _ & H).
  injection H as _ <-. reflexivity.
Qed.

(** A stream that ends well has passed validation and preparation, has
    started the engine once, and has then run the loop. *)
Lemma GenerateStream_Ok (self : TextGenerationService.t)
    (SamplingParams_verify : SamplingParams.t -> bool)
    (request_id : str) (request : SingleGenerationRequest.t) (now : Q)
    (snapshots : list (RequestOutput.t * Q)) :
  outcome (GenerateStream self SamplingParams_verify request_id request now
             snapshots) = Ok () ->
  exists sp deadline sp' input_ids flag,
    let params := SingleGenerationRequest.params request in
    let loop :=
      stream_loop self request_id (SingleGenerationRequest.request request)
        (Parameters.response params) sp' deadline flag true 0 0 snapshots in
    _validate_and_convert_params self SamplingParams_verify params now
    = Ok (sp, deadline)
    /\ _validate_prompt_and_tokenize self sp
         (with_default_None (Parameters.truncate_input_tokens params))
         (SingleGenerationRequest.request request)
       = Ok (sp', (input_ids, flag))
    /\ effects (GenerateStream self SamplingParams_verify request_id request
                  now snapshots)
       = EngineGenerate (Single request_id) sp' input_ids :: effects loop
    /\ outcome loop = Ok ().
Proof.
  unfold GenerateStream.
  destruct (_validate_and_convert_params _ _ _ now) as [[sp dl]|e] eqn:Ev;
    [|discriminate].
  cbn.
  destruct (_validate_prompt_and_tokenize _ _ _ _)
    as [[sp' [ids flag]]|e] eqn:Ep; [|discriminate].
  cbn. intros H. exists sp, dl, sp', ids, flag. cbn. auto.
Qed.

(** C9. When the deadline is found exceeded at a snapshot of a stream
    (and at none before it), the engine is told to abort exactly once,
    for the stream's request id; the response of that snapshot is still
    sent, last of all, with stop reason TIME_LIMIT when the snapshot has
    no finish reason; and the snapshots taken from the engine are those up
    to that one and no more. *)
Theorem stream_deadline_one_abort
    (self : TextGenerationService.t)
    (SamplingParams_verify : SamplingParams.t -> bool)
    (request_id : str) (request : SingleGenerationRequest.t) (now0 : Q)
    (pre : list (RequestOutput.t * Q)) (res : RequestOutput.t) (now : Q)
    (post : list (RequestOutput.t * Q)) :
  let time_limit_millis :=
    StoppingCriteria.time_limit_millis
      (Parameters.stopping (SingleGenerationRequest.params request)) in
  let d := (now0 + inject_Z (Z.of_N time_limit_millis) / 1000)%Q in
  let run :=
    GenerateStream self SamplingParams_verify request_id request now0
      (pre ++ (res, now) :: post) in
  (0 < time_limit_millis)%N ->
  Forall (fun s => (s.2 < d)%Q) pre ->
  (d <= now)%Q ->
  outcome run = Ok () ->
  aborted (effects run) = [Single request_id]
  /\ consumed (effects run) = pre.*1 ++ [res]
  /\ exists es0 output response,
       effects run
       = es0 ++ [EngineAbort (Single request_id); Yield response]
       /\ RequestOutput.outputs res !! 0%nat = Some output
       /\ (CompletionOutput.finish_reason output = None ->
           GenerationResponse.stop_reason response = TIME_LIMIT).
Proof.
  intros time_limit_millis d run Hms Hpre Hnow Hrun.
  destruct (GenerateStream_Ok _ _ _ _ _ _ Hrun)
    as (sp & dl & sp' & ids & flag & Hv & _ & Heff & Hloop).
  cbv zeta in Heff, Hloop.
  apply validate_Ok, convert_params_deadline in Hv. cbv zeta in Hv.
  fold time_limit_millis in Hv.
  apply N.ltb_lt in Hms. rewrite Hms in Hv. fold d in Hv. subst dl.
  apply stream_loop_deadline in Hloop
    as (es0 & output & response & lo' & lt' & Hes & Ha & Hc & Ho & Hr).
  - fold run in Heff. rewrite Heff, Hes.
    split.
    { change (aborted (es0 ++ [EngineAbort (Single request_id);
                               Yield response]) = [Single request_id]).
      rewrite aborted_app, Ha. reflexivity. }
    split.
    { change (consumed (es0 ++ [EngineAbort (Single request_id);
                                Yield response]) = pre.*1 ++ [res]).
      rewrite consumed_app, Hc. cbn. by rewrite app_nil_r. }
    exists (EngineGenerate (Single request_id) sp' ids :: es0), output,
      response.
    split; [reflexivity|]. split; [exact Ho|].
    intros Hfin. apply convert_output_Ok in Hr as (_ & _ & Hr & _).
    unfold _convert_reason in Hr. rewrite Hfin in Hr. congruence.
  - eapply Forall_impl; [exact Hpre|]. intros s Hs. cbn in *.
    destruct (Qle_bool d s.2) eqn:E; [|reflexivity].
    apply Qle_bool_iff in E. exfalso. eapply Qlt_not_le; eassumption.
  - cbn. apply Qle_bool_iff, Hnow.
Qed.

Lemma stream_deadline_one_abort_witness :
  let run :=
    GenerateStream ex_service ex_verify ex_request_id
      (ex_single (ex_stopping 0 0 1500 []) (ex_options true false 0)) 0
      ex_stream in
  aborted (effects run) = [Single ex_request_id]
  /\ length (consumed (effects run)) = 2%nat.
Proof.
  pose proof (stream_deadline_one_abort ex_service ex_verify ex_request_id
    (ex_single (ex_stopping 0 0 1500 []) (ex_options true false 0)) 0
    [(ex_snapshot [104; 105] (str_of_string "x") [120] None, 1%Q)]
    (ex_snapshot [104; 105] (str_of_string "xy") [120; 121] None) 2%Q
    [(ex_snapshot [104; 105] (str_of_string "xyz") [120; 121; 122]
        (Some (str_of_string "length")), 3%Q)]
    ltac:(vm_compute; reflexivity)
    ltac:(repeat constructor)
    ltac:(vm_compute; discriminate)
    ltac:(vm_compute; reflexivity)) as (Ha & Hc & _).
  split; [exact Ha|].
  change (length (consumed (effects
    (GenerateStream ex_service ex_verify ex_request_id
       (ex_single (ex_stopping 0 0 1500 []) (ex_options true false 0)) 0
       ([(ex_snapshot [104; 105] (str_of_string "x") [120] None, 1%Q)]
        ++ (ex_snapshot [104; 105] (str_of_string "xy") [120; 121] None,
            2%Q)
           :: [(ex_snapshot [104; 105] (str_of_string "xyz")
                  [120; 121; 122] (Some (str_of_string "length")),
                3%Q)])))) = 2%nat).
  rewrite Hc. reflexivity.
Defined.

(** ** Completeness of the deltas *)

Section delta_stream_facts.
Variable self : TextGenerationService.t.
Variable request_id : str.
Variable text : str.
Variable resp_options : ResponseOptions.t.
Variable sampling_params : SamplingParams.t.
Variable deadline : option Q.
Variable max_is_tok_limit : bool.

(** From the second turn on: what is sent continues what was sent before,
    up to the output of the last snapshot taken. *)
Lemma stream_loop_deltas (rest : list (RequestOutput.t * Q)) :
  forall (prev : CompletionOutput.t) (acc : list TokenInfo.t),
  let loop :=
    stream_loop self request_id text resp_options sampling_params deadline
      max_is_tok_limit false (length (CompletionOutput.text prev))
      (length (CompletionOutput.token_ids prev)) rest in
  cumulative (Some prev) rest ->
  (ResponseOptions.generated_tokens resp_options = true ->
   _convert_tokens self (CompletionOutput.token_ids prev)
     (CompletionOutput.logprobs prev)
     (ResponseOptions.token_logprobs resp_options)
     (ResponseOptions.token_ranks resp_options)
     (ResponseOptions.top_n_tokens resp_options) [] 0 = Ok acc) ->
  outcome loop = Ok () ->
  exists final,
    match last (consumed (effects loop)) with
    | Some res => RequestOutput.outputs res !! 0%nat
    | None => Some prev
    end = Some final
    /\ CompletionOutput.text prev
       ++ concat (map GenerationResponse.text (yielded (effects loop)))
       = CompletionOutput.text final
    /\ (ResponseOptions.generated_tokens resp_options = true ->
        _convert_tokens self (CompletionOutput.token_ids final)
          (CompletionOutput.logprobs final)
          (ResponseOptions.token_logprobs resp_options)
          (ResponseOptions.token_ranks resp_options)
          (ResponseOptions.top_n_tokens resp_options) [] 0
        = Ok (acc
              ++ concat (map GenerationResponse.tokens
                           (yielded (effects loop))))).
Proof.
  induction rest as [|[res now] rest IH]; intros prev acc loop Hcum Hacc.
  - intros _. exists prev. cbn. rewrite !app_nil_r. auto.
  - subst loop. rewrite stream_loop_cons. cbv zeta.
    cbn [cumulative] in Hcum.
    destruct (RequestOutput.outputs res !! 0%nat) as [output|] eqn:Eo;
      [|discriminate].
    destruct Hcum as [Hext Hcum].
    destruct (_convert_output _ _ _ _ _ _ _) as [response|e] eqn:Er;
      [|discriminate].
    apply convert_output_Ok in Er as (Htext & _ & _ & Htok).
    assert (CompletionOutput.text prev ++ GenerationResponse.text response
            = CompletionOutput.text output) as Htext'.
    { rewrite Htext. destruct Hext as (Ht & _).
      rewrite <- Ht at 1. apply take_drop. }
    assert (ResponseOptions.generated_tokens resp_options = true ->
            _convert_tokens self (CompletionOutput.token_ids output)
              (CompletionOutput.logprobs output)
              (ResponseOptions.token_logprobs resp_options)
              (ResponseOptions.token_ranks resp_options)
              (ResponseOptions.top_n_tokens resp_options) [] 0
            = Ok (acc ++ GenerationResponse.tokens response)) as Htok'.
    { intros Hgen. rewrite Hgen in Htok.
      eapply convert_tokens_delta; eauto. }
    destruct (deadline_hit deadline now).
    + intros _. exists output. cbn. rewrite !app_nil_r. auto.
    + cbn [effects outcome app]. intros Hout.
      destruct (IH output (acc ++ GenerationResponse.tokens response)
                  Hcum Htok' Hout) as (final & Hfin & Ht & Hk).
      exists final. rewrite !consumed_cons, !yielded_cons.
      cbn [map concat]. split; [|split].
      * rewrite last_cons.
        destruct (last (consumed _)); [exact Hfin|].
        rewrite Eo. congruence.
      * rewrite app_assoc, Htext'. exact Ht.
      * intros Hgen. rewrite app_assoc. auto.
Qed.

End delta_stream_facts.

(** C2 as stated does not hold of every stream: over the snapshots
    [ex_stream_shrinking] the call ends well and the last snapshot taken
    from the engine has the text "Hi" and two tokens, but the deltas sent
    concatenate to "Hi!" and carry three token details. *)
Lemma stream_deltas_not_complete_when_shrinking :
  let run :=
    GenerateStream ex_service ex_verify ex_request_id
      (ex_single (ex_stopping 0 0 0 []) (ex_options true false 0)) 0
      ex_stream_shrinking in
  outcome run = Ok ()
  /\ last (consumed (effects run))
     = Some (ex_snapshot [104; 105] (str_of_string "Hi") [72; 105]
               (Some (str_of_string "stop")))
  /\ exists first_response deltas,
       yielded (effects run) = first_response :: deltas
       /\ concat (map GenerationResponse.text deltas) = str_of_string "Hi!"
       /\ concat (map GenerationResponse.text deltas) <> str_of_string "Hi"
       /\ map TokenInfo.text (concat (map GenerationResponse.tokens deltas))
          = [[72%N]; [105%N]; [33%N]].
Proof.
  split; [vm_compute; reflexivity|].
  split; [vm_compute; reflexivity|].
  eexists _, _. split; [vm_compute; reflexivity|].
  split; [vm_compute; reflexivity|].
  split; [vm_compute; discriminate|].
  vm_compute. reflexivity.
Qed.

(** C2, amended.  In a stream that ends well over cumulative snapshots
    (the text, the token ids and the logprobs of each snapshot continue
    those of the snapshot before), the first
    response sent carries the input details and every later one a delta.
    The texts of the deltas, concatenated in the order sent, are the text
    of the last snapshot taken from the engine; and when token details are
    requested, the delta token lists concatenated are the details of that
    snapshot's whole token sequence, one per token. *)
Theorem stream_deltas_complete
    (self : TextGenerationService.t)
    (SamplingParams_verify : SamplingParams.t -> bool)
    (request_id : str) (request : SingleGenerationRequest.t) (now : Q)
    (snapshots : list (RequestOutput.t * Q)) (res : RequestOutput.t) :
  let resp_options :=
    Parameters.response (SingleGenerationRequest.params request) in
  let run :=
    GenerateStream self SamplingParams_verify request_id request now
      snapshots in
  cumulative None snapshots ->
  outcome run = Ok () ->
  last (consumed (effects run)) = Some res ->
  exists first_response deltas output,
    yielded (effects run) = first_response :: deltas
    /\ RequestOutput.outputs res !! 0%nat = Some output
    /\ concat (map GenerationResponse.text deltas)
       = CompletionOutput.text output
    /\ (ResponseOptions.generated_tokens resp_options = true ->
        _convert_tokens self (CompletionOutput.token_ids output)
          (CompletionOutput.logprobs output)
          (ResponseOptions.token_logprobs resp_options)
          (ResponseOptions.token_ranks resp_options)
          (ResponseOptions.top_n_tokens resp_options) [] 0
        = Ok (concat (map GenerationResponse.tokens deltas))
        /\ map TokenInfo.text (concat (map GenerationResponse.tokens deltas))
           = TextGenerationService.convert_ids_to_tokens self
               (CompletionOutput.token_ids output)).
Proof.
  intros resp_options run Hcum Hrun.
  destruct (GenerateStream_Ok _ _ _ _ _ _ Hrun)
    as (sp & dl & sp' & ids & flag & _ & _ & Heff & Hloop).
  cbv zeta in Heff, Hloop. fold run in Heff. fold resp_options in Heff, Hloop.
  rewrite Heff. clear Heff Hrun run. rewrite consumed_cons, yielded_cons.
  destruct snapshots as [|[r1 t1] rest]; [discriminate|].
  revert Hloop. rewrite stream_loop_cons. cbv zeta.
  destruct (_ ← _convert_input_details _ _ _ _ _; _) as [ys|e] eqn:Eys;
    [|discriminate].
  apply (first_response_Ok _ _ _ _ true) in Eys as (rs & -> & Hrs).
  destruct rs as [|fr [|? ?]]; try discriminate. clear Hrs.
  cbn [cumulative] in Hcum.
  destruct (RequestOutput.outputs r1 !! 0%nat) as [output1|] eqn:Eo;
    [|discriminate].
  destruct Hcum as [_ Hcum].
  destruct (_convert_output _ _ _ _ _ _ _) as [response1|e] eqn:Er;
    [|discriminate].
  apply convert_output_Ok in Er as (Htext & _ & _ & Htok).
  rewrite drop_0 in Htext.
  assert (forall final deltas,
    concat (map GenerationResponse.text deltas) = CompletionOutput.text final
    -> (ResponseOptions.generated_tokens resp_options = true ->
        _convert_tokens self (CompletionOutput.token_ids final)
          (CompletionOutput.logprobs final)
          (ResponseOptions.token_logprobs resp_options)
          (ResponseOptions.token_ranks resp_options)
          (ResponseOptions.top_n_tokens resp_options) [] 0
        = Ok (concat (map GenerationResponse.tokens deltas)))
    -> concat (map GenerationResponse.text deltas)
       = CompletionOutput.text final
       /\ (ResponseOptions.generated_tokens resp_options = true ->
           _convert_tokens self (CompletionOutput.token_ids final)
             (CompletionOutput.logprobs final)
             (ResponseOptions.token_logprobs resp_options)
             (ResponseOptions.token_ranks resp_options)
             (ResponseOptions.top_n_tokens resp_options) [] 0
           = Ok (concat (map GenerationResponse.tokens deltas))
           /\ map TokenInfo.text
                (concat (map GenerationResponse.tokens deltas))
              = TextGenerationService.convert_ids_to_tokens self
                  (CompletionOutput.token_ids final))) as Hfinish.
  { intros final deltas Ht Hk. split; [exact Ht|].
    intros Hgen. split; [auto|].
    eapply convert_tokens_texts; eauto. }
  assert (ResponseOptions.generated_tokens resp_options = true ->
          _convert_tokens self (CompletionOutput.token_ids output1)
            (CompletionOutput.logprobs output1)
            (ResponseOptions.token_logprobs resp_options)
            (ResponseOptions.token_ranks resp_options)
            (ResponseOptions.top_n_tokens resp_options) [] 0
          = Ok (GenerationResponse.tokens response1)) as Htok'.
  { intros Hgen. rewrite Hgen in Htok. exact Htok. }
  destruct (deadline_hit dl t1).
  - intros _. cbn [effects map app].
    rewrite !consumed_cons, !yielded_cons. cbn. intros [= <-].
    exists fr, [response1], output1.
    split; [reflexivity|]. split; [exact Eo|].
    apply Hfinish; cbn; rewrite app_nil_r; auto.
  - cbn [effects outcome map app]. intros Hout.
    rewrite !consumed_cons, !yielded_cons.
    destruct (stream_loop_deltas _ _ _ _ _ _ _ _ _ _ Hcum Htok' Hout)
      as (final & Hfin & Ht & Hk).
    rewrite last_cons. intros Hlast.
    eexists fr, (response1 :: _), final.
    split; [reflexivity|]. split.
    { destruct (last (consumed _)) as [r|].
      - injection Hlast as <-. exact Hfin.
      - injection Hlast as <-. rewrite Eo. exact Hfin. }
    apply Hfinish; cbn [map concat].
    + rewrite Htext. exact Ht.
    + exact Hk.
Qed.

Lemma stream_deltas_complete_witness :
  exists first_response deltas,
    yielded (effects
      (GenerateStream ex_service ex_verify ex_request_id
         (ex_single (ex_stopping 0 0 0 []) (ex_options true false 0)) 0
         ex_stream))
    = first_response :: deltas
    /\ concat (map GenerationResponse.text deltas) = str_of_string "xyz"
    /\ map TokenInfo.text (concat (map GenerationResponse.tokens deltas))
       = [[120%N]; [121%N]; [122%N]].
Proof.
  destruct (stream_deltas_complete ex_service ex_verify ex_request_id
    (ex_single (ex_stopping 0 0 0 []) (ex_options true false 0)) 0
    ex_stream
    (ex_snapshot [104; 105] (str_of_string "xyz") [120; 121; 122]
       (Some (str_of_string "length")))
    ltac:(vm_compute; repeat split; reflexivity)
    ltac:(vm_compute; reflexivity)
    ltac:(vm_compute; reflexivity))
    as (fr & deltas & output & Hy & Ho & Ht & Hk).
  injection Ho as <-.
  exists fr, deltas. split; [exact Hy|]. split; [exact Ht|].
  exact (proj2 (Hk eq_refl)).
Defined.

(** ** The batch orchestrator *)

Lemma all_set_lookup {A} (responses : list (option A)) :
  all_set responses = true
  <-> forall j, (j < length responses)%nat -> is_Some (responses !! j ≫= id).
Proof.
  unfold all_set. induction responses as [|r rs IH]; cbn.
  - split; [intros _ j Hj; lia | auto].
  - rewrite andb_true_iff, IH, bool_decide_eq_true. split.
    + intros [Hr Hrs] [|j] Hj; cbn; [exact Hr | apply Hrs; lia].
    + intros H. split; [apply (H 0%nat); lia|].
      intros j Hj. apply (H (S j)). lia.
Qed.

Lemma latest_cons (j i : nat) (r : RequestOutput.t) (t : Q)
    (evs : list (nat * RequestOutput.t * Q)) :
  latest j ((i, r, t) :: evs)
  = match latest j evs with
    | Some s => Some s
    | None => if decide (i = j) then Some r else None
    end.
Proof.
  unfold latest. simpl.
  destruct (decide (i = j)); [rewrite last_cons|]; destruct (last _);
    reflexivity.
Qed.

(** Filling the response slots item by item leaves in slot [j] the latest
    snapshot of member [j]. *)
Lemma collect_lookup (events : list (nat * RequestOutput.t * Q)) :
  forall (responses : list (option RequestOutput.t)) (j : nat),
  Forall (fun ev => (ev.1.1 < length responses)%nat) events ->
  foldl (fun rs ev => <[ev.1.1:=Some ev.1.2]> rs) responses events !! j
  = match latest j events with
    | Some s => Some (Some s)
    | None => responses !! j
    end.
Proof.
  induction events as [|[[i r] t] evs IH]; intros rs j Hev; [reflexivity|].
  apply Forall_cons in Hev as [Hi Hev]. cbn in Hi.
  cbn [foldl]. rewrite IH by (by rewrite length_insert).
  rewrite latest_cons. cbn [fst snd].
  destruct (latest j evs); [reflexivity|].
  destruct (decide (i = j)) as [->|Hne].
  - by rewrite list_lookup_insert_eq.
  - by rewrite list_lookup_insert_ne.
Qed.

Lemma collect_length (events : list (nat * RequestOutput.t * Q)) :
  forall responses : list (option RequestOutput.t),
  length (foldl (fun rs ev => <[ev.1.1:=Some ev.1.2]> rs) responses events)
  = length responses.
Proof.
  induction events as [|ev evs IH]; intros rs; [reflexivity|].
  cbn. by rewrite IH, length_insert.
Qed.

Section batch_facts.
Variable self : TextGenerationService.t.
Variable request_id : str.
Variable deadline : option Q.
Variable request_count : nat.

(** One turn of the loop at lines 130-142, spelled out by cases. *)
Lemma batch_loop_cons (responses : list (option RequestOutput.t))
    (i : nat) (res : RequestOutput.t) (now : Q)
    (rest : list (nat * RequestOutput.t * Q)) :
  batch_loop request_id deadline request_count responses
    ((i, res, now) :: rest)
  = let next := EngineNext (Member request_id i) res in
    match setitem responses i (Some res) with
    | Raise e => Traced [next] (Raise e)
    | Ok responses =>
        if deadline_hit deadline now && all_set responses
        then Traced (next :: abort_all request_id request_count)
               (Ok (responses, true))
        else
          let r :=
            batch_loop request_id deadline request_count responses rest in
          Traced (next :: effects r) (outcome r)
    end.
Proof.
  cbn [batch_loop]. cbv zeta.
  unfold mbind, traced_bind, result_bind, mret, traced_ret, tell, lift.
  destruct (setitem responses i (Some res)) as [rs|e]; cbn; [|reflexivity].
  destruct (deadline_hit deadline now && all_set rs); reflexivity.
Qed.

(** The loop stops at the first item at which the deadline is exceeded
    and every slot is filled, after an abort for every index. *)
Lemma batch_loop_deadline (pre : list (nat * RequestOutput.t * Q))
    (i : nat) (res : RequestOutput.t) (now : Q)
    (post : list (nat * RequestOutput.t * Q)) :
  forall responses : list (option RequestOutput.t),
  let events := pre ++ [(i, res, now)] in
  let filled :=
    foldl (fun rs ev => <[ev.1.1:=Some ev.1.2]> rs) responses events in
  Forall (fun ev => deadline_hit deadline ev.2 = false) pre ->
  Forall (fun ev => (ev.1.1 < length responses)%nat) events ->
  deadline_hit deadline now = true ->
  all_set filled = true ->
  batch_loop request_id deadline request_count responses
    (pre ++ (i, res, now) :: post)
  = Traced
      (map (fun ev => EngineNext (Member request_id ev.1.1) ev.1.2) events
       ++ abort_all request_id request_count)
      (Ok (filled, true)).
Proof.
  induction pre as [|[[i1 r1] t1] pre IH]; intros rs events filled Hpre Hidx
    Hnow Hall; subst events filled; cbn [app] in *; rewrite batch_loop_cons;
    cbv zeta; unfold setitem.
  - apply Forall_cons in Hidx as [Hi _]. cbn in Hi.
    rewrite decide_True by exact Hi. cbn [foldl fst snd] in Hall.
    rewrite Hnow, Hall. reflexivity.
  - apply Forall_cons in Hidx as [Hi Hidx]. cbn in Hi.
    apply Forall_cons in Hpre as [Ht Hpre]. cbn in Ht.
    rewrite decide_True by exact Hi. rewrite Ht. cbn [andb].
    rewrite IH; [reflexivity | exact Hpre | | exact Hnow | exact Hall].
    by rewrite length_insert.
Qed.

End batch_facts.

(** What [_convert_input_details] changes in a response and what it
    leaves alone. *)
Lemma convert_input_details_Ok (self : TextGenerationService.t)
    (result : RequestOutput.t) (resp_options : ResponseOptions.t)
    (sampling_params : SamplingParams.t)
    (response r : GenerationResponse.t) :
  _convert_input_details self result resp_options sampling_params response
  = Ok r ->
  GenerationResponse.input_token_count r
  = length (RequestOutput.prompt_token_ids result)
  /\ GenerationResponse.generated_token_count r
     = GenerationResponse.generated_token_count response
  /\ GenerationResponse.stop_reason r = GenerationResponse.stop_reason response
  /\ GenerationResponse.stop_sequence r
     = GenerationResponse.stop_sequence response
  /\ GenerationResponse.tokens r = GenerationResponse.tokens response
  /\ GenerationResponse.seed r
     = match SamplingParams.seed sampling_params with
       | Some seed => Some seed
       | None => GenerationResponse.seed response
       end.
Proof.
  unfold _convert_input_details. intros H.
  apply bind_Ok in H as (input_tokens & _ & H).
  apply bind_Ok in H as (text & _ & H).
  injection H as <-. cbn. auto 10.
Qed.

Lemma assemble_loop_Ok (self : TextGenerationService.t)
    (request : BatchedGenerationRequest.t) (resp_options : ResponseOptions.t)
    (sampling_params : SamplingParams.t) (flags : list bool) (tlr : bool)
    (responses : list (option RequestOutput.t)) :
  forall (i : nat) (out : list GenerationResponse.t),
  assemble_loop self request resp_options sampling_params flags tlr i
    responses = Ok out ->
  length out = length responses
  /\ forall k response, out !! k = Some response ->
       exists res output flag,
         responses !! k = Some (Some res)
         /\ RequestOutput.outputs res !! 0%nat = Some output
         /\ flags !! (i + k)%nat = Some flag
         /\ (GenerationResponse.stop_reason response,
             GenerationResponse.stop_sequence response)
            = _convert_reason output flag tlr.
Proof.
  induction responses as [|slot rest IH]; intros i out H; cbn in H.
  - injection H as <-. split; [reflexivity|]. intros k r Hk.
    by rewrite lookup_nil in Hk.
  - apply bind_Ok in H as (res & Hres & H).
    destruct slot as [res'|]; [|discriminate]. injection Hres as ->.
    apply bind_Ok in H as (text & _ & H).
    apply bind_Ok in H as (output & Ho & H).
    apply bind_Ok in H as (flag & Hf & H).
    apply bind_Ok in H as (response0 & Hr0 & H).
    apply bind_Ok in H as (response & Hr & H).
    apply bind_Ok in H as (others & Hrest & H). injection H as <-.
    apply IH in Hrest as [Hlen Hat]. split; [cbn; congruence|].
    unfold getitem in Ho, Hf. cbn in Ho.
    destruct (RequestOutput.outputs res !! 0%nat) as [o|] eqn:Eo;
      [|discriminate].
    injection Ho as ->.
    destruct (flags !! i) as [f|] eqn:Ef; [|discriminate].
    injection Hf as ->.
    intros [|k] r Hk; cbn in Hk.
    + injection Hk as <-. exists res, output, flag.
      rewrite Nat.add_0_r. repeat split; auto.
      apply convert_output_Ok in Hr0 as (_ & _ & Hr0 & _).
      apply convert_input_details_Ok in Hr as (_ & _ & -> & -> & _).
      exact Hr0.
    + apply Hat in Hk as (res' & o' & f' & ? & ? & Hf' & ?).
      exists res', o', f'. repeat split; auto.
      rewrite <- Hf'. f_equal. lia.
Qed.

(** A batch call that ends well has passed validation and the
    preparation of every prompt, has started the engine on every member,
    has run the merge loop and assembled what the loop collected. *)
Lemma Generate_Ok (self : TextGenerationService.t)
    (SamplingParams_verify : SamplingParams.t -> bool)
    (request_id : str) (request : BatchedGenerationRequest.t) (now : Q)
    (merged : list (nat * RequestOutput.t * Q))
    (out : list GenerationResponse.t) :
  outcome (Generate self SamplingParams_verify request_id request now merged)
  = Ok out ->
  exists sp dl sp' gens flags responses tlr,
    let params := BatchedGenerationRequest.params request in
    let request_count :=
      length (BatchedGenerationRequest.requests request) in
    let loop :=
      batch_loop request_id dl request_count (replicate request_count None)
        merged in
    _validate_and_convert_params self SamplingParams_verify params now
    = Ok (sp, dl)
    /\ prepare_loop self request_id
         (with_default_None (Parameters.truncate_input_tokens params)) 0
         (BatchedGenerationRequest.requests request) sp []
         (replicate request_count false)
       = Ok (sp', gens, flags)
    /\ outcome loop = Ok (responses, tlr)
    /\ effects (Generate self SamplingParams_verify request_id request now
                  merged)
       = map (fun g => EngineGenerate g.1 sp' g.2) gens ++ effects loop
    /\ assemble_loop self request (Parameters.response params) sp' flags tlr
         0 responses = Ok out.
Proof.
  unfold Generate.
  destruct (_validate_and_convert_params _ _ _ now) as [[sp dl]|e] eqn:Ev;
    [|discriminate].
  cbn.
  destruct (engine_calls _ _ _ _ _ _ _) as [shared calls] eqn:Ec.
  destruct (prepare_loop _ _ _ _ _ _ _ _) as [[[sp' gens] flags]|e] eqn:Ep;
    [|discriminate].
  rewrite (engine_calls_Ok _ _ _ _ _ _ _ _ _ _ _ Ep) in Ec.
  injection Ec as <- <-.
  cbn.
  destruct (batch_loop _ _ _ _ _) as [es [[responses tlr]|e]] eqn:Eb;
    [|discriminate].
  cbn. intros H. exists sp, dl, sp', gens, flags, responses, tlr. cbn.
  rewrite Eb. cbn. rewrite app_nil_r. auto 10.
Qed.

(** C1 as stated does not hold: in the batch [ex_batch_timed] the
    deadline is found exceeded at the second item, when both members have
    produced a snapshot; an abort is issued for each index and no response
    is left unset, but member 0, whose snapshot had already finished by
    length, reports TOKEN_LIMIT, not TIME_LIMIT. *)
Lemma batch_deadline_finished_member_keeps_reason :
  let run :=
    Generate ex_service ex_verify ex_request_id ex_batch_timed 0
      ex_merged_timed in
  aborted (effects run) = [Member ex_request_id 0; Member ex_request_id 1]
  /\ exists r0 r1,
       outcome run = Ok [r0; r1]
       /\ GenerationResponse.stop_reason r0 = TOKEN_LIMIT
       /\ GenerationResponse.stop_reason r0 <> TIME_LIMIT
       /\ GenerationResponse.stop_reason r1 = TIME_LIMIT.
Proof.
  split; [vm_compute; reflexivity|].
  eexists _, _. split; [vm_compute; reflexivity|].
  cbn. repeat split; [discriminate].
Qed.

(** C1, amended.  In a batch call with a time limit that ends well, let
    the deadline be found exceeded for the first time at an item of the
    merged stream by which every member has produced a snapshot.  Then an
    abort is issued for every request index, in order; there is one
    response per member; and the response of each member is built from
    the member's latest snapshot: it reports TIME_LIMIT when that
    snapshot has no finish reason, and otherwise the stop reason of the
    snapshot's own finish reason. *)
Theorem batch_deadline_aborts_all
    (self : TextGenerationService.t)
    (SamplingParams_verify : SamplingParams.t -> bool)
    (request_id : str) (request : BatchedGenerationRequest.t) (now0 : Q)
    (pre : list (nat * RequestOutput.t * Q))
    (i : nat) (res : RequestOutput.t) (now : Q)
    (post : list (nat * RequestOutput.t * Q))
    (responses : list GenerationResponse.t) :
  let request_count := length (BatchedGenerationRequest.requests request) in
  let time_limit_millis :=
    StoppingCriteria.time_limit_millis
      (Parameters.stopping (BatchedGenerationRequest.params request)) in
  let d := (now0 + inject_Z (Z.of_N time_limit_millis) / 1000)%Q in
  let events := pre ++ [(i, res, now)] in
  let run :=
    Generate self SamplingParams_verify request_id request now0
      (pre ++ (i, res, now) :: post) in
  (0 < time_limit_millis)%N ->
  Forall (fun ev => (ev.2 < d)%Q) pre ->
  (d <= now)%Q ->
  Forall (fun ev => (ev.1.1 < request_count)%nat) events ->
  (forall j, (j < request_count)%nat -> is_Some (latest j events)) ->
  outcome run = Ok responses ->
  aborted (effects run) = map (Member request_id) (seq 0 request_count)
  /\ consumed (effects run) = map (fun ev => ev.1.2) events
  /\ length responses = request_count
  /\ forall j response,
       responses !! j = Some response ->
       exists snapshot output,
         latest j events = Some snapshot
         /\ RequestOutput.outputs snapshot !! 0%nat = Some output
         /\ (CompletionOutput.finish_reason output = None ->
             GenerationResponse.stop_reason response = TIME_LIMIT)
         /\ exists max_is_token_limit,
              (GenerationResponse.stop_reason response,
               GenerationResponse.stop_sequence response)
              = _convert_reason output max_is_token_limit true.
Proof.
  intros request_count time_limit_millis d events run Hms Hpre Hnow Hidx
    Hseen Hrun.
  destruct (Generate_Ok _ _ _ _ _ _ _ Hrun)
    as (sp & dl & sp' & gens & flags & slots & tlr & Hv & _ & Hloop & Heff
        & Hasm).
  cbv zeta in Hloop, Heff, Hasm. fold request_count in Hloop, Heff.
  fold run in Heff.
  apply validate_Ok, convert_params_deadline in Hv. cbv zeta in Hv.
  fold time_limit_millis in Hv.
  apply N.ltb_lt in Hms. rewrite Hms in Hv. fold d in Hv. subst dl.
  set (filled :=
    foldl (fun rs ev => <[ev.1.1:=Some ev.1.2]> rs)
      (replicate request_count None) events).
  assert (forall j, filled !! j
            = match latest j events with
              | Some s => Some (Some s)
              | None => replicate request_count None !! j
              end) as Hfilled.
  { intros j. apply collect_lookup. by rewrite length_replicate. }
  assert (length filled = request_count) as Hlen.
  { unfold filled. by rewrite collect_length, length_replicate. }
  assert (batch_loop request_id (Some d) request_count
            (replicate request_count None) (pre ++ (i, res, now) :: post)
          = Traced
              (map (fun ev => EngineNext (Member request_id ev.1.1) ev.1.2)
                 events
               ++ abort_all request_id request_count)
              (Ok (filled, true))) as Hb.
  { apply batch_loop_deadline.
    - eapply Forall_impl; [exact Hpre|]. intros ev Hev. cbn in *.
      destruct (Qle_bool d ev.2) eqn:E; [|reflexivity].
      apply Qle_bool_iff in E. exfalso. eapply Qlt_not_le; eassumption.
    - by rewrite length_replicate.
    - cbn. apply Qle_bool_iff, Hnow.
    - apply all_set_lookup. fold events filled. rewrite Hlen.
      intros j Hj. rewrite Hfilled.
      destruct (Hseen j Hj) as [s ->]. by exists s. }
  rewrite Hb in Hloop, Heff. cbn [outcome effects] in Hloop, Heff.
  injection Hloop as <- <-.
  apply assemble_loop_Ok in Hasm as [Hlen' Hat].
  destruct (observe_EngineGenerate sp' gens) as (Ha1 & Hc1 & _).
  destruct (observe_EngineNext request_id events) as (Ha2 & Hc2).
  destruct (observe_abort_all request_id request_count) as (Ha3 & Hc3).
  rewrite Heff, !aborted_app, !consumed_app, Ha1, Ha2, Ha3, Hc1, Hc2, Hc3.
  rewrite app_nil_r. cbn [app].
  split; [reflexivity|]. split; [reflexivity|].
  split; [rewrite Hlen'; exact Hlen|].
  intros j response Hj.
  apply Hat in Hj as (snapshot & output & flag & Hs & Ho & _ & Hr).
  exists snapshot, output.
  rewrite Hfilled in Hs.
  destruct (latest j events) as [s|] eqn:El.
  - injection Hs as ->. split; [reflexivity|]. split; [exact Ho|].
    split; [|eauto].
    intros Hfin. unfold _convert_reason in Hr. rewrite Hfin in Hr.
    congruence.
  - apply lookup_replicate in Hs as [? _]. discriminate.
Qed.

Lemma batch_deadline_aborts_all_witness :
  aborted (effects (Generate ex_service ex_verify ex_request_id
                      ex_batch_timed 0 ex_merged_timed))
  = [Member ex_request_id 0; Member ex_request_id 1]
  /\ length (consumed (effects (Generate ex_service ex_verify ex_request_id
                                  ex_batch_timed 0 ex_merged_timed)))
     = 2%nat.
Proof.
  pose proof (batch_deadline_aborts_all ex_service ex_verify ex_request_id
    ex_batch_timed 0
    [(0%nat,
      ex_snapshot [97; 98] (str_of_string "xyz") [120; 121; 122]
        (Some (str_of_string "length")),
      1%Q)]
    1%nat (ex_snapshot [104] (str_of_string "x") [120] None) 2%Q [] _
    ltac:(vm_compute; reflexivity)
    ltac:(repeat constructor)
    ltac:(vm_compute; discriminate)
    ltac:(repeat constructor)
    ltac:(intros [|[|j]] Hj;
          [vm_compute; eauto | vm_compute; eauto | exfalso; cbn in Hj; lia])
    ltac:(vm_compute; reflexivity)) as (Ha & Hc & _).
  split; [exact Ha|].
  change (ex_merged_timed)
    with ([(0%nat,
            ex_snapshot [97; 98] (str_of_string "xyz") [120; 121; 122]
              (Some (str_of_string "length")),
            1%Q)]
          ++ (1%nat, ex_snapshot [104] (str_of_string "x") [120] None, 2%Q)
             :: []).
  rewrite Hc. reflexivity.
Defined.

(** * Further properties *)

(** ** Validation *)

Lemma convert_params_length_penalty (self : TextGenerationService.t)
    (SamplingParams_verify : SamplingParams.t -> bool)
    (params : Parameters.t) (now : Q) (r : SamplingParams.t * option Q) :
  convert_params self SamplingParams_verify params now = Ok r ->
  DecodingParameters.length_penalty (Parameters.decoding params) = None.
Proof.
  unfold convert_params. intros H.
  apply bind_Ok in H as ([] & H & _).
  apply check_Ok, negb_true_iff, bool_decide_eq_false in H.
  destruct (DecodingParameters.length_penalty _); [|reflexivity].
  exfalso. apply H. eauto.
Qed.

(** X1. The validator either returns the converted parameters or aborts with
    invalid-argument: no other exception leaves it. *)
Theorem validator_ok_or_invalid_argument
    (self : TextGenerationService.t)
    (SamplingParams_verify : SamplingParams.t -> bool)
    (params : Parameters.t) (now : Q) :
  (exists sp deadline,
     _validate_and_convert_params self SamplingParams_verify params now
     = Ok (sp, deadline))
  \/ _validate_and_convert_params self SamplingParams_verify params now
     = Raise (AbortError INVALID_ARGUMENT).
Proof.
  destruct (_validate_and_convert_params _ _ params now) as [[sp dl]|e]
    eqn:E.
  - left. eauto.
  - right. apply validate_raises in E. congruence.
Qed.

(** X2. The rejections of lines 278-318.  A request is refused with
    invalid-argument when it carries a length penalty, when its maximum
    exceeds the configured ceiling, when its minimum exceeds its maximum
    (or the ceiling, if no maximum is given), when it has more than 6 stop
    sequences or one that is empty or longer than 240 code points, or when
    it asks for more than 10 alternatives.  A [max_new_tokens] of 0 counts
    as no maximum given. *)
Theorem validator_rejects
    (self : TextGenerationService.t)
    (SamplingParams_verify : SamplingParams.t -> bool)
    (params : Parameters.t) (now : Q) :
  let stopping := Parameters.stopping params in
  let ceiling := TextGenerationService.max_max_new_tokens self in
  let max_new_tokens := Z.of_N (StoppingCriteria.max_new_tokens stopping) in
  let min_new_tokens := Z.of_N (StoppingCriteria.min_new_tokens stopping) in
  let stop_sequences := StoppingCriteria.stop_sequences stopping in
  is_Some (DecodingParameters.length_penalty (Parameters.decoding params))
  \/ (0 < max_new_tokens /\ ceiling < max_new_tokens)
  \/ (0 < max_new_tokens /\ max_new_tokens < min_new_tokens)
  \/ (max_new_tokens = 0 /\ 0 < min_new_tokens /\ ceiling < min_new_tokens)
  \/ (6 < length stop_sequences)%nat
  \/ Exists (fun ss => length ss = 0%nat \/ (240 < length ss)%nat)
       stop_sequences
  \/ (10 < ResponseOptions.top_n_tokens (Parameters.response params))%N ->
  _validate_and_convert_params self SamplingParams_verify params now
  = Raise (AbortError INVALID_ARGUMENT).
Proof.
  intros stopping ceiling max_new_tokens min_new_tokens stop_sequences H.
  destruct (_validate_and_convert_params _ _ params now) as [[sp dl]|e]
    eqn:E; [|apply validate_raises in E; congruence].
  exfalso. apply validate_Ok in E.
  pose proof (convert_params_length_penalty _ _ _ _ _ E) as Hlp.
  apply convert_params_Ok in E.
  destruct E as (Hmax & Hceil & Hmin & Hle & Hstop & Htop & _).
  fold stopping in Hmax, Hceil, Hmin, Hle, Hstop.
  fold ceiling max_new_tokens in Hceil. fold ceiling in Hle.
  apply stop_sequences_invalid_false in Hstop as [Hcount Heach].
  fold stop_sequences in Hcount, Heach.
  unfold MAX_STOP_SEQS, MAX_STOP_SEQ_LENGTH, MAX_TOP_N_TOKENS in *.
  rewrite Hmax, Hmin in Hle. fold min_new_tokens in Hle.
  destruct H as [H|[H|[H|[H|[H|[H|H]]]]]].
  - rewrite Hlp in H. by destruct H.
  - destruct H as [H1 H2]. specialize (Hceil ltac:(lia)). lia.
  - destruct H as [H1 H2].
    assert ((0 <? StoppingCriteria.max_new_tokens stopping)%N = true) as E
      by (apply N.ltb_lt; lia).
    rewrite E in Hle. fold max_new_tokens in Hle. lia.
  - destruct H as (H1 & H2 & H3).
    assert ((0 <? StoppingCriteria.max_new_tokens stopping)%N = false) as E
      by (apply N.ltb_ge; lia).
    rewrite E in Hle. lia.
  - lia.
  - apply Exists_exists in H as (ss & Hin & Hss).
    rewrite Forall_forall in Heach. specialize (Heach ss Hin). lia.
  - lia.
Qed.

Lemma validator_rejects_witness :
  _validate_and_convert_params ex_service ex_verify
    (ex_params (ex_stopping 9 0 0 []) (ex_options false false 0)) 0
  = Raise (AbortError INVALID_ARGUMENT)
  /\ _validate_and_convert_params ex_service ex_verify
       (ex_params (ex_stopping 2 3 0 []) (ex_options false false 0)) 0
     = Raise (AbortError INVALID_ARGUMENT)
  /\ _validate_and_convert_params ex_service ex_verify
       (ex_params (ex_stopping 0 0 0 [str_of_string "a"; []])
          (ex_options false false 0)) 0
     = Raise (AbortError INVALID_ARGUMENT).
Proof.
  split; [|split].
  - apply (validator_rejects ex_service ex_verify
             (ex_params (ex_stopping 9 0 0 []) (ex_options false false 0)) 0).
    right. left. vm_compute. split; reflexivity.
  - apply (validator_rejects ex_service ex_verify
             (ex_params (ex_stopping 2 3 0 []) (ex_options false false 0)) 0).
    right. right. left. vm_compute. split; reflexivity.
  - apply (validator_rejects ex_service ex_verify
             (ex_params (ex_stopping 0 0 0 [str_of_string "a"; []])
                (ex_options false false 0)) 0).
    do 5 right. left. apply Exists_cons_tl, Exists_cons_hd. left.
    reflexivity.
Defined.

(** X3. The stop sequences of an accepted request: at most 6, each of 1 to
    240 code points, and the ones the sampling parameters are built with:
    their stop list, an absent one read as the empty list, is the
    request's list, unchanged and in order. *)
Theorem accepted_stop_sequences
    (self : TextGenerationService.t)
    (SamplingParams_verify : SamplingParams.t -> bool)
    (params : Parameters.t) (now : Q) (sp : SamplingParams.t)
    (deadline : option Q) :
  let stop_sequences :=
    StoppingCriteria.stop_sequences (Parameters.stopping params) in
  _validate_and_convert_params self SamplingParams_verify params now
  = Ok (sp, deadline) ->
  (length stop_sequences <= 6)%nat
  /\ Forall (fun ss => (1 <= length ss <= 240)%nat) stop_sequences
  /\ default [] (SamplingParams.stop sp) = stop_sequences.
Proof.
  intros stop_sequences E. apply validate_Ok in E.
  pose proof (convert_params_Ok _ _ _ _ _ _ E)
    as (_ & _ & _ & _ & Hstop & _).
  apply stop_sequences_invalid_false in Hstop as [Hcount Heach].
  split; [exact Hcount|]. split; [exact Heach|].
  unfold convert_params in E.
  apply bind_Ok in E as ([] & _ & E).
  apply bind_Ok in E as (max_new_tokens & _ & E).
  apply bind_Ok in E as ([] & _ & E).
  apply bind_Ok in E as ([] & _ & E).
  apply bind_Ok in E as (logprobs & _ & E).
  apply bind_Ok in E as ([] & _ & E).
  injection E as <- _. cbn. fold stop_sequences.
  by destruct stop_sequences.
Qed.

Lemma accepted_stop_sequences_witness :
  exists sp deadline,
    _validate_and_convert_params ex_service ex_verify
      (ex_params (ex_stopping 0 0 0 [str_of_string "stop"])
         (ex_options false false 0)) 0
    = Ok (sp, deadline)
    /\ default [] (SamplingParams.stop sp) = [str_of_string "stop"].
Proof.
  eexists _, _. split; [vm_compute; reflexivity|].
  apply (accepted_stop_sequences ex_service ex_verify
           (ex_params (ex_stopping 0 0 0 [str_of_string "stop"])
              (ex_options false false 0)) 0 _ None).
  vm_compute. reflexivity.
Defined.

(** ** Prompt preparation *)

(** X4. An accepted prompt leaves a maximum that fits the context window
    next to the prompt, whatever the sampling parameters it was given;
    a maximum already set is never raised, and is flagged implicit exactly
    when it is lowered; nothing but the maximum is changed. *)
Theorem prepared_budget_fits_window
    (self : TextGenerationService.t) (sp : SamplingParams.t)
    (truncate : option N) (prompt : str) (sp' : SamplingParams.t)
    (input_ids : list Z) (flag : bool) :
  _validate_prompt_and_tokenize self sp truncate prompt
  = Ok (sp', (input_ids, flag)) ->
  exists m,
    sp' = SamplingParams.set_max_tokens sp m
    /\ Z.of_nat (length input_ids) + m
       <= TextGenerationService.max_model_len self
    /\ (forall m0, SamplingParams.max_tokens sp = Some m0 ->
        m <= m0 /\ (flag = false <-> m = m0))
    /\ (SamplingParams.max_tokens sp = None -> flag = true).
Proof.
  intros H. apply prepare_Ok in H as (_ & H1 & H2 & _ & H).
  cbv zeta in *.
  destruct (SamplingParams.max_tokens sp) as [m0|] eqn:Em.
  - destruct (_ <? _) eqn:E.
    + apply Z.ltb_lt in E. destruct H as [-> ->].
      eexists. split; [reflexivity|]. split; [lia|].
      split; [|discriminate].
      intros ? [= <-]. split; [lia|]. split; [discriminate | lia].
    + apply Z.ltb_ge in E. destruct H as [-> ->]. exists m0.
      split.
      { clear -Em. destruct sp. unfold SamplingParams.set_max_tokens.
        cbn in *. by rewrite Em. }
      split; [lia|].
      split; [|discriminate].
      intros ? [= <-]. split; [lia | tauto].
  - destruct H as [-> ->].
    eexists. split; [reflexivity|]. split; [lia|].
    split; [discriminate | reflexivity].
Qed.

Lemma prepared_budget_fits_window_witness :
  exists sp' m,
    _validate_prompt_and_tokenize ex_service
      (SamplingParams.mk None None (Some 6) 0 0 (-1) 1 None 1 None None
         false true)
      None (str_of_string "abcdefg")
    = Ok (sp', ([97; 98; 99; 100; 101; 102; 103], true))
    /\ sp' = SamplingParams.mk None None (Some m) 0 0 (-1) 1 None 1 None
               None false true
    /\ 7 + m <= 10.
Proof.
  destruct (prepared_budget_fits_window ex_service
    (SamplingParams.mk None None (Some 6) 0 0 (-1) 1 None 1 None None
       false true)
    None (str_of_string "abcdefg") _ _ _
    ltac:(vm_compute; reflexivity)) as (m & Hsp & Hfit & _).
  eexists _, m. split; [vm_compute; reflexivity|].
  split; [exact Hsp | exact Hfit].
Defined.

Section batch_preparation_facts.
Variable self : TextGenerationService.t.
Variable request_id : str.
Variable truncate : option N.

(** The generators and flags a successful preparation of a batch leaves:
    one generator per prompt, under the member's id and with the prompt's
    own tokens, in request order. *)
Lemma prepare_loop_generators (requests : list str) :
  forall i sp gens flags sp' gens' flags',
  prepare_loop self request_id truncate i requests sp gens flags
  = Ok (sp', gens', flags') ->
  gens'
  = gens
    ++ zip (map (Member request_id) (seq i (length requests)))
         (map (fun text =>
                 TextGenerationService.encode_async self text truncate)
            requests)
  /\ length flags' = length flags
  /\ SamplingParams.min_tokens sp' = SamplingParams.min_tokens sp.
Proof.
  induction requests as [|text rest IH]; intros i sp gens flags sp' gens'
    flags' H; cbn in H.
  - injection H as <- <- <-. by rewrite app_nil_r.
  - apply bind_Ok in H as ([sp1 [ids flag]] & Hp & H).
    apply prepare_Ok in Hp as (-> & _ & _ & Hmin & _).
    apply IH in H as (-> & Hlen & Hmin').
    rewrite length_insert in Hlen. rewrite <- app_assoc.
    split; [reflexivity|]. split; [exact Hlen | congruence].
Qed.

(** Once a maximum is set, later preparations only lower it, and every
    prompt prepared fits the window next to the final maximum. *)
Lemma prepare_loop_budget (requests : list str) :
  forall i sp gens flags sp' gens' flags' m0,
  SamplingParams.max_tokens sp = Some m0 ->
  prepare_loop self request_id truncate i requests sp gens flags
  = Ok (sp', gens', flags') ->
  exists m,
    SamplingParams.max_tokens sp' = Some m
    /\ m <= m0
    /\ Forall
         (fun text =>
            Z.of_nat (length (TextGenerationService.encode_async self text
                                truncate)) + m
            <= TextGenerationService.max_model_len self)
         requests.
Proof.
  induction requests as [|text rest IH]; intros i sp gens flags sp' gens'
    flags' m0 Hm0 H; cbn in H.
  - injection H as <- <- <-. exists m0. split; [exact Hm0|].
    split; [lia | constructor].
  - apply bind_Ok in H as ([sp1 [ids flag]] & Hp & H).
    apply prepare_Ok in Hp as (-> & H1 & H2 & _ & Hp). cbv zeta in *.
    rewrite Hm0 in Hp.
    assert (exists m1,
              SamplingParams.max_tokens sp1 = Some m1 /\ m1 <= m0
              /\ Z.of_nat (length (TextGenerationService.encode_async self
                                     text truncate)) + m1
                 <= TextGenerationService.max_model_len self)
      as (m1 & Hm1 & Hle & Hfit).
    { destruct (_ <? _) eqn:E; destruct Hp as [-> _].
      - apply Z.ltb_lt in E. eexists. split; [reflexivity|]. lia.
      - apply Z.ltb_ge in E. exists m0. split; [exact Hm0|]. lia. }
    destruct (IH _ _ _ _ _ _ _ _ Hm1 H) as (m & Hm & Hle' & Hrest).
    exists m. split; [exact Hm|]. split; [lia|].
    constructor; [lia | exact Hrest].
Qed.

End batch_preparation_facts.

(** X5. The preparation of a non-empty batch ends with one maximum for all
    members, and every member's prompt fits the context window next to
    it; the generators are the members in request order, each with its
    own prompt tokens, and there is one flag per member. *)
Theorem batch_budget_fits_window
    (self : TextGenerationService.t) (request_id : str)
    (truncate : option N) (requests : list str) (sp sp' : SamplingParams.t)
    (gens : list (engine_request * list Z)) (flags : list bool) :
  requests <> [] ->
  prepare_loop self request_id truncate 0 requests sp []
    (replicate (length requests) false) = Ok (sp', gens, flags) ->
  gens
  = zip (map (Member request_id) (seq 0 (length requests)))
      (map (fun text =>
              TextGenerationService.encode_async self text truncate)
         requests)
  /\ length flags = length requests
  /\ exists m,
       SamplingParams.max_tokens sp' = Some m
       /\ Forall
            (fun text =>
               Z.of_nat (length (TextGenerationService.encode_async self
                                   text truncate)) + m
               <= TextGenerationService.max_model_len self)
            requests.
Proof.
  intros Hne H.
  pose proof (prepare_loop_generators _ _ _ _ _ _ _ _ _ _ _ H)
    as (Hg & Hf & _).
  rewrite length_replicate in Hf. split; [exact Hg|]. split; [exact Hf|].
  destruct requests as [|text rest]; [congruence|]. cbn in H.
  apply bind_Ok in H as ([sp1 [ids flag]] & Hp & H).
  apply prepare_Ok in Hp as (-> & H1 & H2 & _ & Hp). cbv zeta in *.
  assert (exists m1,
            SamplingParams.max_tokens sp1 = Some m1
            /\ Z.of_nat (length (TextGenerationService.encode_async self
                                   text truncate)) + m1
               <= TextGenerationService.max_model_len self)
    as (m1 & Hm1 & Hfit).
  { destruct (SamplingParams.max_tokens sp) as [m0|] eqn:Em.
    - destruct (_ <? _) eqn:E; destruct Hp as [-> _].
      + eexists. split; [reflexivity|]. lia.
      + apply Z.ltb_ge in E. exists m0. split; [exact Em|]. lia.
    - destruct Hp as [-> _]. eexists. split; [reflexivity|]. lia. }
  destruct (prepare_loop_budget _ _ _ _ _ _ _ _ _ _ _ _ Hm1 H)
    as (m & Hm & Hle & Hrest).
  exists m. split; [exact Hm|]. constructor; [lia | exact Hrest].
Qed.

Lemma batch_budget_fits_window_witness :
  exists sp' gens flags m,
    prepare_loop ex_service ex_request_id None 0
      [str_of_string "h"; str_of_string "abcdefg"]
      (SamplingParams.mk None None None 0 0 (-1) 1 None 1 None None false
         true)
      [] [false; false] = Ok (sp', gens, flags)
    /\ SamplingParams.max_tokens sp' = Some m
    /\ length flags = 2%nat.
Proof.
  destruct (batch_budget_fits_window ex_service ex_request_id None
    [str_of_string "h"; str_of_string "abcdefg"]
    (SamplingParams.mk None None None 0 0 (-1) 1 None 1 None None false
       true)
    _ _ _
    ltac:(discriminate)
    ltac:(vm_compute; reflexivity)) as (_ & Hf & m & Hm & _).
  eexists _, _, _, m. split; [vm_compute; reflexivity|].
  split; [exact Hm | exact Hf].
Defined.

(** ** The token detail converter *)

Section converter_facts.
Variable self : TextGenerationService.t.
Variables incl ranks : bool.
Variable n : N.

Lemma tokens_loop_None (token_ids : list Z) (texts : list str) :
  forall i,
  tokens_loop self token_ids None incl ranks n i texts
  = Ok (map (fun text => TokenInfo.mk text None None []) texts).
Proof.
  induction texts as [|text rest IH]; intros i; cbn; [reflexivity|].
  by rewrite IH.
Qed.

Lemma tokens_loop_split (token_ids : list Z)
    (ll : option (list (option LogprobDict))) (texts1 texts2 : list str) :
  forall i out,
  tokens_loop self token_ids ll incl ranks n i (texts1 ++ texts2) = Ok out ->
  exists out1 out2,
    out = out1 ++ out2
    /\ tokens_loop self token_ids ll incl ranks n i texts1 = Ok out1
    /\ tokens_loop self token_ids ll incl ranks n (i + length texts1) texts2
       = Ok out2.
Proof.
  induction texts1 as [|text rest IH]; intros i out H; cbn in *.
  - exists [], out. rewrite Nat.add_0_r. auto.
  - apply bind_Ok in H as (ti & Hti & H).
    apply bind_Ok in H as (tis & Hrest & H). injection H as <-.
    apply IH in Hrest as (out1 & out2 & -> & H1 & H2).
    exists (ti :: out1), out2. rewrite Hti, H1. cbn.
    split; [reflexivity|]. split; [reflexivity|].
    rewrite <- H2. f_equal. lia.
Qed.

Lemma set_uint32_Ok (value : option Z) (v : Z) :
  set_uint32 value = Ok v <-> value = Some v /\ 0 <= v < 2 ^ 32.
Proof.
  unfold set_uint32. destruct value as [w|]; [|split; [|intros [? _]];
    discriminate].
  destruct (0 <=? w) eqn:E1, (w <? 2 ^ 32) eqn:E2; cbn;
    (split; [intros [= <-] | intros [[= <-] ?]]);
    try apply Z.leb_le in E1; try apply Z.leb_gt in E1;
    try apply Z.ltb_lt in E2; try apply Z.ltb_ge in E2;
    first [by auto | lia].
Qed.

(** The rank a detail gets when the assignment at line 440 goes
    through. *)
Lemma assigned_rank_Ok (lp : Logprob.t) (rk : option Z) :
  (if ranks
   then rank ← set_uint32 (Logprob.rank lp); Ok (Some rank)
   else Ok None) = Ok rk ->
  rk = (if ranks then Logprob.rank lp else None).
Proof.
  destruct ranks; [|by intros [= <-]].
  intros H. apply bind_Ok in H as (r & Hr & [= <-]).
  apply set_uint32_Ok in Hr as [-> _]. reflexivity.
Qed.

(** The fields of the detail built at a position that has a logprob
    dict, and at one that has none. *)
Lemma token_info_at_fields (token_ids : list Z)
    (l : list (option LogprobDict)) (i : nat) (text : str)
    (ti : TokenInfo.t) :
  token_info_at self token_ids (Some l) incl ranks n i text = Ok ti ->
  match l !! i with
  | Some (Some d) =>
      if incl || ranks then
        exists tid lp,
          token_ids !! i = Some tid
          /\ dict_getitem d tid = Ok lp
          /\ TokenInfo.logprob ti
             = (if incl then Some (Logprob.logprob lp) else None)
          /\ TokenInfo.rank ti = (if ranks then Logprob.rank lp else None)
      else TokenInfo.logprob ti = None /\ TokenInfo.rank ti = None
  | Some None => ti = TokenInfo.mk text None None []
  | None => False
  end.
Proof.
  unfold token_info_at, getitem. cbn.
  destruct (l !! i) as [[d|]|]; cbn; [| by intros [= <-] | discriminate].
  intros H. apply bind_Ok in H as (ti0 & H0 & H).
  assert (TokenInfo.logprob ti = TokenInfo.logprob ti0
          /\ TokenInfo.rank ti = TokenInfo.rank ti0) as [-> ->].
  { destruct (truthy n); injection H as <-; auto. }
  clear H. destruct (incl || ranks).
  - apply bind_Ok in H0 as (tid & Htid & H0).
    apply bind_Ok in H0 as (lp & Hlp & H0).
    apply bind_Ok in H0 as (rk & Hrk & H0). injection H0 as <-.
    apply assigned_rank_Ok in Hrk as ->.
    destruct (token_ids !! i) as [tid'|]; [|discriminate].
    injection Htid as ->. exists tid, lp. auto.
  - injection H0 as <-. auto.
Qed.

End converter_facts.

(** X6. Without a logprobs list the converter cannot fail and produces plain
    details, one per token from the offset on, whatever was requested;
    the details it is given stay in front. *)
Theorem convert_tokens_without_logprobs
    (self : TextGenerationService.t) (token_ids : list Z)
    (incl ranks : bool) (n : N) (infos : list TokenInfo.t) (off : nat) :
  _convert_tokens self token_ids None incl ranks n infos off
  = Ok (infos
        ++ map (fun id =>
                  TokenInfo.mk (TextGenerationService.id_to_token self id)
                    None None [])
             (drop off token_ids)).
Proof.
  rewrite convert_tokens_eq. cbn. rewrite tokens_loop_None. cbn.
  unfold TextGenerationService.convert_ids_to_tokens.
  by rewrite <- list_fmap_compose.
Qed.

(** X7. Converting from an offset gives the details of the whole conversion
    from that offset on: a delta is a suffix of the full list. *)
Theorem convert_tokens_offset_is_suffix
    (self : TextGenerationService.t) (token_ids : list Z)
    (ll : option (list (option LogprobDict))) (incl ranks : bool) (n : N)
    (infos full : list TokenInfo.t) (off : nat) :
  _convert_tokens self token_ids ll incl ranks n [] 0 = Ok full ->
  _convert_tokens self token_ids ll incl ranks n infos off
  = Ok (infos ++ drop off full).
Proof.
  rewrite !convert_tokens_eq, drop_0. intros H.
  apply bind_Ok in H as (full' & H & [= <-]). cbn [app].
  assert (drop 0 <$> ll = ll) as E by (by destruct ll).
  rewrite E in H. clear E.
  unfold TextGenerationService.convert_ids_to_tokens in *.
  assert (map (TextGenerationService.id_to_token self) token_ids
          = map (TextGenerationService.id_to_token self) (take off token_ids)
            ++ map (TextGenerationService.id_to_token self)
                 (drop off token_ids)) as E
    by (by rewrite <- map_app, take_drop).
  rewrite E in H. clear E.
  apply tokens_loop_split in H as (out1 & out2 & -> & H1 & H2).
  apply tokens_loop_Ok in H1 as [Hlen1 _].
  rewrite length_map, length_take in Hlen1, H2. cbn [Nat.add] in H2.
  rewrite tokens_loop_drop, Nat.add_0_r.
  destruct (decide (off <= length token_ids)%nat) as [Hle|Hgt].
  - rewrite Nat.min_l in Hlen1, H2 by lia. rewrite H2. cbn.
    rewrite drop_app_length'; [reflexivity | by rewrite Hlen1].
  - rewrite (drop_ge token_ids) in * by lia. cbn in *.
    injection H2 as <-. rewrite (drop_ge (out1 ++ []));
      [reflexivity | rewrite length_app; cbn; lia].
Qed.

Lemma convert_tokens_offset_is_suffix_witness :
  _convert_tokens ex_service [5; 7] (Some [Some ex_dict; Some ex_dict]) true
    true 1 [] 1
  = Ok [TokenInfo.mk [7%N] (Some (-2)%Q) (Some 2) [TopToken.mk [5%N]
                                                      (Some (-1)%Q)]].
Proof.
  apply (convert_tokens_offset_is_suffix ex_service [5; 7]
           (Some [Some ex_dict; Some ex_dict]) true true 1 []
           [TokenInfo.mk [5%N] (Some (-1)%Q) (Some 1)
              [TopToken.mk [5%N] (Some (-1)%Q)];
            TokenInfo.mk [7%N] (Some (-2)%Q) (Some 2)
              [TopToken.mk [5%N] (Some (-1)%Q)]]
           1).
  vm_compute. reflexivity.
Defined.

(** X8. With a logprobs list, the detail at a position carries the text of
    the position's own token; where the position has a dict and logprobs
    or ranks are requested, logprob and rank are those the dict holds for
    that token; where the position's entry is [None] (the first prompt
    token) the detail is plain. *)
Theorem token_detail_of_actual_token
    (self : TextGenerationService.t) (token_ids : list Z)
    (l : list (option LogprobDict)) (incl ranks : bool) (n : N)
    (infos : list TokenInfo.t) (off : nat) (out : list TokenInfo.t)
    (k : nat) (ti : TokenInfo.t) :
  _convert_tokens self token_ids (Some l) incl ranks n infos off = Ok out ->
  out !! (length infos + k)%nat = Some ti ->
  exists tid,
    token_ids !! (off + k)%nat = Some tid
    /\ TokenInfo.text ti = TextGenerationService.id_to_token self tid
    /\ match l !! (off + k)%nat with
       | Some (Some d) =>
           if incl || ranks then
             exists lp,
               dict_getitem d tid = Ok lp
               /\ TokenInfo.logprob ti
                  = (if incl then Some (Logprob.logprob lp) else None)
               /\ TokenInfo.rank ti
                  = (if ranks then Logprob.rank lp else None)
           else TokenInfo.logprob ti = None /\ TokenInfo.rank ti = None
       | Some None =>
           TokenInfo.logprob ti = None /\ TokenInfo.rank ti = None
           /\ TokenInfo.top_tokens ti = []
       | None => False
       end.
Proof.
  intros H Hk. apply convert_tokens_Ok in H as (new & -> & H).
  rewrite lookup_app_r, Nat.add_comm, Nat.add_sub in Hk by lia.
  apply tokens_loop_Ok in H as [_ H].
  apply H in Hk as (text & Htext & Hti).
  unfold TextGenerationService.convert_ids_to_tokens in Htext.
  rewrite list_lookup_fmap, lookup_drop in Htext.
  destruct (token_ids !! (off + k)%nat) as [tid|] eqn:Etid; [|discriminate].
  injection Htext as <-. exists tid. split; [reflexivity|].
  change (Some (drop off l)) with (drop off <$> Some l) in Hti.
  rewrite token_info_at_drop in Hti. cbn [Nat.add] in Hti.
  pose proof (token_info_at_Ok _ _ _ _ _ _ _ _ _ Hti) as [Ht _].
  split; [exact Ht|].
  apply token_info_at_fields in Hti.
  destruct (l !! (off + k)%nat) as [[d|]|]; [| by subst ti | exact Hti].
  destruct (incl || ranks); [|exact Hti].
  destruct Hti as (tid' & lp & Htid' & Hlp & Hl & Hr).
  rewrite Etid in Htid'. injection Htid' as <-. eauto.
Qed.

Lemma token_detail_of_actual_token_witness :
  exists ti tid,
    [5; 9] !! (1 + 0)%nat = Some tid
    /\ _convert_tokens ex_service [5; 9] (Some [None; Some ex_dict]) true
         true 0 [] 1 = Ok [ti]
    /\ TokenInfo.text ti = [Z.to_N tid].
Proof.
  destruct (token_detail_of_actual_token ex_service [5; 9]
    [None; Some ex_dict] true true 0 [] 1 _ 0 _
    ltac:(vm_compute; reflexivity) ltac:(vm_compute; reflexivity))
    as (tid & Htid & Ht & _).
  eexists _, tid. split; [exact Htid|].
  split; [vm_compute; reflexivity | exact Ht].
Defined.

Section converter_failures.
Variable self : TextGenerationService.t.
Variables incl ranks : bool.
Variable n : N.

Lemma dict_getitem_raises (d : LogprobDict) (k : Z) (e : exn) :
  dict_getitem d k = Raise e -> e = KeyError.
Proof. unfold dict_getitem. destruct (find _ d); congruence. Qed.

Lemma set_uint32_raises (value : option Z) (e : exn) :
  set_uint32 value = Raise e ->
  (e = TypeError /\ value = None)
  \/ (e = ValueError
      /\ exists v, value = Some v /\ (v < 0 \/ 2 ^ 32 <= v)).
Proof.
  unfold set_uint32. destruct value as [v|]; [|intros [= <-]; by left].
  destruct (0 <=? v) eqn:E1, (v <? 2 ^ 32) eqn:E2; cbn; try discriminate;
    intros [= <-]; right; (split; [reflexivity|]); exists v;
    (split; [reflexivity|]);
    try apply Z.leb_gt in E1; try apply Z.ltb_ge in E2; lia.
Qed.

(** How the loop body can fail at a position within the token list. *)
Lemma token_info_at_raises (token_ids : list Z)
    (l : list (option LogprobDict)) (i : nat) (text : str) (e : exn) :
  (i < length token_ids)%nat ->
  token_info_at self token_ids (Some l) incl ranks n i text = Raise e ->
  (e = IndexError /\ (length l <= i)%nat)
  \/ exists tid d,
       token_ids !! i = Some tid /\ l !! i = Some (Some d)
       /\ incl || ranks = true
       /\ ((e = KeyError /\ dict_getitem d tid = Raise KeyError)
           \/ exists lp,
                dict_getitem d tid = Ok lp /\ ranks = true
                /\ ((e = TypeError /\ Logprob.rank lp = None)
                    \/ (e = ValueError
                        /\ exists v, Logprob.rank lp = Some v
                                     /\ (v < 0 \/ 2 ^ 32 <= v)))).
Proof.
  intros Hi. unfold token_info_at, getitem. cbn.
  destruct (l !! i) as [[d|]|] eqn:El; cbn; [|discriminate|].
  - destruct (incl || ranks) eqn:Ef; cbn.
    + destruct (lookup_lt_is_Some_2 token_ids i Hi) as [tid Htid].
      rewrite Htid. cbn.
      destruct (dict_getitem d tid) as [lp|e'] eqn:Ed; cbn.
      * destruct ranks eqn:Er; cbn.
        -- destruct (set_uint32 (Logprob.rank lp)) as [r|e'] eqn:Es; cbn.
           ++ destruct (truthy n); discriminate.
           ++ intros [= <-]. right. exists tid, d.
              split; [reflexivity|]. split; [reflexivity|].
              split; [reflexivity|]. right. exists lp.
              split; [exact Ed|]. split; [reflexivity|].
              by apply set_uint32_raises.
        -- destruct (truthy n); discriminate.
      * intros [= <-]. pose proof (dict_getitem_raises _ _ _ Ed) as ->.
        right. exists tid, d. auto 10.
    + destruct (truthy n); discriminate.
  - intros [= <-]. left. split; [reflexivity|].
    by apply lookup_ge_None.
Qed.

Lemma tokens_loop_raises (token_ids : list Z)
    (l : list (option LogprobDict)) (texts : list str) :
  forall i e,
  (i + length texts <= length token_ids)%nat ->
  tokens_loop self token_ids (Some l) incl ranks n i texts = Raise e ->
  (e = IndexError /\ (length l < i + length texts)%nat)
  \/ exists k tid d,
       (i <= k)%nat /\ token_ids !! k = Some tid /\ l !! k = Some (Some d)
       /\ incl || ranks = true
       /\ ((e = KeyError /\ dict_getitem d tid = Raise KeyError)
           \/ exists lp,
                dict_getitem d tid = Ok lp /\ ranks = true
                /\ ((e = TypeError /\ Logprob.rank lp = None)
                    \/ (e = ValueError
                        /\ exists v, Logprob.rank lp = Some v
                                     /\ (v < 0 \/ 2 ^ 32 <= v)))).
Proof.
  induction texts as [|text rest IH]; intros i e Hlen; cbn [tokens_loop];
    cbn [length] in Hlen; [discriminate|].
  destruct (token_info_at _ _ _ _ _ _ i text) as [ti|e'] eqn:Eti; cbn.
  - destruct (tokens_loop _ _ _ _ _ _ (S i) rest) as [tis|e'] eqn:Erest;
      cbn; [discriminate|].
    intros [= <-]. apply IH in Erest; [|lia].
    destruct Erest as [[-> Hl]|(k & tid & d & Hk & Hrest)].
    + left. split; [reflexivity | lia].
    + right. exists k, tid, d. split; [lia | exact Hrest].
  - intros [= <-]. apply token_info_at_raises in Eti; [|lia].
    destruct Eti as [[-> Hl]|(tid & d & Hrest)].
    + left. split; [reflexivity | lia].
    + right. exists i, tid, d. split; [lia | exact Hrest].
Qed.

End converter_failures.

(** X9. The ways the converter can fail.  With [IndexError], when the
    logprobs list is shorter than the token list.  Otherwise at a
    position, from the offset on, that has a dict, with logprobs or ranks
    requested: with [KeyError] when the dict does not hold the position's
    own token; and, with ranks requested, with [TypeError] when the
    token's entry has no rank and with [ValueError] when its rank does
    not fit the unsigned 32-bit field of the detail. *)
Theorem convert_tokens_failures
    (self : TextGenerationService.t) (token_ids : list Z)
    (ll : option (list (option LogprobDict))) (incl ranks : bool) (n : N)
    (infos : list TokenInfo.t) (off : nat) (e : exn) :
  _convert_tokens self token_ids ll incl ranks n infos off = Raise e ->
  exists l,
    ll = Some l
    /\ ((e = IndexError /\ (length l < length token_ids)%nat)
        \/ exists k tid d,
             (off <= k)%nat /\ token_ids !! k = Some tid
             /\ l !! k = Some (Some d)
             /\ incl || ranks = true
             /\ ((e = KeyError /\ dict_getitem d tid = Raise KeyError)
                 \/ exists lp,
                      dict_getitem d tid = Ok lp /\ ranks = true
                      /\ ((e = TypeError /\ Logprob.rank lp = None)
                          \/ (e = ValueError
                              /\ exists v, Logprob.rank lp = Some v
                                           /\ (v < 0 \/ 2 ^ 32 <= v))))).
Proof.
  rewrite convert_tokens_eq.
  destruct (tokens_loop _ _ _ _ _ _ _ _) as [new|e'] eqn:E; cbn;
    [discriminate|].
  intros [= <-]. destruct ll as [l|].
  2: { change (drop off <$> None) with (@None (list (option LogprobDict)))
         in E.
       rewrite tokens_loop_None in E. discriminate. }
  change (drop off <$> Some l) with (Some (drop off l)) in E.
  exists l. split; [reflexivity|].
  apply tokens_loop_raises in E.
  2: { unfold TextGenerationService.convert_ids_to_tokens.
       rewrite length_map. lia. }
  unfold TextGenerationService.convert_ids_to_tokens in E.
  rewrite length_map, !length_drop in E.
  destruct E as [[-> Hl]|(k & tid & d & _ & Hk & Hd & Hrest)].
  - left. split; [reflexivity | lia].
  - right. rewrite lookup_drop in Hk. rewrite lookup_drop in Hd.
    exists (off + k)%nat, tid, d. split; [lia | auto].
Qed.

Lemma convert_tokens_failures_witness :
  exists l,
    Some [Some [(5, Logprob.mk (-1) None)]] = Some l
    /\ ((TypeError = IndexError /\ (length l < length [5])%nat)
        \/ exists k tid d,
             (0 <= k)%nat /\ [5] !! k = Some tid
             /\ l !! k = Some (Some d)
             /\ false || true = true
             /\ ((TypeError = KeyError
                  /\ dict_getitem d tid = Raise KeyError)
                 \/ exists lp,
                      dict_getitem d tid = Ok lp /\ true = true
                      /\ ((TypeError = TypeError /\ Logprob.rank lp = None)
                          \/ (TypeError = ValueError
                              /\ exists v, Logprob.rank lp = Some v
                                           /\ (v < 0 \/ 2 ^ 32 <= v))))).
Proof.
  apply (convert_tokens_failures ex_service [5]
           (Some [Some [(5, Logprob.mk (-1) None)]]) false true 0 [] 0
           TypeError).
  vm_compute. reflexivity.
Defined.

(** ** The stop-reason classifier *)

(** X10. A matched stop string is attached only to STOP_SEQUENCE; TIME_LIMIT
    and NOT_FINISHED are reported exactly for outputs with no finish
    reason, according to the deadline; an output that has a finish reason
    is classified the same whether or not the deadline was hit; and the
    implicit-maximum flag matters for the finish reason "length" only. *)
Theorem convert_reason_invariants (output : CompletionOutput.t)
    (max_is_token_limit time_limit_reached : bool) :
  let r := _convert_reason output max_is_token_limit time_limit_reached in
  (forall s, r.2 = Some s ->
     r.1 = STOP_SEQUENCE /\ CompletionOutput.stop_reason output = AttrStr s)
  /\ (r.1 = TIME_LIMIT
      <-> CompletionOutput.finish_reason output = None
          /\ time_limit_reached = true)
  /\ (r.1 = NOT_FINISHED
      <-> CompletionOutput.finish_reason output = None
          /\ time_limit_reached = false)
  /\ (is_Some (CompletionOutput.finish_reason output) ->
      _convert_reason output max_is_token_limit (negb time_limit_reached)
      = r)
  /\ (CompletionOutput.finish_reason output
      <> Some (str_of_string "length") ->
      _convert_reason output (negb max_is_token_limit) time_limit_reached
      = r).
Proof.
  unfold _convert_reason.
  destruct (CompletionOutput.finish_reason output) as [fr|]; cbv zeta.
  - repeat case_decide;
      destruct (CompletionOutput.stop_reason output), max_is_token_limit;
      cbn [fst snd negb]; (split; [|split; [|split; [|split]]]);
      try (split; intros; [discriminate | intuition congruence]);
      try (intros ? [= <-]; auto);
      intros; try reflexivity; try congruence; try discriminate.
  - destruct time_limit_reached; cbn [fst snd negb];
      (split; [|split; [|split; [|split]]]);
      try (intros ? ?; discriminate);
      try (split; intros; intuition congruence);
      try (intros [? ?]; discriminate);
      intros; reflexivity.
Qed.

(** ** Response assembly *)

(** X11. A delta response: its text is the output's text from the text offset
    on, its token count is the output's whole token count whatever the
    offsets, and it carries no input fields.  With token details
    requested it holds one detail per token from the token offset on;
    without, it holds none and the conversion cannot fail. *)
Theorem convert_output_fields
    (self : TextGenerationService.t) (output : CompletionOutput.t)
    (resp_options : ResponseOptions.t) (flag hit : bool) (lo lt : nat) :
  (ResponseOptions.generated_tokens resp_options = false ->
   exists response,
     _convert_output self output resp_options flag hit lo lt = Ok response
     /\ GenerationResponse.tokens response = [])
  /\ forall response,
       _convert_output self output resp_options flag hit lo lt
       = Ok response ->
       GenerationResponse.text response
       = drop lo (CompletionOutput.text output)
       /\ GenerationResponse.generated_token_count response
          = length (CompletionOutput.token_ids output)
       /\ GenerationResponse.input_token_count response = 0%nat
       /\ GenerationResponse.input_tokens response = []
       /\ GenerationResponse.seed response = None
       /\ (ResponseOptions.generated_tokens resp_options = true ->
           length (GenerationResponse.tokens response)
           = (length (CompletionOutput.token_ids output) - lt)%nat).
Proof.
  split.
  - intros Hgen. unfold _convert_output. rewrite Hgen.
    destruct (_convert_reason output flag hit). cbn. eauto.
  - intros response H.
    pose proof (convert_output_Ok _ _ _ _ _ _ _ _ H) as (Ht & Hc & _ & Hk).
    split; [exact Ht|]. split; [exact Hc|].
    unfold _convert_output in H.
    destruct (_convert_reason output flag hit).
    apply bind_Ok in H as (tokens & _ & [= <-]). cbn.
    split; [reflexivity|]. split; [reflexivity|]. split; [reflexivity|].
    intros Hgen. rewrite Hgen in Hk. cbn in Hk.
    apply convert_tokens_Ok in Hk as (new & -> & Hk).
    apply tokens_loop_Ok in Hk as [Hlen _]. cbn.
    unfold TextGenerationService.convert_ids_to_tokens in Hlen.
    by rewrite Hlen, length_map, length_drop.
Qed.

(** X12. The input details added to a response: the input token count is
    always set, to the number of prompt tokens of the result; the seed is
    set only when the sampling parameters have one; with input text
    requested the prompt is put in front of the text; what the response
    says about the generation is left as it is.  Without input tokens
    requested, and with the prompt set, nothing can fail. *)
Theorem convert_input_details_fields
    (self : TextGenerationService.t) (result : RequestOutput.t)
    (resp_options : ResponseOptions.t) (sampling_params : SamplingParams.t)
    (response : GenerationResponse.t) (prompt : str) :
  RequestOutput.prompt result = Some prompt ->
  (ResponseOptions.input_tokens resp_options = false ->
   exists r,
     _convert_input_details self result resp_options sampling_params
       response = Ok r
     /\ GenerationResponse.input_tokens r
        = GenerationResponse.input_tokens response)
  /\ forall r,
       _convert_input_details self result resp_options sampling_params
         response = Ok r ->
       GenerationResponse.input_token_count r
       = length (RequestOutput.prompt_token_ids result)
       /\ GenerationResponse.text r
          = (if ResponseOptions.input_text resp_options
             then prompt ++ GenerationResponse.text response
             else GenerationResponse.text response)
       /\ GenerationResponse.seed r
          = match SamplingParams.seed sampling_params with
            | Some seed => Some seed
            | None => GenerationResponse.seed response
            end
       /\ GenerationResponse.generated_token_count r
          = GenerationResponse.generated_token_count response
       /\ GenerationResponse.stop_reason r
          = GenerationResponse.stop_reason response
       /\ GenerationResponse.stop_sequence r
          = GenerationResponse.stop_sequence response
       /\ GenerationResponse.tokens r = GenerationResponse.tokens response.
Proof.
  intros Hp. split.
  - intros Hin. unfold _convert_input_details. rewrite Hin, Hp. cbn.
    destruct (ResponseOptions.input_text resp_options); cbn; eauto.
  - intros r H.
    pose proof (convert_input_details_Ok _ _ _ _ _ _ H)
      as (Hc & Hg & Hs & Hq & Hk & Hseed).
    split; [exact Hc|]. split; [|auto 10].
    unfold _convert_input_details in H. rewrite Hp in H.
    apply bind_Ok in H as (input_tokens & _ & H).
    apply bind_Ok in H as (text & Ht & H). injection H as <-. cbn.
    destruct (ResponseOptions.input_text resp_options);
      injection Ht as <-; [|reflexivity].
    destruct (GenerationResponse.text response); cbn;
      [by rewrite app_nil_r | reflexivity].
Qed.

Lemma convert_input_details_fields_witness :
  exists r,
    _convert_input_details ex_service
      (RequestOutput.set_prompt
         (ex_snapshot [104; 105] (str_of_string "x") [120] None)
         (str_of_string "hi"))
      (ResponseOptions.mk true false false false false 0)
      (SamplingParams.mk None None None 0 0 (-1) 1 (Some 7%N) 1 None None
         false true)
      (GenerationResponse.mk (str_of_string "x") 1 NOT_FINISHED None 0 []
         [] None)
    = Ok r
    /\ GenerationResponse.text r = str_of_string "hix"
    /\ GenerationResponse.input_token_count r = 2%nat
    /\ GenerationResponse.seed r = Some 7%N.
Proof.
  eexists. split; [vm_compute; reflexivity|].
  destruct (convert_input_details_fields ex_service
    (RequestOutput.set_prompt
       (ex_snapshot [104; 105] (str_of_string "x") [120] None)
       (str_of_string "hi"))
    (ResponseOptions.mk true false false false false 0)
    (SamplingParams.mk None None None 0 0 (-1) 1 (Some 7%N) 1 None None
       false true)
    (GenerationResponse.mk (str_of_string "x") 1 NOT_FINISHED None 0 []
       [] None)
    (str_of_string "hi") eq_refl) as [_ H].
  destruct (H _ ltac:(vm_compute; reflexivity)) as (Hc & Ht & Hs & _).
  split; [exact Ht|]. split; [exact Hc | exact Hs].
Defined.

(** ** The stream orchestrator *)

Lemma stream_loop_no_generate (self : TextGenerationService.t)
    (request_id text : str) (resp_options : ResponseOptions.t)
    (sampling_params : SamplingParams.t) (deadline : option Q)
    (flag : bool) (snapshots : list (RequestOutput.t * Q)) :
  forall first lo lt,
  Forall (fun e => match e with EngineGenerate _ _ _ => False | _ => True end)
    (effects (stream_loop self request_id text resp_options sampling_params
                deadline flag first lo lt snapshots)).
Proof.
  induction snapshots as [|[res now] rest IH]; intros first lo lt.
  - constructor.
  - rewrite stream_loop_cons. cbv zeta.
    destruct (if first then _ else _) as [ys|e] eqn:Eys.
    2: { repeat constructor. }
    apply first_response_Ok in Eys as (rs & -> & _).
    assert (Forall
              (fun e => match e with
                        | EngineGenerate _ _ _ => False
                        | _ => True
                        end) (map Yield rs)) as Hys.
    { apply Forall_forall. intros e He.
      apply list_elem_of_fmap in He as (r & -> & _). exact I. }
    destruct (RequestOutput.outputs res !! 0%nat) as [output|].
    2: { constructor; [exact I | exact Hys]. }
    destruct (_convert_output _ _ _ _ _ _ _) as [response|e];
      destruct (deadline_hit deadline now); cbn [effects];
      (constructor; [exact I|]); apply Forall_app; (split; [exact Hys|]);
      repeat constructor.
    apply IH.
Qed.

(** X13. The engine is left alone by a stream call that is rejected, and is
    started exactly once, ahead of everything else, by one that is not:
    with the prompt's tokens and with a maximum that fits the context
    window next to them. *)
Theorem stream_engine_started_once
    (self : TextGenerationService.t)
    (SamplingParams_verify : SamplingParams.t -> bool)
    (request_id : str) (request : SingleGenerationRequest.t) (now : Q)
    (snapshots : list (RequestOutput.t * Q)) :
  let run :=
    GenerateStream self SamplingParams_verify request_id request now
      snapshots in
  run = Traced [] (Raise (AbortError INVALID_ARGUMENT))
  \/ exists sp input_ids es m,
       effects run = EngineGenerate (Single request_id) sp input_ids :: es
       /\ Forall
            (fun e =>
               match e with EngineGenerate _ _ _ => False | _ => True end)
            es
       /\ input_ids
          = TextGenerationService.encode_async self
              (SingleGenerationRequest.request request)
              (with_default_None
                 (Parameters.truncate_input_tokens
                    (SingleGenerationRequest.params request)))
       /\ SamplingParams.max_tokens sp = Some m
       /\ Z.of_nat (length input_ids) + m
          <= TextGenerationService.max_model_len self.
Proof.
  cbv zeta. unfold GenerateStream.
  destruct (_validate_and_convert_params _ _ _ now) as [[sp dl]|e] eqn:Ev.
  2: { left. apply validate_raises in Ev. by subst e. }
  cbn.
  destruct (_validate_prompt_and_tokenize _ _ _ _)
    as [[sp' [ids flag]]|e] eqn:Ep.
  2: { left. apply prepare_raises in Ep. by subst e. }
  right. cbn.
  pose proof (stream_loop_no_generate self request_id
    (SingleGenerationRequest.request request)
    (Parameters.response (SingleGenerationRequest.params request)) sp' dl
    flag snapshots true 0%nat 0%nat) as Hno.
  apply prepare_Ok in Ep as (Hids & H1 & H2 & _ & Hp). cbv zeta in *.
  assert (exists m, SamplingParams.max_tokens sp' = Some m
                    /\ Z.of_nat (length ids) + m
                       <= TextGenerationService.max_model_len self)
    as (m & Hm & Hfit).
  { destruct (SamplingParams.max_tokens sp) as [m0|] eqn:Em.
    - destruct (_ <? _) eqn:E; destruct Hp as [-> _].
      + eexists. split; [reflexivity|]. lia.
      + apply Z.ltb_ge in E. exists m0. split; [exact Em|]. lia.
    - destruct Hp as [-> _]. eexists. split; [reflexivity|]. lia. }
  destruct (stream_loop _ _ _ _ _ _ _ _ _ _ _) as [es [[]|e]]; cbn in *;
    exists sp', ids, es, m; auto.
Qed.

Lemma stream_loop_no_deadline (self : TextGenerationService.t)
    (request_id text : str) (resp_options : ResponseOptions.t)
    (sampling_params : SamplingParams.t) (flag : bool)
    (snapshots : list (RequestOutput.t * Q)) :
  forall first lo lt,
  let loop :=
    stream_loop self request_id text resp_options sampling_params None flag
      first lo lt snapshots in
  outcome loop = Ok () ->
  aborted (effects loop) = []
  /\ consumed (effects loop) = snapshots.*1
  /\ length (yielded (effects loop))
     = (length snapshots
        + (if first then match snapshots with [] => 0 | _ => 1 end else 0))%nat.
Proof.
  induction snapshots as [|[res now] rest IH]; intros first lo lt loop;
    subst loop.
  - intros _. cbn. by destruct first.
  - rewrite stream_loop_cons. cbv zeta. cbn [deadline_hit].
    destruct (if first then _ else _) as [ys|e] eqn:Eys; [|discriminate].
    apply first_response_Ok in Eys as (rs & -> & Hrs).
    destruct (RequestOutput.outputs res !! 0%nat) as [output|];
      [|discriminate].
    destruct (_convert_output _ _ _ _ _ _ _) as [response|e];
      [|discriminate].
    cbn [effects outcome]. intros Hout.
    destruct (IH false _ _ Hout) as (Ha & Hc & Hy).
    destruct (observe_Yield rs) as (Hy' & Hc' & Ha').
    rewrite aborted_cons, consumed_cons, yielded_cons.
    rewrite aborted_app, consumed_app, yielded_app, Ha', Hc', Hy'.
    rewrite aborted_cons, consumed_cons, yielded_cons, Ha, Hc.
    split; [reflexivity|]. split; [reflexivity|].
    rewrite length_app. cbn [length]. rewrite Hy, Hrs.
    destruct first; lia.
Qed.

(** X14. A stream call without time limit that ends well never aborts the
    engine, takes every snapshot the engine produces, and sends one
    response more than it takes snapshots; on an engine stream that
    produces nothing it sends nothing at all. *)
Theorem stream_without_time_limit
    (self : TextGenerationService.t)
    (SamplingParams_verify : SamplingParams.t -> bool)
    (request_id : str) (request : SingleGenerationRequest.t) (now : Q)
    (snapshots : list (RequestOutput.t * Q)) :
  let run :=
    GenerateStream self SamplingParams_verify request_id request now
      snapshots in
  StoppingCriteria.time_limit_millis
    (Parameters.stopping (SingleGenerationRequest.params request)) = 0%N ->
  outcome run = Ok () ->
  aborted (effects run) = []
  /\ consumed (effects run) = snapshots.*1
  /\ length (yielded (effects run))
     = match snapshots with [] => 0%nat | _ => S (length snapshots) end.
Proof.
  intros run Hms Hrun.
  destruct (GenerateStream_Ok _ _ _ _ _ _ Hrun)
    as (sp & dl & sp' & ids & flag & Hv & _ & Heff & Hloop).
  cbv zeta in Heff, Hloop. fold run in Heff.
  apply validate_Ok, convert_params_deadline in Hv. cbv zeta in Hv.
  rewrite Hms in Hv. cbn in Hv. subst dl.
  apply stream_loop_no_deadline in Hloop as (Ha & Hc & Hy).
  rewrite Heff, aborted_cons, consumed_cons, yielded_cons, Ha, Hc, Hy.
  split; [reflexivity|]. split; [reflexivity|].
  destruct snapshots; cbn; lia.
Qed.

Lemma stream_without_time_limit_witness :
  length (yielded (effects
    (GenerateStream ex_service ex_verify ex_request_id
       (ex_single (ex_stopping 0 0 0 []) (ex_options true false 0)) 0
       ex_stream))) = 4%nat.
Proof.
  apply (stream_without_time_limit ex_service ex_verify ex_request_id
           (ex_single (ex_stopping 0 0 0 []) (ex_options true false 0)) 0
           ex_stream).
  - reflexivity.
  - vm_compute. reflexivity.
Defined.

Lemma convert_params_seed (self : TextGenerationService.t)
    (SamplingParams_verify : SamplingParams.t -> bool)
    (params : Parameters.t) (now : Q) (sp : SamplingParams.t)
    (deadline : option Q) :
  convert_params self SamplingParams_verify params now = Ok (sp, deadline) ->
  SamplingParams.seed sp
  = SamplingParameters.seed (Parameters.sampling params).
Proof.
  unfold convert_params. intros H.
  apply bind_Ok in H as ([] & _ & H).
  apply bind_Ok in H as (max_new_tokens & _ & H).
  apply bind_Ok in H as ([] & _ & H).
  apply bind_Ok in H as ([] & _ & H).
  apply bind_Ok in H as (logprobs & _ & H).
  apply bind_Ok in H as ([] & _ & H).
  injection H as <- _. reflexivity.
Qed.

Lemma prepare_seed (self : TextGenerationService.t)
    (sp : SamplingParams.t) (truncate : option N) (prompt : str)
    (sp' : SamplingParams.t) (r : list Z * bool) :
  _validate_prompt_and_tokenize self sp truncate prompt = Ok (sp', r) ->
  SamplingParams.seed sp' = SamplingParams.seed sp.
Proof.
  destruct r as [ids flag]. intros H.
  apply prepare_Ok in H as (_ & _ & _ & _ & H). cbv zeta in H.
  destruct (SamplingParams.max_tokens sp); [destruct (_ <? _)|];
    destruct H as [-> _]; reflexivity.
Qed.

(** X15. The first response of a stream that ends well describes the input
    only: the number of prompt tokens of the first snapshot, the
    request's text if input text is requested and no text otherwise, the
    request's seed if it has one; it reports no generated token, no
    token detail and NOT_FINISHED. *)
Theorem stream_first_response
    (self : TextGenerationService.t)
    (SamplingParams_verify : SamplingParams.t -> bool)
    (request_id : str) (request : SingleGenerationRequest.t) (now : Q)
    (res : RequestOutput.t) (t : Q) (rest : list (RequestOutput.t * Q)) :
  let params := SingleGenerationRequest.params request in
  let run :=
    GenerateStream self SamplingParams_verify request_id request now
      ((res, t) :: rest) in
  outcome run = Ok () ->
  exists first_response deltas,
    yielded (effects run) = first_response :: deltas
    /\ GenerationResponse.input_token_count first_response
       = length (RequestOutput.prompt_token_ids res)
    /\ GenerationResponse.text first_response
       = (if ResponseOptions.input_text (Parameters.response params)
          then SingleGenerationRequest.request request else [])
    /\ GenerationResponse.seed first_response
       = SamplingParameters.seed (Parameters.sampling params)
    /\ GenerationResponse.generated_token_count first_response = 0%nat
    /\ GenerationResponse.stop_reason first_response = NOT_FINISHED
    /\ GenerationResponse.tokens first_response = [].
Proof.
  intros params run Hrun.
  destruct (GenerateStream_Ok _ _ _ _ _ _ Hrun)
    as (sp & dl & sp' & ids & flag & Hv & Hp & Heff & Hloop).
  cbv zeta in Heff, Hloop. fold run params in Heff, Hloop, Hv, Hp.
  apply validate_Ok, convert_params_seed in Hv.
  apply prepare_seed in Hp. rewrite Hv in Hp.
  rewrite Heff. clear Heff Hrun. revert Hloop.
  rewrite stream_loop_cons. cbv zeta.
  destruct (_convert_input_details _ _ _ _ _) as [fr|e] eqn:Efr;
    [|discriminate].
  cbn [mbind result_bind].
  destruct (RequestOutput.outputs res !! 0%nat) as [output|];
    [|discriminate].
  destruct (_convert_output _ _ _ _ _ _ _) as [response|e]; [|discriminate].
  pose proof (convert_input_details_Ok _ _ _ _ _ _ Efr)
    as (Hc & Hg & Hs & _ & Hk & Hseed).
  assert (GenerationResponse.text fr
          = (if ResponseOptions.input_text (Parameters.response params)
             then SingleGenerationRequest.request request else [])) as Ht.
  { unfold _convert_input_details in Efr.
    apply bind_Ok in Efr as (input_tokens & _ & Efr).
    apply bind_Ok in Efr as (text & Ht & Efr). injection Efr as <-. cbn.
    cbn in Ht. destruct (ResponseOptions.input_text _);
      by injection Ht as <-. }
  intros _.
  destruct (deadline_hit dl t); cbn [effects app];
    rewrite !yielded_cons; eexists fr, _; (split; [reflexivity|]);
    rewrite Hp in Hseed; cbn in Hseed;
    (split; [exact Hc|]); (split; [exact Ht|]); split;
    try (by destruct (SamplingParameters.seed _)); auto.
Qed.

Lemma stream_first_response_witness :
  exists first_response deltas,
    yielded (effects
      (GenerateStream ex_service ex_verify ex_request_id
         (ex_single (ex_stopping 0 0 0 []) (ex_options true false 0)) 0
         ex_stream))
    = first_response :: deltas
    /\ GenerationResponse.input_token_count first_response = 2%nat.
Proof.
  destruct (stream_first_response ex_service ex_verify ex_request_id
    (ex_single (ex_stopping 0 0 0 []) (ex_options true false 0)) 0
    (ex_snapshot [104; 105] (str_of_string "x") [120] None) 1%Q
    [(ex_snapshot [104; 105] (str_of_string "xy") [120; 121] None, 2%Q);
     (ex_snapshot [104; 105] (str_of_string "xyz") [120; 121; 122]
        (Some (str_of_string "length")), 3%Q)]
    ltac:(vm_compute; reflexivity)) as (fr & deltas & Hy & Hc & _).
  exists fr, deltas. split; [exact Hy | exact Hc].
Defined.

(** ** The batch orchestrator *)

Lemma latest_app_None (j : nat)
    (events rest : list (nat * RequestOutput.t * Q)) :
  latest j (events ++ rest) = None -> latest j events = None.
Proof.
  unfold latest. rewrite omap_app, !last_None. intros H.
  by apply app_nil in H as [-> _].
Qed.

(** What the merge loop has done when it ends well: it has taken an
    initial part of the merged stream, all of it unless it stopped for
    the deadline, and filled the slots from it. *)
Lemma batch_loop_Ok (request_id : str) (deadline : option Q)
    (request_count : nat) (merged : list (nat * RequestOutput.t * Q)) :
  forall (responses rs : list (option RequestOutput.t)) (tlr : bool),
  outcome (batch_loop request_id deadline request_count responses merged)
  = Ok (rs, tlr) ->
  exists events rest,
    merged = events ++ rest
    /\ rs = foldl (fun rs ev => <[ev.1.1:=Some ev.1.2]> rs) responses events
    /\ Forall (fun ev => (ev.1.1 < length responses)%nat) events
    /\ effects (batch_loop request_id deadline request_count responses
                  merged)
       = map (fun ev => EngineNext (Member request_id ev.1.1) ev.1.2) events
         ++ (if tlr then abort_all request_id request_count else [])
    /\ (if tlr
        then all_set rs = true
             /\ Exists (fun ev => deadline_hit deadline ev.2 = true) events
        else rest = []).
Proof.
  induction merged as [|[[i res] now] merged IH]; intros responses rs tlr.
  - cbn. intros [= <- <-]. exists [], []. cbn. auto using Forall_nil.
  - rewrite batch_loop_cons. cbv zeta. unfold setitem.
    destruct (decide (i < length responses)%nat) as [Hi|Hi];
      [|discriminate].
    destruct (deadline_hit deadline now && all_set _) eqn:Ehit.
    + cbn [outcome effects]. intros [= <- <-].
      apply andb_true_iff in Ehit as [Eh Eall].
      exists [(i, res, now)], merged. cbn [foldl map app fst snd].
      split; [reflexivity|]. split; [reflexivity|].
      split; [by constructor|]. split; [reflexivity|].
      split; [exact Eall | by constructor].
    + cbn [outcome effects]. intros H.
      apply IH in H as (events & rest & -> & -> & Hidx & -> & Htlr).
      exists ((i, res, now) :: events), rest. cbn [foldl map app fst snd].
      split; [reflexivity|]. split; [reflexivity|].
      split.
      { constructor; [exact Hi|].
        eapply Forall_impl; [exact Hidx|]. intros ev.
        by rewrite length_insert. }
      split; [reflexivity|].
      destruct tlr; [|exact Htlr].
      destruct Htlr as [Hall Hex]. split; [exact Hall|].
      by apply Exists_cons_tl.
Qed.

(** The parts a response of a batch is assembled from. *)
Lemma assemble_loop_parts (self : TextGenerationService.t)
    (request : BatchedGenerationRequest.t) (resp_options : ResponseOptions.t)
    (sampling_params : SamplingParams.t) (flags : list bool) (tlr : bool)
    (responses : list (option RequestOutput.t)) :
  forall (i : nat) (out : list GenerationResponse.t),
  assemble_loop self request resp_options sampling_params flags tlr i
    responses = Ok out ->
  forall k response, out !! k = Some response ->
    exists res output flag text response0,
      responses !! k = Some (Some res)
      /\ RequestOutput.outputs res !! 0%nat = Some output
      /\ flags !! (i + k)%nat = Some flag
      /\ BatchedGenerationRequest.requests request !! (i + k)%nat = Some text
      /\ _convert_output self output resp_options flag tlr 0 0 = Ok response0
      /\ _convert_input_details self (RequestOutput.set_prompt res text)
           resp_options sampling_params response0 = Ok response.
Proof.
  induction responses as [|slot rest IH]; intros i out H; cbn in H.
  - injection H as <-. intros k r Hk. by rewrite lookup_nil in Hk.
  - apply bind_Ok in H as (res & Hres & H).
    destruct slot as [res'|]; [|discriminate]. injection Hres as ->.
    apply bind_Ok in H as (text & Ht & H).
    apply bind_Ok in H as (output & Ho & H).
    apply bind_Ok in H as (flag & Hf & H).
    apply bind_Ok in H as (response0 & Hr0 & H).
    apply bind_Ok in H as (response & Hr & H).
    apply bind_Ok in H as (others & Hrest & H). injection H as <-.
    unfold getitem in Ho, Hf, Ht. cbn in Ho.
    destruct (RequestOutput.outputs res !! 0%nat) as [o|] eqn:Eo;
      [|discriminate].
    injection Ho as ->.
    destruct (flags !! i) as [f|] eqn:Ef; [|discriminate].
    injection Hf as ->.
    destruct (BatchedGenerationRequest.requests request !! i) as [t|] eqn:Et;
      [|discriminate].
    injection Ht as ->.
    intros [|k] r Hk; cbn in Hk.
    + injection Hk as <-. exists res, output, flag, text, response0.
      rewrite Nat.add_0_r. auto 10.
    + eapply IH in Hk as (res' & o' & f' & t' & r0' & ? & ? & Hf' & Ht' & ?);
        [|exact Hrest].
      exists res', o', f', t', r0'.
      replace (i + S k)%nat with (S i + k)%nat by lia. auto 10.
Qed.

Lemma convert_input_details_text (self : TextGenerationService.t)
    (result : RequestOutput.t) (resp_options : ResponseOptions.t)
    (sampling_params : SamplingParams.t)
    (response r : GenerationResponse.t) (prompt : str) :
  RequestOutput.prompt result = Some prompt ->
  _convert_input_details self result resp_options sampling_params response
  = Ok r ->
  GenerationResponse.text r
  = (if ResponseOptions.input_text resp_options
     then prompt ++ GenerationResponse.text response
     else GenerationResponse.text response).
Proof.
  intros Hp H. unfold _convert_input_details in H. rewrite Hp in H.
  apply bind_Ok in H as (input_tokens & _ & H).
  apply bind_Ok in H as (text & Ht & H). injection H as <-. cbn.
  destruct (ResponseOptions.input_text resp_options);
    injection Ht as <-; [|reflexivity].
  destruct (GenerationResponse.text response); cbn;
    [by rewrite app_nil_r | reflexivity].
Qed.

Lemma convert_reason_no_deadline (output : CompletionOutput.t)
    (flag : bool) :
  (_convert_reason output flag false).1 <> TIME_LIMIT.
Proof.
  unfold _convert_reason.
  destruct (CompletionOutput.finish_reason output); [|discriminate].
  repeat case_decide; destruct (CompletionOutput.stop_reason output), flag;
    discriminate.
Qed.

(** X16. A batch call without time limit that ends well never aborts the
    engine and takes the whole merged stream.  It returns one response
    per request, in request order whatever the order of the merged
    stream: the response of member [j] is built from the latest snapshot
    of member [j], with the request's own text in front when input text
    is requested, and it never reports TIME_LIMIT. *)
Theorem batch_without_time_limit
    (self : TextGenerationService.t)
    (SamplingParams_verify : SamplingParams.t -> bool)
    (request_id : str) (request : BatchedGenerationRequest.t) (now : Q)
    (merged : list (nat * RequestOutput.t * Q))
    (responses : list GenerationResponse.t) :
  let params := BatchedGenerationRequest.params request in
  let resp_options := Parameters.response params in
  let run :=
    Generate self SamplingParams_verify request_id request now merged in
  StoppingCriteria.time_limit_millis (Parameters.stopping params) = 0%N ->
  outcome run = Ok responses ->
  aborted (effects run) = []
  /\ consumed (effects run) = map (fun ev => ev.1.2) merged
  /\ length responses = length (BatchedGenerationRequest.requests request)
  /\ forall j response,
       responses !! j = Some response ->
       exists snapshot output text,
         latest j merged = Some snapshot
         /\ RequestOutput.outputs snapshot !! 0%nat = Some output
         /\ BatchedGenerationRequest.requests request !! j = Some text
         /\ GenerationResponse.text response
            = (if ResponseOptions.input_text resp_options
               then text ++ CompletionOutput.text output
               else CompletionOutput.text output)
         /\ GenerationResponse.generated_token_count response
            = length (CompletionOutput.token_ids output)
         /\ GenerationResponse.input_token_count response
            = length (RequestOutput.prompt_token_ids snapshot)
         /\ GenerationResponse.stop_reason response <> TIME_LIMIT
         /\ exists max_is_token_limit,
              (GenerationResponse.stop_reason response,
               GenerationResponse.stop_sequence response)
              = _convert_reason output max_is_token_limit false.
Proof.
  intros params resp_options run Hms Hrun.
  destruct (Generate_Ok _ _ _ _ _ _ _ Hrun)
    as (sp & dl & sp' & gens & flags & slots & tlr & Hv & _ & Hloop & Heff
        & Hasm).
  cbv zeta in Hloop, Heff, Hasm. fold run in Heff.
  apply validate_Ok, convert_params_deadline in Hv. cbv zeta in Hv.
  fold params in Hv. rewrite Hms in Hv. cbn in Hv. subst dl.
  pose proof (batch_loop_Ok _ _ _ _ _ _ _ Hloop)
    as (events & rest & Hm & Hslots & Hidx & Hes & Htlr).
  destruct tlr.
  { destruct Htlr as [_ Hex]. apply Exists_exists in Hex as (ev & _ & Hev).
    discriminate. }
  subst rest. rewrite app_nil_r in Hm. subst events.
  rewrite Hes, app_nil_r in Heff.
  destruct (observe_EngineGenerate sp' gens) as (Ha1 & Hc1 & _).
  destruct (observe_EngineNext request_id merged) as (Ha2 & Hc2).
  rewrite Heff, aborted_app, consumed_app, Ha1, Ha2, Hc1, Hc2.
  split; [reflexivity|]. split; [reflexivity|].
  pose proof (assemble_loop_Ok _ _ _ _ _ _ _ _ _ Hasm) as [Hlen _].
  split.
  { rewrite Hlen, Hslots, collect_length. apply length_replicate. }
  intros j response Hj.
  eapply assemble_loop_parts in Hj
    as (res & output & flag & text & r0 & Hs & Ho & _ & Ht & Hr0 & Hr);
    [|exact Hasm].
  rewrite Hslots, collect_lookup in Hs by exact Hidx.
  destruct (latest j merged) as [s|] eqn:El.
  2: { apply lookup_replicate in Hs as [? _]. discriminate. }
  injection Hs as ->. exists res, output, text.
  pose proof (convert_output_Ok _ _ _ _ _ _ _ _ Hr0) as (Ht0 & Hc0 & Hq0 & _).
  pose proof (convert_input_details_Ok _ _ _ _ _ _ Hr)
    as (Hic & Hg & Hsr & Hss & _).
  pose proof (convert_input_details_text self
                (RequestOutput.set_prompt res text) _ _ _ _ text eq_refl Hr)
    as Htx.
  rewrite Ht0, drop_0 in Htx. cbn [Nat.add] in Ht.
  split; [reflexivity|]. split; [exact Ho|]. split; [exact Ht|].
  split; [exact Htx|]. split; [congruence|]. split; [exact Hic|].
  split.
  - rewrite Hsr.
    replace (GenerationResponse.stop_reason r0)
      with (_convert_reason output flag false).1 by (by rewrite <- Hq0).
    apply convert_reason_no_deadline.
  - exists flag. by rewrite Hsr, Hss.
Qed.

Lemma batch_without_time_limit_witness :
  exists r0 r1,
    outcome (Generate ex_service ex_verify ex_request_id ex_batch_7_1 0
               ex_merged_7_1) = Ok [r0; r1]
    /\ aborted (effects (Generate ex_service ex_verify ex_request_id
                           ex_batch_7_1 0 ex_merged_7_1)) = [].
Proof.
  eexists _, _. split; [vm_compute; reflexivity|].
  eapply (batch_without_time_limit ex_service ex_verify ex_request_id
            ex_batch_7_1 0 ex_merged_7_1).
  - reflexivity.
  - vm_compute. reflexivity.
Defined.

(** X17. A batch call never returns when some member has produced no
    snapshot: if the merged stream holds nothing for an index of the
    batch, the call ends in an exception, deadline or not. *)
Theorem batch_missing_member_fails
    (self : TextGenerationService.t)
    (SamplingParams_verify : SamplingParams.t -> bool)
    (request_id : str) (request : BatchedGenerationRequest.t) (now : Q)
    (merged : list (nat * RequestOutput.t * Q)) (j : nat) :
  (j < length (BatchedGenerationRequest.requests request))%nat ->
  latest j merged = None ->
  exists e,
    outcome (Generate self SamplingParams_verify request_id request now
               merged) = Raise e.
Proof.
  intros Hj Hnone.
  destruct (outcome (Generate _ _ _ _ now merged)) as [out|e] eqn:Hrun;
    [|eauto].
  exfalso.
  destruct (Generate_Ok _ _ _ _ _ _ _ Hrun)
    as (sp & dl & sp' & gens & flags & slots & tlr & _ & _ & Hloop & _
        & Hasm).
  cbv zeta in Hloop, Hasm.
  pose proof (batch_loop_Ok _ _ _ _ _ _ _ Hloop)
    as (events & rest & Hm & Hslots & Hidx & _ & _).
  subst merged. apply latest_app_None in Hnone.
  assert (slots !! j = Some None) as Hslot.
  { rewrite Hslots, collect_lookup, Hnone by exact Hidx.
    by apply lookup_replicate. }
  pose proof (assemble_loop_Ok _ _ _ _ _ _ _ _ _ Hasm) as [Hlen Hat].
  assert (j < length out)%nat as Hlt.
  { rewrite Hlen, Hslots, collect_length, length_replicate. exact Hj. }
  destruct (lookup_lt_is_Some_2 out j Hlt) as [response Hr].
  apply Hat in Hr as (res & _ & _ & Hs & _). congruence.
Qed.

Lemma batch_missing_member_fails_witness :
  exists e,
    outcome (Generate ex_service ex_verify ex_request_id ex_batch_7_1 0
               [(0%nat,
                 ex_snapshot [97; 98; 99; 100; 101; 102; 103]
                   (str_of_string "x") [120] None,
                 1%Q)]) = Raise e.
Proof.
  apply (batch_missing_member_fails ex_service ex_verify ex_request_id
           ex_batch_7_1 0 _ 1%nat).
  - vm_compute. lia.
  - vm_compute. reflexivity.
Defined.

(** X18. A batch call that ends well has started the engine once per member,
    in request order and ahead of everything else, each member under its
    own id and with its own prompt tokens, all with the same sampling
    parameters; and it has aborted either no member or every member, in
    index order. *)
Theorem batch_engine_started_per_member
    (self : TextGenerationService.t)
    (SamplingParams_verify : SamplingParams.t -> bool)
    (request_id : str) (request : BatchedGenerationRequest.t) (now : Q)
    (merged : list (nat * RequestOutput.t * Q))
    (responses : list GenerationResponse.t) :
  let params := BatchedGenerationRequest.params request in
  let requests := BatchedGenerationRequest.requests request in
  let run :=
    Generate self SamplingParams_verify request_id request now merged in
  outcome run = Ok responses ->
  exists sp es,
    effects run
    = map (fun g => EngineGenerate g.1 sp g.2)
        (zip (map (Member request_id) (seq 0 (length requests)))
           (map (fun text =>
                   TextGenerationService.encode_async self text
                     (with_default_None
                        (Parameters.truncate_input_tokens params)))
              requests))
      ++ es
    /\ Forall
         (fun e => match e with EngineGenerate _ _ _ => False | _ => True end)
         es
    /\ (aborted es = []
        \/ aborted es = map (Member request_id) (seq 0 (length requests))).
Proof.
  intros params requests run Hrun.
  destruct (Generate_Ok _ _ _ _ _ _ _ Hrun)
    as (sp & dl & sp' & gens & flags & slots & tlr & _ & Hp & Hloop & Heff
        & _).
  cbv zeta in Hp, Hloop, Heff. fold run params requests in Hp, Hloop, Heff.
  apply prepare_loop_generators in Hp as (Hg & _). cbn [app] in Hg.
  pose proof (batch_loop_Ok _ _ _ _ _ _ _ Hloop)
    as (events & rest & _ & _ & _ & Hes & _).
  exists sp', (effects (batch_loop request_id dl (length requests)
                          (replicate (length requests) None) merged)).
  split; [by rewrite Heff, Hg|]. rewrite Hes.
  destruct (observe_EngineNext request_id events) as (Ha & _).
  destruct (observe_abort_all request_id (length requests)) as (Ha' & _).
  split.
  - apply Forall_app. split.
    + apply Forall_forall. intros e He.
      apply list_elem_of_fmap in He as (ev & -> & _). exact I.
    + destruct tlr; [|constructor]. unfold abort_all.
      apply Forall_forall. intros e He.
      apply list_elem_of_fmap in He as (k & -> & _). exact I.
  - rewrite aborted_app, Ha. cbn [app].
    destruct tlr; [right; exact Ha' | left; reflexivity].
Qed.

Lemma batch_engine_started_per_member_witness :
  exists sp es,
    effects (Generate ex_service ex_verify ex_request_id ex_batch_timed 0
               ex_merged_timed)
    = [EngineGenerate (Member ex_request_id 0) sp [97; 98];
       EngineGenerate (Member ex_request_id 1) sp [104]] ++ es.
Proof.
  destruct (batch_engine_started_per_member ex_service ex_verify
    ex_request_id ex_batch_timed 0 ex_merged_timed _
    ltac:(vm_compute; reflexivity)) as (sp & es & Heff & _).
  exists sp, es. exact Heff.
Defined.

(** ** Tokenize and ModelInfo *)

Lemma tokenize_loop_map (self : TextGenerationService.t)
    (return_tokens : bool) (requests : list str) :
  forall responses,
  tokenize_loop self return_tokens requests responses
  = responses
    ++ map (fun text =>
              let token_ids :=
                TextGenerationService.encode_async self text None in
              TokenizeResponse.mk (length token_ids)
                (if negb return_tokens then []
                 else TextGenerationService.convert_ids_to_tokens self
                        token_ids))
         requests.
Proof.
  induction requests as [|text rest IH]; intros responses; cbn.
  - by rewrite app_nil_r.
  - by rewrite IH, <- app_assoc.
Qed.

(** X19. [Tokenize] answers every request, in order: response [k] counts the
    tokens of request [k], encoded without truncation; it lists their
    texts, as many as the count, when tokens are asked for, and lists
    nothing otherwise. *)
Theorem tokenize_one_response_per_request
    (self : TextGenerationService.t) (request : BatchedTokenizeRequest.t) :
  length (Tokenize self request)
  = length (BatchedTokenizeRequest.requests request)
  /\ forall k response,
       Tokenize self request !! k = Some response ->
       exists text,
         BatchedTokenizeRequest.requests request !! k = Some text
         /\ TokenizeResponse.token_count response
            = length (TextGenerationService.encode_async self text None)
         /\ TokenizeResponse.tokens response
            = (if BatchedTokenizeRequest.return_tokens request
               then map (TextGenerationService.id_to_token self)
                      (TextGenerationService.encode_async self text None)
               else [])
         /\ (BatchedTokenizeRequest.return_tokens request = true ->
             length (TokenizeResponse.tokens response)
             = TokenizeResponse.token_count response).
Proof.
  unfold Tokenize. rewrite tokenize_loop_map. cbn [app].
  split; [by rewrite length_map|].
  intros k response Hk. rewrite list_lookup_fmap in Hk.
  destruct (BatchedTokenizeRequest.requests request !! k) as [text|];
    [|discriminate].
  injection Hk as <-. exists text. cbn.
  unfold TextGenerationService.convert_ids_to_tokens.
  destruct (BatchedTokenizeRequest.return_tokens request); cbn;
    repeat split; try discriminate.
  intros _. by rewrite length_map.
Qed.

(** X20. The token count [Tokenize] reports and the sequence length
    [ModelInfo] reports tell whether a stream call is turned away for the
    length of its prompt: a request with valid parameters and no input
    truncation is rejected, with invalid-argument and before the engine
    is touched, exactly when its token count reaches the reported
    sequence length or exceeds it together with [min_new_tokens]. *)
Theorem tokenize_count_predicts_rejection
    (self : TextGenerationService.t)
    (SamplingParams_verify : SamplingParams.t -> bool)
    (request_id : str) (request : SingleGenerationRequest.t) (now : Q)
    (snapshots : list (RequestOutput.t * Q)) (return_tokens : bool)
    (sp : SamplingParams.t) (deadline : option Q) :
  let params := SingleGenerationRequest.params request in
  let window := ModelInfoResponse.max_sequence_length (ModelInfo self) in
  let min_new_tokens :=
    Z.of_N (StoppingCriteria.min_new_tokens (Parameters.stopping params)) in
  Parameters.truncate_input_tokens params = 0%N ->
  _validate_and_convert_params self SamplingParams_verify params now
  = Ok (sp, deadline) ->
  exists response,
    Tokenize self
      (BatchedTokenizeRequest.mk [SingleGenerationRequest.request request]
         return_tokens) = [response]
    /\ let token_count := Z.of_nat (TokenizeResponse.token_count response) in
       (GenerateStream self SamplingParams_verify request_id request now
          snapshots
        = Traced [] (Raise (AbortError INVALID_ARGUMENT))
        <-> window <= token_count
            \/ window < token_count + min_new_tokens).
Proof.
  intros params window min_new_tokens Htr Hv.
  eexists. split; [reflexivity|]. cbn.
  pose proof (proj1 (validate_Ok _ _ _ _ _) Hv) as Hc.
  apply convert_params_Ok in Hc as (_ & _ & Hmin & _).
  fold params in Hmin.
  assert (SamplingParams.min_tokens sp = min_new_tokens) as Hmin'
    by (unfold min_new_tokens; lia).
  unfold GenerateStream. fold params. rewrite Hv, Htr. cbn.
  change (with_default_None 0%N) with (@None N).
  split.
  - intros H.
    destruct (Z.le_gt_cases window
                (Z.of_nat (length (TextGenerationService.encode_async self
                   (SingleGenerationRequest.request request) None))))
      as [Hge|Hlt]; [by left|].
    destruct (Z.lt_ge_cases window
                (Z.of_nat (length (TextGenerationService.encode_async self
                   (SingleGenerationRequest.request request) None))
                 + min_new_tokens)) as [Hgt|Hle]; [by right|].
    exfalso.
    destruct (prepare_within_window self sp None
                (SingleGenerationRequest.request request))
      as [[sp' [ids flag]] Hp].
    { unfold window, ModelInfo in Hlt. cbn in Hlt. lia. }
    { unfold window, ModelInfo in Hle. cbn in Hle. rewrite Hmin'. lia. }
    rewrite Hp in H. cbn in H.
    destruct (stream_loop _ _ _ _ _ _ _ _ _ _ _) as [es [[]|e]];
      cbn in H; discriminate.
  - intros H.
    rewrite (prepare_over_window self sp None
               (SingleGenerationRequest.request request)); [reflexivity|].
    cbv zeta. rewrite Hmin'. exact H.
Qed.

Lemma tokenize_count_predicts_rejection_witness :
  exists response,
    Tokenize ex_service
      (BatchedTokenizeRequest.mk [str_of_string "abcdefghij"] true)
    = [response]
    /\ TokenizeResponse.token_count response = 10%nat
    /\ GenerateStream ex_service ex_verify ex_request_id
         (SingleGenerationRequest.mk (str_of_string "abcdefghij")
            (ex_params (ex_stopping 0 0 0 []) (ex_options false false 0)))
         0 ex_stream
       = Traced [] (Raise (AbortError INVALID_ARGUMENT)).
Proof.
  destruct (tokenize_count_predicts_rejection ex_service ex_verify
    ex_request_id
    (SingleGenerationRequest.mk (str_of_string "abcdefghij")
       (ex_params (ex_stopping 0 0 0 []) (ex_options false false 0)))
    0 ex_stream true _ _ eq_refl ltac:(vm_compute; reflexivity))
    as (response & Ht & Hiff).
  exists response. split; [exact Ht|].
  injection Ht as <-. split; [reflexivity|].
  apply Hiff. left. vm_compute. discriminate.
Defined.

(** X21. Whatever a stream call hands to the engine respects the limits
    [ModelInfo] reports: the prompt is shorter than the sequence length,
    the maximum of new tokens is set, does not exceed the reported
    maximum, and fits the sequence length next to the prompt. *)
Theorem stream_respects_model_info
    (self : TextGenerationService.t)
    (SamplingParams_verify : SamplingParams.t -> bool)
    (request_id : str) (request : SingleGenerationRequest.t) (now : Q)
    (snapshots : list (RequestOutput.t * Q)) :
  let info := ModelInfo self in
  Forall
    (fun e =>
       match e with
       | EngineGenerate _ sp input_ids =>
           Z.of_nat (length input_ids)
           < ModelInfoResponse.max_sequence_length info
           /\ exists m,
                SamplingParams.max_tokens sp = Some m
                /\ m <= ModelInfoResponse.max_new_tokens info
                /\ Z.of_nat (length input_ids) + m
                   <= ModelInfoResponse.max_sequence_length info
       | _ => True
       end)
    (effects (GenerateStream self SamplingParams_verify request_id request
                now snapshots)).
Proof.
  cbv zeta. unfold GenerateStream, ModelInfo. cbn.
  destruct (_validate_and_convert_params _ _ _ now) as [[sp dl]|e] eqn:Ev;
    [|constructor].
  cbn.
  destruct (_validate_prompt_and_tokenize _ _ _ _)
    as [[sp' [ids flag]]|e] eqn:Ep; [|constructor].
  cbn.
  pose proof (stream_loop_no_generate self request_id
    (SingleGenerationRequest.request request)
    (Parameters.response (SingleGenerationRequest.params request)) sp' dl
    flag snapshots true 0%nat 0%nat) as Hno.
  assert (Z.of_nat (length ids) < TextGenerationService.max_model_len self
          /\ exists m,
               SamplingParams.max_tokens sp' = Some m
               /\ m <= TextGenerationService.max_max_new_tokens self
               /\ Z.of_nat (length ids) + m
                  <= TextGenerationService.max_model_len self) as Hhead.
  { apply validate_Ok, convert_params_Ok in Ev.
    destruct Ev as (Hmax & Hceil & _).
    apply prepare_Ok in Ep as (_ & H1 & H2 & _ & Hp). cbv zeta in *.
    split; [exact H1|]. rewrite Hmax in Hp.
    destruct (0 <? _)%N eqn:E.
    - apply N.ltb_lt in E. specialize (Hceil E).
      destruct (_ <? _) eqn:Ew; destruct Hp as [-> _].
      + apply Z.ltb_lt in Ew. eexists. split; [reflexivity|]. lia.
      + apply Z.ltb_ge in Ew. rewrite Hmax.
        eexists. split; [reflexivity|]. lia.
    - destruct Hp as [-> _]. eexists. split; [reflexivity|]. lia. }
  destruct (stream_loop _ _ _ _ _ _ _ _ _ _ _) as [es [[]|e]]; cbn in *;
    (constructor; [exact Hhead|]);
    (eapply Forall_impl; [exact Hno|]); by intros [].
Qed.

(** ** Error reporting of the handlers *)



(** X23. Under the wrapper, a call that validation or prompt preparation
    turns away reaches the client as the invalid-argument abort itself:
    nothing is logged, and the engine has not been touched.  This covers
    every stream call whose trace does not begin with the start of the
    engine. *)
Theorem stream_rejections_reach_client_unlogged
    (self : TextGenerationService.t)
    (SamplingParams_verify : SamplingParams.t -> bool)
    (func_name request_id : str) (request : SingleGenerationRequest.t)
    (now : Q) (snapshots : list (RequestOutput.t * Q)) :
  let wrapped :=
    log_rpc_handler_errors func_name
      (GenerateStream self SamplingParams_verify request_id request now
         snapshots) in
  wrapped = Logged [] [] (inr (Handler (AbortError INVALID_ARGUMENT)))
  \/ exists sp input_ids es,
       trace wrapped = EngineGenerate (Single request_id) sp input_ids :: es.
Proof.
  cbv zeta. unfold GenerateStream.
  destruct (_validate_and_convert_params _ _ _ now) as [[sp dl]|e] eqn:Ev.
  2: { left. apply validate_raises in Ev. by subst e. }
  cbn.
  destruct (_validate_prompt_and_tokenize _ _ _ _)
    as [[sp' [ids flag]]|e] eqn:Ep.
  2: { left. apply prepare_raises in Ep. by subst e. }
  right. cbn.
  destruct (stream_loop _ _ _ _ _ _ _ _ _ _ _) as [es [[]|e]]; cbn.
  - by exists sp', ids, es.
  - unfold log_rpc_handler_errors. cbn.
    destruct (_handle_exception (Handler e) func_name). cbn.
    by exists sp', ids, es.
Qed.

(** X24. [_handle_exception] always ends in an exception and logs at most
    once.  It passes an abort on unlogged; the only exception it replaces
    is one whose class name is "torch.cuda.OutOfMemoryError", which
    becomes a RESOURCE_EXHAUSTED abort after one record of the
    out-of-memory error; any other exception is raised again after one
    record that the handler failed. *)
Theorem handle_exception_replaces_only_oom (e : exception)
    (func_name : str) :
  let oom := str_of_string "torch.cuda.OutOfMemoryError" in
  let r := _handle_exception e func_name in
  (r.1 = [] <-> is_AbortError e = true)
  /\ (is_AbortError e = true -> r.2 = e)
  /\ (is_AbortError e = false -> type_name e = oom ->
      r = ([LogOOM func_name], Handler (AbortError RESOURCE_EXHAUSTED)))
  /\ (is_AbortError e = false -> type_name e <> oom ->
      r = ([LogFailed func_name], e)).
Proof.
  intros oom. cbv zeta. unfold _handle_exception. fold oom.
  destruct (is_AbortError e); cbn [negb].
  - repeat split; intros; try reflexivity; discriminate.
  - case_decide; cbn [fst snd]; repeat split; intros; try reflexivity;
      try discriminate; contradiction.
Qed.

Lemma handle_exception_replaces_only_oom_witness :
  _handle_exception (Foreign (str_of_string "torch.cuda.OutOfMemoryError"))
    (str_of_string "Generate")
  = ([LogOOM (str_of_string "Generate")],
     Handler (AbortError RESOURCE_EXHAUSTED))
  /\ _handle_exception (Handler IndexError) (str_of_string "Generate")
     = ([LogFailed (str_of_string "Generate")], Handler IndexError).
Proof.
  split.
  - apply (handle_exception_replaces_only_oom
             (Foreign (str_of_string "torch.cuda.OutOfMemoryError"))
             (str_of_string "Generate")); reflexivity.
  - apply (handle_exception_replaces_only_oom (Handler IndexError)
             (str_of_string "Generate")); [reflexivity|].
    vm_compute. discriminate.
Defined.
